(** * st-trace: the SWO trace decoder of src/st-trace/trace.c

    A shallow embedding of the trace-packet decoder, the configuration
    heuristic, the serial-number conversion, the trace-enable register
    script and the session driver ([main]) of [trace.c], with the
    properties the specification states about them.

    Conventions.  C integers are [Z]; the wrap-around of the unsigned
    types is written out ([wrap8], [wrap32]), and an [int] expression has
    its value only inside the range of [int] ([int_range]).  The [st_trace_t] record is
    threaded through a small state/writer/error monad [M]: the state is the
    record, the writer collects what the code sends to stdout and to the
    log, and the error case is an array access outside its bounds.  The
    functions that talk to the probe live in a second monad [P] over the
    state of the outside world; the probe driver and the constants of
    stlink.h, which are not part of the sources at hand, are parameters.
    The texts of the log lines are not modelled: a log line is the
    constructor of its format string with its arguments.

    The file has the model first (in the order of trace.c, with
    [parse_options] and the whole program after the predicates), then the
    predicates the statements use, then the lemmas, then the theorems for
    the claims C1 to C10 of the specification and the further properties
    X1 and following. *)

From stdpp Require Import base list.
From Stdlib Require Import ZArith Lia Bool.
From Equations Require Import Equations.
Local Open Scope Z_scope.

(** ** Machine integers *)

Definition wrap8 (x : Z) : Z := x mod 2 ^ 8.
Definition wrap32 (x : Z) : Z := x mod 2 ^ 32.

(** The values of type [int] (32 bits, two's complement).  ISO C gives an
    [int] expression no value when its result is outside this range. *)
Definition int_range (x : Z) : bool := (- 2 ^ 31 <=? x) && (x <? 2 ^ 31).

Definition is_uint8 (c : Z) : Prop := 0 <= c < 256.
Definition is_uint32 (x : Z) : Prop := 0 <= x < 2 ^ 32.

(** ** The packet classifiers (lines 27-38) *)

Definition TRACE_OP_IS_OVERFLOW (c : Z) : bool := c =? 0x70.
Definition TRACE_OP_IS_LOCAL_TIME (c : Z) : bool :=
  (Z.land c 0x0f =? 0x00) && negb (Z.land c 0x70 =? 0x00).
Definition TRACE_OP_IS_EXTENSION (c : Z) : bool := Z.land c 0x0b =? 0x08.
Definition TRACE_OP_IS_GLOBAL_TIME (c : Z) : bool := Z.land c 0xdf =? 0x94.
Definition TRACE_OP_IS_SOURCE (c : Z) : bool := negb (Z.land c 0x03 =? 0x00).
Definition TRACE_OP_IS_SW_SOURCE (c : Z) : bool :=
  negb (Z.land c 0x03 =? 0x00) && (Z.land c 0x04 =? 0x00).
Definition TRACE_OP_IS_HW_SOURCE (c : Z) : bool :=
  negb (Z.land c 0x03 =? 0x00) && (Z.land c 0x04 =? 0x04).
Definition TRACE_OP_IS_TARGET_SOURCE (c : Z) : bool := c =? 0x01.
Definition TRACE_OP_GET_CONTINUATION (c : Z) : Z := Z.land c 0x80.
Definition TRACE_OP_GET_SOURCE_SIZE (c : Z) : Z := Z.land c 0x03.
Definition TRACE_OP_GET_SW_SOURCE_ADDR (c : Z) : Z := Z.shiftr c 3.

(** ** The session record (lines 115-140) *)

Inductive trace_state : Set :=
| TRACE_STATE_IDLE
| TRACE_STATE_TARGET_SOURCE
| TRACE_STATE_SKIP_FRAME
| TRACE_STATE_SKIP_4
| TRACE_STATE_SKIP_3
| TRACE_STATE_SKIP_2
| TRACE_STATE_SKIP_1.

Record st_trace_t : Set := mk_trace {
  start_time : Z;
  configuration_checked : bool;
  state : trace_state;
  count_raw_bytes : Z;
  count_target_data : Z;
  count_time_packets : Z;
  count_overflow : Z;
  count_error : Z;
  unknown_opcodes : list Z;        (* uint8_t [256 / 8] *)
  unknown_sources : Z
}.

Definition set_configuration_checked (v : bool) (t : st_trace_t) : st_trace_t :=
  mk_trace (start_time t) v (state t) (count_raw_bytes t) (count_target_data t)
    (count_time_packets t) (count_overflow t) (count_error t)
    (unknown_opcodes t) (unknown_sources t).
Definition set_state (v : trace_state) (t : st_trace_t) : st_trace_t :=
  mk_trace (start_time t) (configuration_checked t) v (count_raw_bytes t)
    (count_target_data t) (count_time_packets t) (count_overflow t)
    (count_error t) (unknown_opcodes t) (unknown_sources t).
Definition set_count_raw_bytes (v : Z) (t : st_trace_t) : st_trace_t :=
  mk_trace (start_time t) (configuration_checked t) (state t) v
    (count_target_data t) (count_time_packets t) (count_overflow t)
    (count_error t) (unknown_opcodes t) (unknown_sources t).
Definition set_count_target_data (v : Z) (t : st_trace_t) : st_trace_t :=
  mk_trace (start_time t) (configuration_checked t) (state t)
    (count_raw_bytes t) v (count_time_packets t) (count_overflow t)
    (count_error t) (unknown_opcodes t) (unknown_sources t).
Definition set_count_time_packets (v : Z) (t : st_trace_t) : st_trace_t :=
  mk_trace (start_time t) (configuration_checked t) (state t)
    (count_raw_bytes t) (count_target_data t) v (count_overflow t)
    (count_error t) (unknown_opcodes t) (unknown_sources t).
Definition set_count_overflow (v : Z) (t : st_trace_t) : st_trace_t :=
  mk_trace (start_time t) (configuration_checked t) (state t)
    (count_raw_bytes t) (count_target_data t) (count_time_packets t) v
    (count_error t) (unknown_opcodes t) (unknown_sources t).
Definition set_count_error (v : Z) (t : st_trace_t) : st_trace_t :=
  mk_trace (start_time t) (configuration_checked t) (state t)
    (count_raw_bytes t) (count_target_data t) (count_time_packets t)
    (count_overflow t) v (unknown_opcodes t) (unknown_sources t).
Definition set_unknown_opcodes (v : list Z) (t : st_trace_t) : st_trace_t :=
  mk_trace (start_time t) (configuration_checked t) (state t)
    (count_raw_bytes t) (count_target_data t) (count_time_packets t)
    (count_overflow t) (count_error t) v (unknown_sources t).
Definition set_unknown_sources (v : Z) (t : st_trace_t) : st_trace_t :=
  mk_trace (start_time t) (configuration_checked t) (state t)
    (count_raw_bytes t) (count_target_data t) (count_time_packets t)
    (count_overflow t) (count_error t) (unknown_opcodes t) v.

(** [st_trace_t trace = {}] followed by [trace.start_time = time(NULL)]
    (lines 530-531). *)
Definition trace_init (now : Z) : st_trace_t :=
  mk_trace now false TRACE_STATE_IDLE 0 0 0 0 0 (replicate 32 0) 0.

(** ** What the program sends out *)

(** One constructor per format string of a logging call, with its
    arguments. *)
Inductive message : Set :=
| Unsupported_source (addr size : Z)      (* line 343 *)
| Unknown_opcode (c : Z)                  (* line 362 *)
| Error_reading_trace (length : Z)        (* line 411 *)
| Diag_stars                              (* lines 437, 453 *)
| Diag_not_retrieving                     (* line 438 *)
| Diag_raw_bytes (n : Z)
| Diag_target_data (n : Z)
| Diag_time_packets (n : Z)
| Diag_overflow_count (n : Z)
| Diag_errors (n : Z)
| Diag_unknown_opcode (i : Z)
| Diag_unknown_source (i : Z)
| Diag_check_clock                        (* lines 450-452 *)
| Unable_to_set (address data : Z)        (* line 259 *)
| Unable_to_read (address : Z)            (* line 265 *)
| Unable_to_debug_device
| Unable_to_reset_device
| Unable_to_turn_on_tracing
| TPI_configured_for (mhz : Z)            (* line 312 *)
| TPI_not_configured                      (* lines 314-316 *)
| Unable_to_locate_stlink
| Not_connected_to_device
| Stlink_does_not_support_tracing
| No_SWO_support_for_device
| Unable_to_enable_trace_mode
| Unable_to_run_device
| Reading_trace
| Settings_dump.                          (* the DLOG lines 472-478 *)

Inductive log_level : Set := UERROR | UWARN | UINFO | UDEBUG.

(** Calls into the probe driver (the functions of stlink.h). *)
Inductive probe_call : Set :=
| stlink_open_usb
| stlink_force_debug
| stlink_reset
| stlink_write_mem32 (address data : Z)
| stlink_read_mem32 (address word : Z)     (* with the word left in [q_buf] *)
| stlink_trace_enable
| stlink_trace_disable
| stlink_trace_read
| stlink_run
| stlink_close.

Inductive event : Set :=
| Putchar (c : Z)
| Fflush
| Usleep (us : Z)
| Usage                                   (* the text of [usage()] *)
| Print_version
| Log (level : log_level) (m : message)
| Call (p : probe_call).

Definition WLOG (m : message) : event := Log UWARN m.
Definition ELOG (m : message) : event := Log UERROR m.
Definition ILOG (m : message) : event := Log UINFO m.
Definition DLOG (m : message) : event := Log UDEBUG m.

(** The bytes written to the primary output stream. *)
Definition stdout_of (evs : list event) : list Z :=
  flat_map (fun e => match e with Putchar c => [c] | _ => [] end) evs.

(** ** The monad of the functions that work on a [st_trace_t *] *)

Definition M (A : Type) : Type := st_trace_t -> option (A * st_trace_t * list event).

Definition M_ret {A} (a : A) : M A := fun t => Some (a, t, []).
Definition M_bind {A B} (f : A -> M B) (m : M A) : M B :=
  fun t =>
    match m t with
    | None => None
    | Some (a, t1, e1) =>
        match f a t1 with
        | None => None
        | Some (b, t2, e2) => Some (b, t2, e1 ++ e2)
        end
    end.

#[global] Instance M_mret : MRet M := @M_ret.
#[global] Instance M_mbind : MBind M := @M_bind.

Definition get {A} (field : st_trace_t -> A) : M A := fun t => Some (field t, t, []).
Definition put (upd : st_trace_t -> st_trace_t) : M unit := fun t => Some (tt, upd t, []).
Definition emit (e : event) : M unit := fun t => Some (tt, t, [e]).
Definition when (b : bool) (m : M unit) : M unit := if b then m else mret tt.

(** [trace->unknown_opcodes[i]] as an rvalue and as an lvalue; outside the
    32 bytes of the array there is no defined behaviour. *)
Definition load_opcodes (i : Z) : M Z :=
  fun t =>
    if (0 <=? i) && (i <? Z.of_nat (length (unknown_opcodes t))) then
      match unknown_opcodes t !! Z.to_nat i with
      | Some v => Some (v, t, [])
      | None => None
      end
    else None.
Definition store_opcodes (i v : Z) : M unit :=
  fun t =>
    if (0 <=? i) && (i <? Z.of_nat (length (unknown_opcodes t))) then
      Some (tt, set_unknown_opcodes (<[Z.to_nat i := wrap8 v]> (unknown_opcodes t)) t, [])
    else None.

(** [x++] on a [uint32_t] field. *)
Definition incr (field : st_trace_t -> Z) (set : Z -> st_trace_t -> st_trace_t) : M unit :=
  n ← get field; put (set (wrap32 (n + 1))).

(** ** The decoder (lines 334-404) *)

Definition continuation_state (c : Z) : trace_state :=
  if negb (TRACE_OP_GET_CONTINUATION c =? 0) then TRACE_STATE_SKIP_FRAME
  else TRACE_STATE_IDLE.

(** Lines 350-366: what [UpdateTraceIdle] does when no earlier [return]
    was taken. *)
Definition UpdateTraceIdle_tail (c : Z) : M trace_state :=
  if TRACE_OP_IS_LOCAL_TIME c || TRACE_OP_IS_GLOBAL_TIME c then
    incr count_time_packets set_count_time_packets;;
    mret (continuation_state c)
  else if TRACE_OP_IS_EXTENSION c then
    mret (continuation_state c)
  else
    when (TRACE_OP_IS_OVERFLOW c) (incr count_overflow set_count_overflow);;
    b ← load_opcodes (c / 8);
    when (Z.land b (Z.shiftl 1 (c mod 8)) =? 0) (emit (WLOG (Unknown_opcode c)));;
    b ← load_opcodes (c / 8);
    store_opcodes (c / 8) (Z.lor b (Z.shiftl 1 (c mod 8)));;
    incr count_error set_count_error;;
    mret (continuation_state c).

(** [1 << addr] has type [int]; for [addr = 31] the shift overflows [int]
    and the conversion to [uint32_t] gives bit 31, as written here. *)
Definition UpdateTraceIdle (c : Z) : M trace_state :=
  if TRACE_OP_IS_TARGET_SOURCE c then mret TRACE_STATE_TARGET_SOURCE
  else if TRACE_OP_IS_SOURCE c then
    let size := wrap8 (TRACE_OP_GET_SOURCE_SIZE c) in
    when (TRACE_OP_IS_SW_SOURCE c)
      (let addr := wrap8 (TRACE_OP_GET_SW_SOURCE_ADDR c) in
       us ← get unknown_sources;
       when (Z.land us (wrap32 (Z.shiftl 1 addr)) =? 0)
            (emit (WLOG (Unsupported_source addr size)));;
       us ← get unknown_sources;
       put (set_unknown_sources (wrap32 (Z.lor us (wrap32 (Z.shiftl 1 addr))))));;
    if size =? 1 then mret TRACE_STATE_SKIP_1
    else if size =? 2 then mret TRACE_STATE_SKIP_2
    else if size =? 3 then mret TRACE_STATE_SKIP_4
    else UpdateTraceIdle_tail c
  else UpdateTraceIdle_tail c.

(** The [default:] branch of the switch (line 400) has no counterpart: a
    [trace_state] is one of the seven enumerators. *)
Definition UpdateTrace (c : Z) : M trace_state :=
  incr count_raw_bytes set_count_raw_bytes;;
  st ← get state;
  match st with
  | TRACE_STATE_IDLE => UpdateTraceIdle c
  | TRACE_STATE_TARGET_SOURCE =>
      emit (Putchar c);;
      when (c =? 10) (emit Fflush);;
      incr count_target_data set_count_target_data;;
      mret TRACE_STATE_IDLE
  | TRACE_STATE_SKIP_FRAME => mret (continuation_state c)
  | TRACE_STATE_SKIP_4 => mret TRACE_STATE_SKIP_3
  | TRACE_STATE_SKIP_3 => mret TRACE_STATE_SKIP_2
  | TRACE_STATE_SKIP_2 => mret TRACE_STATE_SKIP_1
  | TRACE_STATE_SKIP_1 => mret TRACE_STATE_IDLE
  end.

(** The loop of [ReadTrace] (lines 420-422):
    [trace->state = UpdateTrace(trace, buffer[i])] for each byte read. *)
Fixpoint feed (buffer : list Z) : M unit :=
  match buffer with
  | [] => mret tt
  | c :: rest => st ← UpdateTrace c; put (set_state st);; feed rest
  end.


(** ** The configuration heuristic (lines 427-455) *)

Fixpoint for_each (range : list Z) (body : Z -> M unit) : M unit :=
  match range with
  | [] => mret tt
  | i :: rest => body i;; for_each rest body
  end.

(** The C function returns nothing; the value returned here only records
    which path was taken: the early [return] of line 430, or the counter
    checks of line 435 with their verdict. *)
Inductive check_outcome : Set :=
| check_skipped
| check_quiet
| check_reported.

Definition ran_checks (o : check_outcome) : bool :=
  match o with check_skipped => false | _ => true end.

(** [uint32_t elapsed_time_s = time(NULL) - trace->start_time]. *)
Definition elapsed_time_s (now : Z) (t : st_trace_t) : Z := wrap32 (now - start_time t).

(** The two loops of lines 444-449. *)
Definition report_unknown_opcodes : M unit :=
  for_each (seqZ 0 256) (fun i =>
    b ← load_opcodes (i / 8);
    when (negb (Z.land b (Z.shiftl 1 (i mod 8)) =? 0))
         (emit (WLOG (Diag_unknown_opcode i)))).

Definition report_unknown_sources : M unit :=
  for_each (seqZ 0 32) (fun i =>
    us ← get unknown_sources;
    when (negb (Z.land us (wrap32 (Z.shiftl 1 i)) =? 0))
         (emit (WLOG (Diag_unknown_source i)))).

(** The test of line 435. *)
Definition poorly_configured (t : st_trace_t) : bool :=
  (count_raw_bytes t <? 100) || (1 <? count_error t) || (count_time_packets t <? 10).

Definition CheckForConfigurationError (now : Z) : M check_outcome :=
  elapsed ← get (elapsed_time_s now);
  checked ← get configuration_checked;
  if checked || (elapsed <? 10) then mret check_skipped
  else
    put (set_configuration_checked true);;
    poorly ← get poorly_configured;
    if (poorly : bool) then
      emit (WLOG Diag_stars);;
      emit (WLOG Diag_not_retrieving);;
      n ← get count_raw_bytes; emit (WLOG (Diag_raw_bytes n));;
      n ← get count_target_data; emit (WLOG (Diag_target_data n));;
      n ← get count_time_packets; emit (WLOG (Diag_time_packets n));;
      n ← get count_overflow; emit (WLOG (Diag_overflow_count n));;
      n ← get count_error; emit (WLOG (Diag_errors n));;
      report_unknown_opcodes;;
      report_unknown_sources;;
      emit (WLOG Diag_check_clock);;
      emit (WLOG Diag_stars);;
      mret check_reported
    else mret check_quiet.

(** A session seen from the [st_trace_t]: the decoder is fed bytes and the
    heuristic is called with the clock's value, in any order (the poll loop
    of [main] alternates one buffer and one call). *)
Inductive session_op : Set :=
| Feed (c : Z)
| Heuristic (now : Z).

Fixpoint run_session (ops : list session_op) : M (list check_outcome) :=
  match ops with
  | [] => mret []
  | Feed c :: rest => st ← UpdateTrace c; put (set_state st);; run_session rest
  | Heuristic now :: rest =>
      o ← CheckForConfigurationError now;
      os ← run_session rest;
      mret (o :: os)
  end.

(** ** The serial number given on the command line (lines 235-242) *)

(** A C string is the array of its characters followed by the terminator;
    [text] is what precedes the terminator in memory. *)
Fixpoint strlen (text : list Z) : Z :=
  match text with
  | c :: rest => if c =? 0 then 0 else 1 + strlen rest
  | [] => 0
  end.

(** [text[i]]: the array ends with the terminator. *)
Definition text_at (text : list Z) (i : Z) : option Z :=
  if 0 <=? i then (text ++ [0]) !! Z.to_nat i else None.

(** [strtol(buffer, NULL, 16)] of the C library, for the three-byte buffer
    of line 238: white space, an optional sign, an optional [0x] before a
    digit, then the hexadecimal digits up to the first other character. *)
Definition isspace (c : Z) : bool := (c =? 32) || ((9 <=? c) && (c <=? 13)).

Definition hex_digit (c : Z) : option Z :=
  if (48 <=? c) && (c <=? 57) then Some (c - 48)
  else if (97 <=? c) && (c <=? 102) then Some (c - 87)
  else if (65 <=? c) && (c <=? 70) then Some (c - 55)
  else None.

Fixpoint strtol_digits (acc : Z) (s : list Z) : Z :=
  match s with
  | c :: rest =>
      match hex_digit c with
      | Some d => strtol_digits (acc * 16 + d) rest
      | None => acc
      end
  | [] => acc
  end.

Definition strtol_prefix (s : list Z) : list Z :=
  match s with
  | 48 :: x :: d :: rest =>
      if ((x =? 120) || (x =? 88)) && bool_decide (is_Some (hex_digit d))
      then d :: rest else s
  | _ => s
  end.

Fixpoint strtol_space (s : list Z) : list Z :=
  match s with
  | c :: rest => if isspace c then strtol_space rest else s
  | [] => []
  end.

Definition strtol16 (s : list Z) : Z :=
  match strtol_space s with
  | 45 :: rest => - strtol_digits 0 (strtol_prefix rest)
  | 43 :: rest => strtol_digits 0 (strtol_prefix rest)
  | rest => strtol_digits 0 (strtol_prefix rest)
  end.

(** [binary_out[i] = v]: defined inside the destination array only. *)
Definition store_binary (binary_out : list Z) (i v : Z) : option (list Z) :=
  if (0 <=? i) && (i <? Z.of_nat (length binary_out))
  then Some (<[Z.to_nat i := v]> binary_out) else None.

Section Serial.

(** Declared in stlink.h, which is not part of the sources at hand. *)
Variable STLINK_SERIAL_MAX_SIZE : Z.

(** The [for] loop of line 237, entered with the current [n] and
    [length]; it gives back the buffer and the final [length].  [n] is a
    [uint32_t], [length] a [size_t] that stays below the maximum. *)
Equations? convert_loop (text : list Z) (n len : Z) (binary_out : list Z)
  : option (list Z * Z) by wf (Z.to_nat (STLINK_SERIAL_MAX_SIZE - len)) lt :=
  convert_loop text n len binary_out
    with Z_lt_dec n (strlen text), Z_lt_dec len STLINK_SERIAL_MAX_SIZE := {
    | left _, left _ =>
        match text_at text n, text_at text (n + 1) with
        | Some c0, Some c1 =>
            match store_binary binary_out len (wrap8 (strtol16 [c0; c1; 0])) with
            | Some out' => convert_loop text (wrap32 (n + 2)) (len + 1) out'
            | None => None
            end
        | _, _ => None
        end
    | _, _ => Some (binary_out, len) }.
Proof. lia. Qed.

Definition ConvertSerialNumberTextToBinary (text binary_out : list Z)
  : option (list Z * Z) :=
  convert_loop text 0 0 binary_out.

End Serial.

(** ** Register and field definitions (lines 43-97) *)

Definition ITM_TER : Z := 0xE0000E00.
Definition ITM_TPR : Z := 0xE0000E40.
Definition ITM_TCR : Z := 0xE0000E80.
Definition ITM_TCC : Z := 0xE0000E90.
Definition ITM_LAR : Z := 0xE0000FB0.

Definition ITM_TER_PORTS_ALL : Z := 0xFFFFFFFF.
Definition ITM_TPR_PORTS_ALL : Z := 0x0F.
Definition ITM_TCR_TRACE_BUS_ID_1 : Z := Z.shiftl 0x01 16.
Definition ITM_TCR_TS_ENA : Z := Z.shiftl 1 1.
Definition ITM_TCR_ITM_ENA : Z := Z.shiftl 1 0.
Definition ITM_LAR_KEY : Z := 0xC5ACCE55.

Definition DWT_CTRL : Z := 0xE0001000.
Definition DWT_FUNCTION0 : Z := 0xE0001028.
Definition DWT_FUNCTION1 : Z := 0xE0001038.
Definition DWT_FUNCTION2 : Z := 0xE0001048.
Definition DWT_FUNCTION3 : Z := 0xE0001058.

Definition DWT_CTRL_NUM_COMP : Z := Z.shiftl 1 28.
Definition DWT_CTRL_CYC_TAP : Z := Z.shiftl 1 9.
Definition DWT_CTRL_POST_INIT : Z := Z.shiftl 1 5.
Definition DWT_CTRL_POST_PRESET : Z := Z.shiftl 1 1.
Definition DWT_CTRL_CYCCNT_ENA : Z := Z.shiftl 1 0.

Definition TPI_CSPSR : Z := 0xE0040004.
Definition TPI_ACPR : Z := 0xE0040010.
Definition TPI_SPPR : Z := 0xE00400F0.
Definition TPI_FFCR : Z := 0xE0040304.

Definition TPI_TPI_CSPSR_PORT_SIZE_1 : Z := Z.shiftl 0x01 0.
Definition TPI_SPPR_SWO_NRZ : Z := Z.shiftl 0x02 0.
Definition TPI_FFCR_TRIG_IN : Z := Z.shiftl 0x01 8.

Definition FP_CTRL : Z := 0xE0002000.
Definition DBGMCU_CR : Z := 0xE0042004.

Definition FP_CTRL_KEY : Z := Z.shiftl 1 1.
Definition DBGMCU_CR_DBG_SLEEP : Z := Z.shiftl 1 0.
Definition DBGMCU_CR_DBG_STOP : Z := Z.shiftl 1 1.
Definition DBGMCU_CR_DBG_STANDBY : Z := Z.shiftl 1 2.
Definition DBGMCU_CR_TRACE_IOEN : Z := Z.shiftl 1 5.
Definition DBGMCU_CR_TRACE_MODE_ASYNC : Z := Z.shiftl 0x00 6.

Definition APP_RESULT_SUCCESS : Z := 0.
Definition APP_RESULT_INVALID_PARAMS : Z := 1.
Definition APP_RESULT_STLINK_NOT_FOUND : Z := 2.
Definition APP_RESULT_STLINK_MISSING_DEVICE : Z := 3.
Definition APP_RESULT_STLINK_UNSUPPORTED_DEVICE : Z := 4.
Definition APP_RESULT_STLINK_UNSUPPORTED_LINK : Z := 5.
Definition APP_RESULT_STLINK_STATE_ERROR : Z := 6.

(** The constants that trace.c takes from stlink.h and the headers it
    includes; those headers are not part of the sources at hand, so the
    values are parameters of everything below.  [STLINK_TRACE_FREQUENCY]
    is taken to be a constant of type [int].  With them goes the one
    value of the program that the C standard leaves open:
    [prescaler_on_overflow] is the [int] that the compiled program has
    computed at line 305 when the arithmetic there leaves the range of
    [int], as a function of the clock given; nothing is assumed about
    it. *)
Record stlink_h : Set := {
  DCB_DHCSR : Z;
  DBGKEY : Z;
  C_DEBUGEN : Z;
  C_HALT : Z;
  DCB_DEMCR : Z;
  DEMCR_TRCENA : Z;
  STLINK_TRACE_FREQUENCY : Z;
  STLINK_SERIAL_MAX_SIZE : Z;
  STLINK_CHIPID_UNKNOWN : Z;
  STLINK_F_HAS_TRACE : Z;
  CHIP_F_HAS_SWO_TRACING : Z;
  prescaler_on_overflow : Z -> Z
}.

(** [st_settings_t] (lines 104-112); [serial_number] is [None] for the
    null pointer. *)
Record st_settings_t : Set := {
  show_help : bool;
  show_version : bool;
  logging_level : Z;
  core_frequency_mhz : Z;
  reset_board : bool;
  force : bool;
  serial_number : option (list Z)
}.

(** The fields of [stlink_t] that trace.c reads. *)
Record stlink_t : Set := {
  chip_id : Z;
  version_flags : Z;
  chip_flags : Z
}.

Inductive trace_read_result : Set :=
| trace_read_error (code : Z)            (* a negative return value *)
| trace_read_data (buffer : list Z).     (* the [length] bytes read *)

(** The probe driver and the operating system, as [main] sees them: each
    call takes the state of the outside world to its return value and a
    new state.  [g_abort_trace] is the flag the signal handlers set. *)
Record stlink_driver (W : Type) : Type := {
  do_open_usb : option (list Z) -> W -> option stlink_t * W;
  do_force_debug : W -> Z * W;
  do_reset : W -> Z * W;
  do_write_mem32 : Z -> Z -> W -> Z * W;
  do_read_mem32 : Z -> W -> (Z * Z) * W;     (* return code, word in [q_buf] *)
  do_trace_enable : W -> Z * W;
  do_trace_disable : W -> Z * W;
  do_trace_read : W -> trace_read_result * W;
  do_run : W -> Z * W;
  do_close : W -> unit * W;
  g_abort_trace : W -> bool;
  time_now : W -> Z
}.
Arguments do_open_usb {W}.
Arguments do_force_debug {W}.
Arguments do_reset {W}.
Arguments do_write_mem32 {W}.
Arguments do_read_mem32 {W}.
Arguments do_trace_enable {W}.
Arguments do_trace_disable {W}.
Arguments do_trace_read {W}.
Arguments do_run {W}.
Arguments do_close {W}.
Arguments g_abort_trace {W}.
Arguments time_now {W}.

(** How a run of the session driver ends in the model: with a value, with
    the loop bound of the model used up, or with an access that C leaves
    undefined. *)
Inductive result (A : Type) : Type :=
| Ret (a : A)
| Out_of_fuel
| Undefined_behaviour.
Arguments Ret {A}.
Arguments Out_of_fuel {A}.
Arguments Undefined_behaviour {A}.

Section Session.

Context {W : Type}.
Variable H : stlink_h.
Variable D : stlink_driver W.

(** The monad of the functions that talk to the probe: the state is the
    outside world, the writer is the same event list as in [M]. *)
Definition P (A : Type) : Type := W -> result A * W * list event.

Definition P_ret {A} (a : A) : P A := fun w => (Ret a, w, []).
Definition P_bind {A B} (f : A -> P B) (m : P A) : P B :=
  fun w =>
    match m w with
    | (Ret a, w1, e1) => let '(r, w2, e2) := f a w1 in (r, w2, e1 ++ e2)
    | (Out_of_fuel, w1, e1) => (Out_of_fuel, w1, e1)
    | (Undefined_behaviour, w1, e1) => (Undefined_behaviour, w1, e1)
    end.

#[global] Instance P_mret : MRet P := @P_ret.
#[global] Instance P_mbind : MBind P := @P_bind.

Definition call {R} (c : probe_call) (f : W -> R * W) : P R :=
  fun w => let '(r, w1) := f w in (Ret r, w1, [Call c]).
Definition say (e : event) : P unit := fun w => (Ret tt, w, [e]).
Definition ask {A} (f : W -> A) : P A := fun w => (Ret (f w), w, []).
Definition undefined {A} : P A := fun w => (Undefined_behaviour, w, []).
Definition out_of_fuel {A} : P A := fun w => (Out_of_fuel, w, []).

(** A function on the [st_trace_t] run from the session driver. *)
Definition lift {A} (m : M A) (t : st_trace_t) : P (A * st_trace_t) :=
  fun w =>
    match m t with
    | Some (a, t1, evs) => (Ret (a, t1), w, evs)
    | None => (Undefined_behaviour, w, [])
    end.

(** Lines 244-254. *)
Definition StLinkConnect (settings : st_settings_t) : P (option stlink_t) :=
  match serial_number settings with
  | Some text =>
      let zeroes := replicate (Z.to_nat (STLINK_SERIAL_MAX_SIZE H)) 0 in
      match ConvertSerialNumberTextToBinary (STLINK_SERIAL_MAX_SIZE H) text zeroes with
      | Some (binary_serial_number, _) =>
          call stlink_open_usb (do_open_usb D (Some binary_serial_number))
      | None => undefined
      end
  | None => call stlink_open_usb (do_open_usb D None)
  end.

(** Lines 256-268; both take [uint32_t] arguments. *)
Definition Write32 (address data : Z) : P unit :=
  rc ← call (stlink_write_mem32 (wrap32 address) (wrap32 data))
            (do_write_mem32 D (wrap32 address) (wrap32 data));
  if negb (rc =? 0) then say (ELOG (Unable_to_set (wrap32 address) (wrap32 data)))
  else mret tt.

Definition call_read_mem32 (address : Z) : P (Z * Z) :=
  fun w => let '(r, w1) := do_read_mem32 D address w in
           (Ret r, w1, [Call (stlink_read_mem32 address (wrap32 r.2))]).

Definition Read32 (address : Z) : P Z :=
  r ← call_read_mem32 (wrap32 address);
  (if negb (r.1 =? 0) then say (ELOG (Unable_to_read (wrap32 address))) else mret tt);;
  mret (wrap32 r.2).

(** The pattern [if (failed) { ELOG(...); if (!settings->force) return v; }]
    followed by the rest [k] of the function. *)
Definition unless_forced {A} (failed : bool) (m : message) (settings : st_settings_t)
    (v : A) (k : P A) : P A :=
  if failed then
    say (ELOG m);;
    if negb (force settings) then mret v else k
  else k.

(** Line 305 computes the product, the quotient and the difference in
    [int]: the expression has a value when each of them is in the range of
    [int] and the divisor is not 0. *)
Definition prescaler_defined (core_frequency_mhz : Z) : bool :=
  int_range (core_frequency_mhz * 1000000)
  && negb (STLINK_TRACE_FREQUENCY H =? 0)
  && int_range (Z.quot (core_frequency_mhz * 1000000) (STLINK_TRACE_FREQUENCY H))
  && int_range (Z.quot (core_frequency_mhz * 1000000) (STLINK_TRACE_FREQUENCY H) - 1).

(** The word that line 305 stores in [prescaler]: the value of the [int]
    expression converted to [uint32_t]; where the expression has no value,
    what the compiled program has computed, converted likewise. *)
Definition prescaler_for (core_frequency_mhz : Z) : Z :=
  if prescaler_defined core_frequency_mhz
  then wrap32 (Z.quot (core_frequency_mhz * 1000000) (STLINK_TRACE_FREQUENCY H) - 1)
  else wrap32 (prescaler_on_overflow H core_frequency_mhz).

(** Lines 310-311, in [uint32_t]. *)
Definition system_clock_speed_mhz (prescaler : Z) : Z :=
  let system_clock_speed :=
    wrap32 (wrap32 (prescaler + 1) * wrap32 (STLINK_TRACE_FREQUENCY H)) in
  wrap32 (system_clock_speed + 500000) / 1000000.

(** Lines 270-332. *)
Definition EnableTrace (settings : st_settings_t) : P bool :=
  rc ← call stlink_force_debug (do_force_debug D);
  unless_forced (negb (rc =? 0)) Unable_to_debug_device settings false (
  rc ← (if reset_board settings then call stlink_reset (do_reset D) else mret 0);
  unless_forced (negb (rc =? 0)) Unable_to_reset_device settings false (
  Write32 (DCB_DHCSR H) (Z.lor (Z.lor (DBGKEY H) (C_DEBUGEN H)) (C_HALT H));;
  Write32 (DCB_DEMCR H) (DEMCR_TRCENA H);;
  Write32 FP_CTRL FP_CTRL_KEY;;
  Write32 DWT_FUNCTION0 0;;
  Write32 DWT_FUNCTION1 0;;
  Write32 DWT_FUNCTION2 0;;
  Write32 DWT_FUNCTION3 0;;
  Write32 DWT_CTRL 0;;
  Write32 DBGMCU_CR
    (Z.lor (Z.lor (Z.lor (Z.lor DBGMCU_CR_DBG_SLEEP DBGMCU_CR_DBG_STOP)
                         DBGMCU_CR_DBG_STANDBY) DBGMCU_CR_TRACE_IOEN)
           DBGMCU_CR_TRACE_MODE_ASYNC);;
  rc ← call stlink_trace_enable (do_trace_enable D);
  unless_forced (negb (rc =? 0)) Unable_to_turn_on_tracing settings false (
  Write32 TPI_CSPSR TPI_TPI_CSPSR_PORT_SIZE_1;;
  (if negb (core_frequency_mhz settings =? 0)
   then Write32 TPI_ACPR (prescaler_for (core_frequency_mhz settings))
   else mret tt);;
  prescaler ← Read32 TPI_ACPR;
  (if negb (prescaler =? 0)
   then say (ILOG (TPI_configured_for (system_clock_speed_mhz prescaler)))
   else say (WLOG TPI_not_configured));;
  Write32 TPI_FFCR TPI_FFCR_TRIG_IN;;
  Write32 TPI_SPPR TPI_SPPR_SWO_NRZ;;
  Write32 ITM_LAR ITM_LAR_KEY;;
  Write32 ITM_TCC 0x00000400;;
  Write32 ITM_TCR (Z.lor (Z.lor ITM_TCR_TRACE_BUS_ID_1 ITM_TCR_TS_ENA) ITM_TCR_ITM_ENA);;
  Write32 ITM_TER ITM_TER_PORTS_ALL;;
  Write32 ITM_TPR ITM_TPR_PORTS_ALL;;
  Write32 DWT_CTRL
    (Z.lor (Z.lor (Z.lor (Z.lor (4 * DWT_CTRL_NUM_COMP) DWT_CTRL_CYC_TAP)
                         (0xF * DWT_CTRL_POST_INIT)) (0xF * DWT_CTRL_POST_PRESET))
           DWT_CTRL_CYCCNT_ENA);;
  Write32 (DCB_DEMCR H) (DEMCR_TRCENA H);;
  mret true))).

(** Lines 406-425.  The buffer is an array of [uint8_t]. *)
Definition ReadTrace (trace : st_trace_t) : P (bool * st_trace_t) :=
  r ← call stlink_trace_read (do_trace_read D);
  match r with
  | trace_read_error code =>
      say (ELOG (Error_reading_trace code));; mret (false, trace)
  | trace_read_data [] =>
      say (Usleep 1000);; mret (true, trace)
  | trace_read_data buffer =>
      r ← lift (feed (map wrap8 buffer)) trace;
      mret (true, r.2)
  end.

(** The loop of lines 532-534; [fuel] bounds the number of iterations the
    model follows. *)
Fixpoint poll_loop (fuel : nat) (trace : st_trace_t) : P st_trace_t :=
  match fuel with
  | O => out_of_fuel
  | S fuel' =>
      stop ← ask (g_abort_trace D);
      if (stop : bool) then mret trace
      else
        r ← ReadTrace trace;
        if (r.1 : bool) then
          now ← ask (time_now D);
          c ← lift (CheckForConfigurationError now) r.2;
          poll_loop fuel' c.2
        else mret r.2
  end.

(** Lines 457-540, from the result of [parse_options] on ([None] when it
    returned false).  The assignment to [stlink->verbose] and the lookup of
    the chip description for the log line of line 512 are left out. *)
Definition main (parsed : option st_settings_t) (fuel : nat) : P Z :=
  match parsed with
  | None => say Usage;; mret APP_RESULT_INVALID_PARAMS
  | Some settings =>
    say (DLOG Settings_dump);;
    if show_help settings then say Usage;; mret APP_RESULT_SUCCESS
    else if show_version settings then say Print_version;; mret APP_RESULT_SUCCESS
    else
      connected ← StLinkConnect settings;
      match connected with
      | None =>
          say (ELOG Unable_to_locate_stlink);; mret APP_RESULT_STLINK_NOT_FOUND
      | Some stlink =>
        unless_forced (chip_id stlink =? STLINK_CHIPID_UNKNOWN H)
          Not_connected_to_device settings APP_RESULT_STLINK_MISSING_DEVICE (
        unless_forced (Z.land (version_flags stlink) (STLINK_F_HAS_TRACE H) =? 0)
          Stlink_does_not_support_tracing settings APP_RESULT_STLINK_UNSUPPORTED_LINK (
        unless_forced (Z.land (chip_flags stlink) (CHIP_F_HAS_SWO_TRACING H) =? 0)
          No_SWO_support_for_device settings APP_RESULT_STLINK_UNSUPPORTED_DEVICE (
        enabled ← EnableTrace settings;
        unless_forced (negb enabled)
          Unable_to_enable_trace_mode settings APP_RESULT_STLINK_STATE_ERROR (
        rc ← call stlink_run (do_run D);
        unless_forced (negb (rc =? 0))
          Unable_to_run_device settings APP_RESULT_STLINK_STATE_ERROR (
        say (ILOG Reading_trace);;
        now ← ask (time_now D);
        poll_loop fuel (trace_init now);;
        call stlink_trace_disable (do_trace_disable D);;
        call stlink_close (do_close D);;
        mret APP_RESULT_SUCCESS)))))
      end
  end.

End Session.

(** The probe calls among the events, in order. *)
Definition calls_of (evs : list event) : list probe_call :=
  flat_map (fun e => match e with Call p => [p] | _ => [] end) evs.

(** ** Predicates used in the statements *)

(** A [st_trace_t] as C has it: the array of [unknown_opcodes] has its 32
    bytes and every unsigned field is within its type. *)
Definition trace_ok (t : st_trace_t) : Prop :=
  length (unknown_opcodes t) = 32%nat /\
  Forall is_uint8 (unknown_opcodes t) /\
  is_uint32 (count_raw_bytes t) /\
  is_uint32 (count_target_data t) /\
  is_uint32 (count_time_packets t) /\
  is_uint32 (count_overflow t) /\
  is_uint32 (count_error t) /\
  is_uint32 (unknown_sources t).

(** [trace->unknown_opcodes[i]] when [i] is inside the array. *)
Definition opcode_byte (t : st_trace_t) (i : Z) : Z :=
  default 0 (unknown_opcodes t !! Z.to_nat i).

(** Membership in the two sets of line 138-139, as the code tests it:
    [unknown_opcodes[c / 8] & (1 << c % 8)] and
    [unknown_sources & (1 << addr)]. *)
Definition seen_opcode (t : st_trace_t) (c : Z) : bool :=
  Z.testbit (opcode_byte t (c / 8)) (c mod 8).
Definition seen_source (t : st_trace_t) (addr : Z) : bool :=
  Z.testbit (unknown_sources t) addr.

Definition is_unknown_opcode_warning (c : Z) (e : event) : bool :=
  match e with
  | Log UWARN (Unknown_opcode c') => c' =? c
  | _ => false
  end.
Definition is_unsupported_source_warning (addr : Z) (e : event) : bool :=
  match e with
  | Log UWARN (Unsupported_source addr' _) => addr' =? addr
  | _ => false
  end.

Fixpoint count_events (p : event -> bool) (evs : list event) : nat :=
  match evs with
  | [] => 0
  | e :: rest => ((if p e then 1 else 0) + count_events p rest)%nat
  end.

(** The two warnings of the decoder (lines 343 and 362). *)
Definition decoder_warning (e : event) : bool :=
  match e with
  | Log UWARN (Unknown_opcode _) => true
  | Log UWARN (Unsupported_source _ _) => true
  | _ => false
  end.

(** The bytes of a session are bytes. *)
Definition session_op_ok (op : session_op) : Prop :=
  match op with
  | Feed c => is_uint8 c
  | Heuristic _ => True
  end.

(** A call of the heuristic made while the clock shows less than 10
    seconds since [start], and not less than [start]. *)
Definition early_call (start : Z) (op : session_op) : Prop :=
  match op with
  | Feed _ => True
  | Heuristic now => 0 <= now - start < 10
  end.

Definition count_ran (os : list check_outcome) : nat :=
  length (List.filter ran_checks os).

(** The bytes that reach line 361 in the Idle state: no earlier [return]
    of [UpdateTraceIdle] is taken. *)
Definition reaches_unknown_opcode (c : Z) : bool :=
  negb (TRACE_OP_IS_TARGET_SOURCE c) && negb (TRACE_OP_IS_SOURCE c)
  && negb (TRACE_OP_IS_LOCAL_TIME c || TRACE_OP_IS_GLOBAL_TIME c)
  && negb (TRACE_OP_IS_EXTENSION c).

(** What a run of [EnableTrace] does with the prescaler register, in
    order: the words written to it, the words read from it, and the two
    messages about the clock (lines 312 and 314). *)
Inductive acpr_item : Set :=
| Wrote (data : Z)
| Read_back (word : Z)
| Reported (mhz : Z)
| Warned_unconfigured.

Definition acpr_view (evs : list event) : list acpr_item :=
  flat_map (fun e =>
    match e with
    | Call (stlink_write_mem32 a d) => if a =? TPI_ACPR then [Wrote d] else []
    | Call (stlink_read_mem32 a word) => if a =? TPI_ACPR then [Read_back word] else []
    | Log UINFO (TPI_configured_for mhz) => [Reported mhz]
    | Log UWARN TPI_not_configured => [Warned_unconfigured]
    | _ => []
    end) evs.

(** An event that [acpr_view] does not show. *)
Definition acpr_quiet (e : event) : Prop := acpr_view [e] = [].

(** What [acpr_view] shows of the runs of [m] that return [true]. *)
Definition acpr_post {W} (S : list acpr_item -> Prop) (m : @P W bool) : Prop :=
  forall w w' e, m w = (Ret true, w', e) -> S (acpr_view e).

Definition is_teardown (c : probe_call) : bool :=
  match c with
  | stlink_trace_disable | stlink_close => true
  | _ => false
  end.

(** An event other than a call of [stlink_trace_disable] or
    [stlink_close]. *)
Definition not_teardown (e : event) : Prop :=
  match e with
  | Call c => is_teardown c = false
  | _ => True
  end.

(** Every event of a computation of the session driver satisfies [Q]. *)
Definition emits {W A} (Q : event -> Prop) (m : @P W A) : Prop :=
  forall w r w' e, m w = (r, w', e) -> Forall Q e.

(** When the computation returns an exit code other than success, every
    event of the run satisfies [Q]. *)
Definition aborts_with {W} (Q : event -> Prop) (m : @P W Z) : Prop :=
  forall w code w' e,
    m w = (Ret code, w', e) -> code <> APP_RESULT_SUCCESS -> Forall Q e.

(** The only exit code the computation returns is success. *)
Definition only_success {W} (m : @P W Z) : Prop :=
  forall w code w' e, m w = (Ret code, w', e) -> code = APP_RESULT_SUCCESS.

(** The computation returns in every world, with a value that satisfies
    [S]: it neither uses up a loop bound nor meets undefined behaviour. *)
Definition always_ret {W A} (S : A -> Prop) (m : @P W A) : Prop :=
  forall w, exists a w' e, m w = (Ret a, w', e) /\ S a.

(** ** A scripted probe, for the concrete runs *)

(** Values for the constants of the headers.  The trace frequency is the
    2000000 that the hint of lines 316 and 452 divides by; the register
    addresses are those of the ARMv7-M debug block; the flag values only
    have to be single bits.  Where line 305 overflows, the sample takes a
    compiler that has reduced the product and the quotient to a division
    by 2. *)
Definition sample_stlink_h : stlink_h := {|
  DCB_DHCSR := 0xE000EDF0;
  DBGKEY := 0xA05F0000;
  C_DEBUGEN := 0x01;
  C_HALT := 0x02;
  DCB_DEMCR := 0xE000EDFC;
  DEMCR_TRCENA := Z.shiftl 1 24;
  STLINK_TRACE_FREQUENCY := 2000000;
  STLINK_SERIAL_MAX_SIZE := 64;
  STLINK_CHIPID_UNKNOWN := 0;
  STLINK_F_HAS_TRACE := Z.shiftl 1 0;
  CHIP_F_HAS_SWO_TRACING := Z.shiftl 1 2;
  prescaler_on_overflow := fun core => core / 2 - 1
|}.

(** A world in which every call behaves as scripted: the handle that
    [stlink_open_usb] returns, the return codes of the calls, the word a
    read of target memory finds, the buffers that [stlink_trace_read]
    delivers one after the other, and a clock that shows [clock] seconds.
    The termination signal arrives when the buffers are used up. *)
Record script : Set := {
  probe : option stlink_t;
  rc_force_debug : Z;
  rc_reset : Z;
  rc_write : Z;
  rc_read : Z;
  word_read : Z;
  rc_trace_enable : Z;
  rc_run : Z;
  reads : list trace_read_result;
  clock : Z
}.

Definition next_read (w : script) : trace_read_result * script :=
  match reads w with
  | [] => (trace_read_data [], w)
  | r :: rest =>
      (r, {| probe := probe w; rc_force_debug := rc_force_debug w;
             rc_reset := rc_reset w; rc_write := rc_write w;
             rc_read := rc_read w; word_read := word_read w;
             rc_trace_enable := rc_trace_enable w; rc_run := rc_run w;
             reads := rest; clock := clock w + 1 |})
  end.

Definition scripted : stlink_driver script := {|
  do_open_usb := fun _ w => (probe w, w);
  do_force_debug := fun w => (rc_force_debug w, w);
  do_reset := fun w => (rc_reset w, w);
  do_write_mem32 := fun _ _ w => (rc_write w, w);
  do_read_mem32 := fun _ w => ((rc_read w, word_read w), w);
  do_trace_enable := fun w => (rc_trace_enable w, w);
  do_trace_disable := fun w => (0, w);
  do_trace_read := next_read;
  do_run := fun w => (rc_run w, w);
  do_close := fun w => (tt, w);
  g_abort_trace := fun w => match reads w with [] => true | _ => false end;
  time_now := clock
|}.

Definition default_settings : st_settings_t := {|
  show_help := false;
  show_version := false;
  logging_level := 50;
  core_frequency_mhz := 0;
  reset_board := true;
  force := false;
  serial_number := None
|}.

Definition with_clock (mhz : Z) (s : st_settings_t) : st_settings_t := {|
  show_help := show_help s;
  show_version := show_version s;
  logging_level := logging_level s;
  core_frequency_mhz := mhz;
  reset_board := reset_board s;
  force := force s;
  serial_number := serial_number s
|}.

(** A probe with a target that supports everything. *)
Definition good_probe : stlink_t :=
  {| chip_id := 0x413; version_flags := 1; chip_flags := 4 |}.

Definition quiet_world (p : option stlink_t) (acpr : Z)
    (rs : list trace_read_result) : script := {|
  probe := p;
  rc_force_debug := 0;
  rc_reset := 0;
  rc_write := 0;
  rc_read := 0;
  word_read := acpr;
  rc_trace_enable := 0;
  rc_run := 0;
  reads := rs;
  clock := 1000
|}.

(** The exit code of a run of [main] against the scripted probe, with the
    calls it made other than the accesses to target memory. *)
Definition is_memory_access (c : probe_call) : bool :=
  match c with
  | stlink_write_mem32 _ _ | stlink_read_mem32 _ _ => true
  | _ => false
  end.

Definition session_calls (evs : list event) : list probe_call :=
  List.filter (fun c => negb (is_memory_access c)) (calls_of evs).

Definition run_main (settings : st_settings_t) (w : script) : result Z * list probe_call :=
  let r := main sample_stlink_h scripted (Some settings) 10 w in
  (fst (fst r), session_calls (snd r)).

Definition with_probe (p : stlink_t) (w : script) : script := {|
  probe := Some p;
  rc_force_debug := rc_force_debug w;
  rc_reset := rc_reset w;
  rc_write := rc_write w;
  rc_read := rc_read w;
  word_read := word_read w;
  rc_trace_enable := rc_trace_enable w;
  rc_run := rc_run w;
  reads := reads w;
  clock := clock w
|}.

Definition failing_trace_enable (w : script) : script := {|
  probe := probe w;
  rc_force_debug := rc_force_debug w;
  rc_reset := rc_reset w;
  rc_write := rc_write w;
  rc_read := rc_read w;
  word_read := word_read w;
  rc_trace_enable := -1;
  rc_run := rc_run w;
  reads := reads w;
  clock := clock w
|}.

Definition failing_run (w : script) : script := {|
  probe := probe w;
  rc_force_debug := rc_force_debug w;
  rc_reset := rc_reset w;
  rc_write := rc_write w;
  rc_read := rc_read w;
  word_read := word_read w;
  rc_trace_enable := rc_trace_enable w;
  rc_run := -1;
  reads := reads w;
  clock := clock w
|}.

(** A world with a good probe, a prescaler of 35 in the target and one
    buffer of trace data before the termination signal. *)
Definition sample_world : script :=
  quiet_world (Some good_probe) 35 [trace_read_data [0x01; 72; 0x01; 10]].

(** The two runs that the instances of the session driver's theorems use:
    [main] with a failing [stlink_run], and [EnableTrace] with a clock of
    72 MHz. *)
Definition abort_run : result Z * script * list event :=
  main sample_stlink_h scripted (Some default_settings) 10 (failing_run sample_world).

Definition enable_run : result bool * script * list event :=
  EnableTrace sample_stlink_h scripted (with_clock 72 default_settings) sample_world.

Definition events_of {A} (r : result A * script * list event) : list event := snd r.
Definition world_of {A} (r : result A * script * list event) : script := snd (fst r).

(** ** Further predicates and projections *)

(** The payload length that a source header announces (lines 346-348). *)
Definition payload_length (c : Z) : nat :=
  if wrap8 (TRACE_OP_GET_SOURCE_SIZE c) =? 1 then 1
  else if wrap8 (TRACE_OP_GET_SOURCE_SIZE c) =? 2 then 2
  else 4.

(** The continuation bit of a byte (line 36). *)
Definition continues (c : Z) : bool := negb (TRACE_OP_GET_CONTINUATION c =? 0).

(** The operations on stdout among the events, in order. *)
Definition stdout_ops (evs : list event) : list event :=
  flat_map (fun e => match e with
                     | Putchar _ | Fflush => [e]
                     | _ => []
                     end) evs.

(** Writing bytes with a flush after each line terminator (lines 379-381). *)
Definition line_flushed (bytes : list Z) : list event :=
  flat_map (fun c => if c =? 10 then [Putchar c; Fflush] else [Putchar c]) bytes.

(** The number of bytes fed in a session. *)
Definition bytes_fed (ops : list session_op) : nat :=
  length (List.filter (fun op => match op with Feed _ => true | _ => false end) ops).

(** The messages logged at warning level, in order. *)
Definition warnings_of (evs : list event) : list message :=
  flat_map (fun e => match e with Log UWARN m => [m] | _ => [] end) evs.

(** The values whose bit is set in the two sets, in ascending order. *)
Definition opcodes_seen (t : st_trace_t) : list Z :=
  List.filter (seen_opcode t) (seqZ 0 256).
Definition sources_seen (t : st_trace_t) : list Z :=
  List.filter (seen_source t) (seqZ 0 32).

(** A packet whose length the continuation bits give: every byte but the
    last has the bit set. *)
Definition continued_frame (bytes : list Z) : Prop :=
  exists init last,
    bytes = init ++ [last] /\
    Forall (fun c => continues c = true) init /\ continues last = false.

(** The state the decoder is in while it skips the payload of a source
    packet with [n] bytes left. *)
Definition skip_state (n : nat) : trace_state :=
  match n with
  | 0%nat => TRACE_STATE_IDLE
  | 1%nat => TRACE_STATE_SKIP_1
  | 2%nat => TRACE_STATE_SKIP_2
  | 3%nat => TRACE_STATE_SKIP_3
  | _ => TRACE_STATE_SKIP_4
  end.

(** The fields of the record that only the Idle and TargetSource handlers
    write. *)
Definition same_counts (t t' : st_trace_t) : Prop :=
  count_target_data t' = count_target_data t /\
  count_time_packets t' = count_time_packets t /\
  count_overflow t' = count_overflow t /\
  count_error t' = count_error t /\
  unknown_opcodes t' = unknown_opcodes t.

(** The lines of the report of lines 437-453 for a record. *)
Definition report_of (t : st_trace_t) : list message :=
  [Diag_stars; Diag_not_retrieving;
   Diag_raw_bytes (count_raw_bytes t);
   Diag_target_data (count_target_data t);
   Diag_time_packets (count_time_packets t);
   Diag_overflow_count (count_overflow t);
   Diag_errors (count_error t)]
  ++ map Diag_unknown_opcode (opcodes_seen t)
  ++ map Diag_unknown_source (sources_seen t)
  ++ [Diag_check_clock; Diag_stars].

(** What the decoder sends out: bytes to stdout, flushes, and its two
    warnings. *)
Definition decoder_event (e : event) : bool :=
  match e with
  | Putchar _ | Fflush => true
  | _ => decoder_warning e
  end.

Definition decoder_events (evs : list event) : list event :=
  List.filter decoder_event evs.

(** The bytes of a session, without the calls of the heuristic. *)
Definition session_bytes (ops : list session_op) : list Z :=
  flat_map (fun op => match op with Feed c => [c] | Heuristic _ => [] end) ops.

(** Two records that agree on everything but the flag of the heuristic. *)
Definition same_decoder (t t' : st_trace_t) : Prop :=
  set_configuration_checked false t = set_configuration_checked false t'.

(** A short session: a target packet with a line terminator, a timestamp,
    an unknown opcode and two calls of the heuristic. *)
Definition sample_session : list session_op :=
  [Feed 0x01; Feed 65; Heuristic 1003; Feed 0x01; Feed 10; Feed 0xC0; Feed 0x05;
   Feed 0x04; Heuristic 1012; Feed 0x01; Feed 66].

(** The events that come from the functions on the [st_trace_t]: output
    on stdout and warnings. *)
Definition trace_event (e : event) : bool :=
  match e with
  | Putchar _ | Fflush | Log UWARN _ => true
  | _ => false
  end.

Definition trace_events (evs : list event) : list event :=
  List.filter trace_event evs.

(** An event of the poll loop: the only call it makes is
    [stlink_trace_read]. *)
Definition poll_event (e : event) : Prop :=
  match e with
  | Call c => c = stlink_trace_read
  | _ => True
  end.

(** ** Predicates on the runs of the session driver *)


(** No run of the computation meets undefined behaviour. *)
Definition safe {W A} (m : @P W A) : Prop :=
  forall w r w' e, m w = (r, w', e) -> r <> Undefined_behaviour.

(** The runs that return success emit a list of events that satisfies
    [S]. *)
Definition succeeds_with {W} (S : list event -> Prop) (m : @P W Z) : Prop :=
  forall w w' e, m w = (Ret APP_RESULT_SUCCESS, w', e) -> S e.

(** The exit codes that the computation can return. *)
Definition exits_within {W} (codes : list Z) (m : @P W Z) : Prop :=
  forall w code w' e, m w = (Ret code, w', e) -> code ∈ codes.



(** The run ends with the two calls of lines 536 and 537, and these are
    the only calls of the two functions. *)
Definition ends_with_teardown (evs : list event) : Prop :=
  exists evs0,
    evs = evs0 ++ [Call stlink_trace_disable; Call stlink_close] /\
    Forall not_teardown evs0.

(** A run of [main] that reads one buffer and ends with the termination
    signal, and the same run with [force] set and a probe that fails to
    start the target. *)
Definition success_run : result Z * script * list event :=
  main sample_stlink_h scripted (Some default_settings) 10 sample_world.

Definition with_force (s : st_settings_t) : st_settings_t := {|
  show_help := show_help s;
  show_version := show_version s;
  logging_level := logging_level s;
  core_frequency_mhz := core_frequency_mhz s;
  reset_board := reset_board s;
  force := true;
  serial_number := serial_number s
|}.

Definition forced_run : result Z * script * list event :=
  main sample_stlink_h scripted (Some (with_force default_settings)) 10
    (failing_run sample_world).

(** The three errors after which [EnableTrace] gives up (lines 273, 279
    and 297). *)
Definition is_probe_failure (e : event) : bool :=
  match e with
  | Log UERROR Unable_to_debug_device
  | Log UERROR Unable_to_reset_device
  | Log UERROR Unable_to_turn_on_tracing => true
  | _ => false
  end.

(** The computation always returns, and it returns [false] exactly when
    [force] is unset and one of the three errors was logged. *)
Definition fails_as_logged {W} (settings : st_settings_t) (m : @P W bool) : Prop :=
  forall w, exists b w' evs,
    m w = (Ret b, w', evs) /\
    (b = false <-> force settings = false /\ existsb is_probe_failure evs = true).

(** An event other than a call of [stlink_reset]. *)
Definition no_reset (e : event) : Prop :=
  match e with
  | Call stlink_reset => False
  | _ => True
  end.

Definition without_reset (s : st_settings_t) : st_settings_t := {|
  show_help := show_help s;
  show_version := show_version s;
  logging_level := logging_level s;
  core_frequency_mhz := core_frequency_mhz s;
  reset_board := false;
  force := force s;
  serial_number := serial_number s
|}.

(** ** The command line (lines 159-233) *)

Definition DEFAULT_LOGGING_LEVEL : Z := 50.
Definition DEBUG_LOGGING_LEVEL : Z := 100.

(** One turn of the loop of line 184: the value that [getopt_long]
    returned and where it left [optarg] ([None] for a null pointer).  The
    list of the turns ends before the turn that returns -1. *)
Record getopt_result : Set := mk_getopt {
  opt_c : Z;
  optarg : option (list Z)
}.

(** What [parse_options] sends out: it sets the logger up, and it logs
    the options and the arguments it does not know. *)
Inductive option_event : Set :=
| Ugly_init (level : Z)
| Unknown_option (c : Z)
| Unknown_argument (arg : list Z).

Definition set_show_help (v : bool) (s : st_settings_t) : st_settings_t :=
  {| show_help := v; show_version := show_version s;
     logging_level := logging_level s; core_frequency_mhz := core_frequency_mhz s;
     reset_board := reset_board s; force := force s;
     serial_number := serial_number s |}.
Definition set_show_version (v : bool) (s : st_settings_t) : st_settings_t :=
  {| show_help := show_help s; show_version := v;
     logging_level := logging_level s; core_frequency_mhz := core_frequency_mhz s;
     reset_board := reset_board s; force := force s;
     serial_number := serial_number s |}.
Definition set_logging_level (v : Z) (s : st_settings_t) : st_settings_t :=
  {| show_help := show_help s; show_version := show_version s;
     logging_level := v; core_frequency_mhz := core_frequency_mhz s;
     reset_board := reset_board s; force := force s;
     serial_number := serial_number s |}.
Definition set_core_frequency_mhz (v : Z) (s : st_settings_t) : st_settings_t :=
  {| show_help := show_help s; show_version := show_version s;
     logging_level := logging_level s; core_frequency_mhz := v;
     reset_board := reset_board s; force := force s;
     serial_number := serial_number s |}.
Definition set_reset_board (v : bool) (s : st_settings_t) : st_settings_t :=
  {| show_help := show_help s; show_version := show_version s;
     logging_level := logging_level s; core_frequency_mhz := core_frequency_mhz s;
     reset_board := v; force := force s;
     serial_number := serial_number s |}.
Definition set_force (v : bool) (s : st_settings_t) : st_settings_t :=
  {| show_help := show_help s; show_version := show_version s;
     logging_level := logging_level s; core_frequency_mhz := core_frequency_mhz s;
     reset_board := reset_board s; force := v;
     serial_number := serial_number s |}.
Definition set_serial_number (v : option (list Z)) (s : st_settings_t) : st_settings_t :=
  {| show_help := show_help s; show_version := show_version s;
     logging_level := logging_level s; core_frequency_mhz := core_frequency_mhz s;
     reset_board := reset_board s; force := force s;
     serial_number := v |}.

(** Lines 175-181. *)
Definition initial_settings : st_settings_t := {|
  show_help := false;
  show_version := false;
  logging_level := DEFAULT_LOGGING_LEVEL;
  core_frequency_mhz := 0;
  reset_board := true;
  force := false;
  serial_number := None
|}.

Section Options.

(** [atoi] of the C library. *)
Variable atoi : list Z -> Z.

(** The level that [-v] sets (lines 193-197). *)
Definition verbose_level (o : getopt_result) : Z :=
  match optarg o with
  | Some text => atoi text
  | None => DEBUG_LOGGING_LEVEL
  end.

(** The [switch] of lines 185-219, on the settings and the local [error].
    [atoi] of a null pointer is not defined. *)
Definition option_step (o : getopt_result) (settings : st_settings_t) (error : bool)
  : option (st_settings_t * bool * list option_event) :=
  let c := opt_c o in
  if c =? 104 then Some (set_show_help true settings, error, [])
  else if c =? 86 then Some (set_show_version true settings, error, [])
  else if c =? 118 then
    Some (set_logging_level (verbose_level o) settings, error,
          [Ugly_init (verbose_level o)])
  else if c =? 99 then
    match optarg o with
    | Some text => Some (set_core_frequency_mhz (atoi text) settings, error, [])
    | None => None
    end
  else if c =? 110 then Some (set_reset_board false settings, error, [])
  else if c =? 102 then Some (set_force true settings, error, [])
  else if c =? 115 then Some (set_serial_number (optarg o) settings, error, [])
  else if c =? 63 then Some (settings, true, [])
  else Some (settings, true, [Unknown_option c]).

(** The loop of lines 184-220. *)
Fixpoint options_loop (opts : list getopt_result) (settings : st_settings_t) (error : bool)
  : option (st_settings_t * bool * list option_event) :=
  match opts with
  | [] => Some (settings, error, [])
  | o :: rest =>
      match option_step o settings error with
      | Some (settings1, error1, evs1) =>
          match options_loop rest settings1 error1 with
          | Some (settings2, error2, evs2) => Some (settings2, error2, evs1 ++ evs2)
          | None => None
          end
      | None => None
      end
  end.

(** Lines 159-233, from the turns of the [getopt_long] loop and the
    arguments left at [argv[optind]] and after.  The result is the value
    returned, the settings written through the pointer and the events. *)
Definition parse_options (opts : list getopt_result) (args : list (list Z))
  : option (bool * st_settings_t * list option_event) :=
  match options_loop opts initial_settings false with
  | Some (settings, error, evs) =>
      let error := match args with [] => error | _ => true end in
      Some (negb (error && negb (force settings)), settings,
            Ugly_init DEFAULT_LOGGING_LEVEL :: evs ++ map Unknown_argument args)
  | None => None
  end.

End Options.

(** What the whole program sends out: the events of [parse_options], then
    those of the rest of [main]. *)
Inductive program_event : Set :=
| Parsing (e : option_event)
| Running (e : event).

(** The whole program after the signal handlers are installed: lines
    467-470 hand the settings to the rest of [main] only when
    [parse_options] returned [true]; what [parse_options] has logged comes
    before everything the rest of [main] does. *)
Definition st_trace {W} (H : stlink_h) (D : stlink_driver W) (atoi : list Z -> Z)
    (opts : list getopt_result) (args : list (list Z)) (fuel : nat)
  : W -> result Z * W * list program_event :=
  fun w =>
    match parse_options atoi opts args with
    | Some (ok, settings, parse_events) =>
        let '(r, w', evs) := main H D (if ok then Some settings else None) fuel w in
        (r, w', map Parsing parse_events ++ map Running evs)
    | None => (Undefined_behaviour, w, [])
    end.

(** What one turn of the loop of line 184 sends out: [-v] sets the logger
    up again, and a value without a [case] of its own is logged. *)
Definition option_events (atoi : list Z -> Z) (o : getopt_result) : list option_event :=
  if opt_c o =? 118 then [Ugly_init (verbose_level atoi o)]
  else if (opt_c o =? 104) || (opt_c o =? 86) || (opt_c o =? 99) || (opt_c o =? 110)
          || (opt_c o =? 102) || (opt_c o =? 115) || (opt_c o =? 63)
       then []
       else [Unknown_option (opt_c o)].

(** Everything [parse_options] sends out for a command line: the first
    set-up of the logger, the events of the turns of the loop, and one
    line for each argument left over. *)
Definition command_line_events (atoi : list Z -> Z) (opts : list getopt_result)
    (args : list (list Z)) : list option_event :=
  Ugly_init DEFAULT_LOGGING_LEVEL
  :: flat_map (option_events atoi) opts ++ map Unknown_argument args.

(** The options among the turns of the loop. *)
Definition has_option (c : Z) (opts : list getopt_result) : bool :=
  existsb (fun o => opt_c o =? c) opts.

Definition last_option (c : Z) (opts : list getopt_result) : option getopt_result :=
  last (List.filter (fun o => opt_c o =? c) opts).

(** The values that a [case] of the [switch] handles without setting
    [error]. *)
Definition known_option (c : Z) : bool :=
  (c =? 104) || (c =? 86) || (c =? 118) || (c =? 99) || (c =? 110) || (c =? 102)
  || (c =? 115).

(** What sets [error]: a turn of the loop that is no known option, or an
    argument left over. *)
Definition command_line_error (opts : list getopt_result) (args : list (list Z)) : bool :=
  existsb (fun o => negb (known_option (opt_c o))) opts
  || match args with [] => false | _ => true end.

(** [getopt_long] gives [-c] its argument. *)
Definition option_ok (o : getopt_result) : Prop :=
  opt_c o = 99 -> is_Some (optarg o).

(** The levels the logger was set up with, in order. *)
Definition levels_of (evs : list option_event) : list Z :=
  flat_map (fun e => match e with Ugly_init level => [level] | _ => [] end) evs.

(** A decimal reading of a text of digits, for the concrete runs. *)
Definition sample_atoi (text : list Z) : Z :=
  fold_left (fun acc c => acc * 10 + (c - 48)) text 0.

(** [-v -c72 -n -f -c 64 extra]: an argument is left over, and [-f]
    overrides the error. *)
Definition sample_options : list getopt_result :=
  [mk_getopt 118 None; mk_getopt 99 (Some [55; 50]); mk_getopt 110 None;
   mk_getopt 102 None; mk_getopt 99 (Some [54; 52])].

(** ** A serial number of hexadecimal digits *)

Definition is_hex_digit (c : Z) : Prop := is_Some (hex_digit c).

(** The value of two hexadecimal digits. *)
Definition pair_value (c0 c1 : Z) : Z :=
  16 * default 0 (hex_digit c0) + default 0 (hex_digit c1).

(** The bytes that a text of hexadecimal digits stands for, two digits
    per byte. *)
Fixpoint digit_pairs (text : list Z) : list Z :=
  match text with
  | c0 :: c1 :: rest => pair_value c0 c1 :: digit_pairs rest
  | _ => []
  end.

Definition with_serial (text : list Z) (s : st_settings_t) : st_settings_t := {|
  show_help := show_help s;
  show_version := show_version s;
  logging_level := logging_level s;
  core_frequency_mhz := core_frequency_mhz s;
  reset_board := reset_board s;
  force := force s;
  serial_number := Some text
|}.

(** ** The session that the read loop performs *)

(** The session of the loop of lines 532-534, read off what the probe
    delivers: while the termination flag is clear and
    [stlink_trace_read] gives no error, the bytes of the buffer read in
    order, then one call of the heuristic with the clock's value after the
    read; [fuel] bounds the number of reads as in [poll_loop]. *)
Fixpoint poll_ops {W} (D : stlink_driver W) (fuel : nat) (w : W) : list session_op :=
  match fuel with
  | O => []
  | S fuel' =>
      if g_abort_trace D w then []
      else
        match do_trace_read D w with
        | (trace_read_error _, _) => []
        | (trace_read_data buffer, w1) =>
            map Feed (map wrap8 buffer)
            ++ Heuristic (time_now D w1) :: poll_ops D fuel' w1
        end
  end.

(** The number of reads the loop makes. *)
Fixpoint poll_reads {W} (D : stlink_driver W) (fuel : nat) (w : W) : nat :=
  match fuel with
  | O => O
  | S fuel' =>
      if g_abort_trace D w then O
      else
        match do_trace_read D w with
        | (trace_read_error _, _) => 1
        | (trace_read_data _, w1) => S (poll_reads D fuel' w1)
        end
  end.

(** * Properties *)

(** ** Bytes by enumeration *)

Lemma uint8_cases (P : Z -> bool) :
  forallb P (seqZ 0 256) = true -> forall c, is_uint8 c -> P c = true.
Proof.
  intros Hall c Hc. rewrite forallb_forall in Hall. apply Hall.
  apply list_elem_of_In, elem_of_seqZ. unfold is_uint8 in Hc. lia.
Qed.

(** ** The session record stays well formed *)

Lemma is_uint32_wrap32 x : is_uint32 (wrap32 x).
Proof. unfold is_uint32, wrap32. apply Z.mod_pos_bound. lia. Qed.

Lemma is_uint8_wrap8 x : is_uint8 (wrap8 x).
Proof. unfold is_uint8, wrap8. apply (Z.mod_pos_bound x (2 ^ 8)). lia. Qed.

Lemma wrap32_uint32 x : is_uint32 x -> wrap32 x = x.
Proof. unfold is_uint32, wrap32. intros Hx. apply Z.mod_small. exact Hx. Qed.

Lemma trace_init_ok now : trace_ok (trace_init now).
Proof.
  unfold trace_ok, trace_init, is_uint32. cbn -[replicate Z.pow].
  split; [reflexivity|]. split; [|lia].
  apply Forall_replicate. unfold is_uint8. lia.
Qed.

Lemma load_opcodes_ok t i :
  length (unknown_opcodes t) = 32%nat -> 0 <= i < 32 ->
  load_opcodes i t = Some (opcode_byte t i, t, []).
Proof.
  intros Hok Hi. unfold load_opcodes, opcode_byte. rewrite Hok.
  replace ((0 <=? i) && (i <? Z.of_nat 32)) with true
    by (symmetry; apply andb_true_iff; split; [apply Z.leb_le | apply Z.ltb_lt]; lia).
  destruct (lookup_lt_is_Some_2 (unknown_opcodes t) (Z.to_nat i)) as [v Hv];
    [rewrite Hok; lia|].
  rewrite Hv. reflexivity.
Qed.

Lemma store_opcodes_ok t i v :
  length (unknown_opcodes t) = 32%nat -> 0 <= i < 32 ->
  store_opcodes i v t =
    Some (tt, set_unknown_opcodes (<[Z.to_nat i := wrap8 v]> (unknown_opcodes t)) t, []).
Proof.
  intros Hok Hi. unfold store_opcodes. rewrite Hok.
  replace ((0 <=? i) && (i <? Z.of_nat 32)) with true
    by (symmetry; apply andb_true_iff; split; [apply Z.leb_le | apply Z.ltb_lt]; lia).
  reflexivity.
Qed.

Lemma uint8_div8 c : is_uint8 c -> 0 <= c / 8 < 32.
Proof.
  unfold is_uint8. intros Hc. split; [apply Z.div_pos; lia|].
  apply Z.div_lt_upper_bound; lia.
Qed.

(** ** Bit sets *)

Lemma shiftl_one n : 0 <= n -> Z.shiftl 1 n = 2 ^ n.
Proof. intros Hn. rewrite Z.shiftl_mul_pow2 by lia. lia. Qed.

Lemma land_pow2 x n :
  0 <= n -> Z.land x (2 ^ n) = if Z.testbit x n then 2 ^ n else 0.
Proof.
  intros Hn. apply Z.bits_inj'. intros m Hm.
  rewrite Z.land_spec, Z.pow2_bits_eqb by lia.
  destruct (Z.eqb_spec n m) as [->|Hne].
  - destruct (Z.testbit x m) eqn:E; simpl.
    + rewrite Z.pow2_bits_eqb, Z.eqb_refl by lia. reflexivity.
    + rewrite Z.bits_0. reflexivity.
  - rewrite andb_false_r. destruct (Z.testbit x n).
    + rewrite Z.pow2_bits_eqb by lia. symmetry. apply Z.eqb_neq. lia.
    + rewrite Z.bits_0. reflexivity.
Qed.

Lemma land_pow2_eq0 x n :
  0 <= n -> (Z.land x (2 ^ n) =? 0) = negb (Z.testbit x n).
Proof.
  intros Hn. rewrite land_pow2 by lia. destruct (Z.testbit x n); simpl.
  - apply Z.eqb_neq. pose proof (Z.pow_pos_nonneg 2 n). lia.
  - reflexivity.
Qed.

Lemma testbit_set_bit x n m :
  0 <= n -> 0 <= m ->
  Z.testbit (Z.lor x (2 ^ n)) m = (m =? n) || Z.testbit x m.
Proof.
  intros Hn Hm. rewrite Z.lor_spec, Z.pow2_bits_eqb by lia.
  rewrite orb_comm, (Z.eqb_sym n m). reflexivity.
Qed.

Lemma testbit_wrap32 x m : 0 <= m < 32 -> Z.testbit (wrap32 x) m = Z.testbit x m.
Proof. intros Hm. unfold wrap32. apply Z.mod_pow2_bits_low. lia. Qed.

Lemma testbit_wrap8 x m : 0 <= m < 8 -> Z.testbit (wrap8 x) m = Z.testbit x m.
Proof. intros Hm. unfold wrap8. apply Z.mod_pow2_bits_low. lia. Qed.

Lemma wrap32_pow2 n : 0 <= n < 32 -> wrap32 (2 ^ n) = 2 ^ n.
Proof.
  intros Hn. unfold wrap32. apply Z.mod_small. split; [lia|].
  apply Z.pow_lt_mono_r; lia.
Qed.

Lemma uint8_mod8 c : 0 <= c mod 8 < 8.
Proof. apply Z.mod_pos_bound. lia. Qed.

Lemma uint8_same_bit c c' :
  c' / 8 = c / 8 -> c' mod 8 = c mod 8 -> c' = c.
Proof.
  intros Hd Hm. rewrite (Z.div_mod c 8), (Z.div_mod c' 8) by lia. lia.
Qed.

(** The address of a software source packet is below 32. *)
Lemma sw_source_addr_range c :
  is_uint8 c -> 0 <= wrap8 (TRACE_OP_GET_SW_SOURCE_ADDR c) < 32.
Proof.
  unfold is_uint8, wrap8, TRACE_OP_GET_SW_SOURCE_ADDR. intros Hc.
  rewrite Z.shiftr_div_pow2 by lia. change (2 ^ 3) with 8.
  assert (0 <= c / 8 < 32) by (apply (uint8_div8 c); exact Hc).
  rewrite Z.mod_small; lia.
Qed.

Lemma source_test_spec us addr :
  0 <= addr < 32 ->
  (Z.land us (wrap32 (Z.shiftl 1 addr)) =? 0) = negb (Z.testbit us addr).
Proof.
  intros Ha. rewrite shiftl_one, wrap32_pow2 by lia. apply land_pow2_eq0. lia.
Qed.

Lemma source_set_spec us addr a :
  0 <= addr < 32 -> 0 <= a < 32 ->
  Z.testbit (wrap32 (Z.lor us (wrap32 (Z.shiftl 1 addr)))) a
  = (a =? addr) || Z.testbit us a.
Proof.
  intros Haddr Ha. rewrite testbit_wrap32 by lia.
  rewrite shiftl_one, wrap32_pow2 by lia. apply testbit_set_bit; lia.
Qed.

Lemma opcode_test_spec b c :
  (Z.land b (Z.shiftl 1 (c mod 8)) =? 0) = negb (Z.testbit b (c mod 8)).
Proof.
  pose proof (uint8_mod8 c). rewrite shiftl_one by lia. apply land_pow2_eq0. lia.
Qed.

Lemma opcode_set_spec (l : list Z) c c' :
  length l = 32%nat -> is_uint8 c -> is_uint8 c' ->
  Z.testbit
    (default 0 (<[Z.to_nat (c / 8) :=
                   wrap8 (Z.lor (default 0 (l !! Z.to_nat (c / 8)))
                                (Z.shiftl 1 (c mod 8)))]> l
                !! Z.to_nat (c' / 8)))
    (c' mod 8)
  = (c' =? c) || Z.testbit (default 0 (l !! Z.to_nat (c' / 8))) (c' mod 8).
Proof.
  intros Hlen Hc Hc'.
  pose proof (uint8_div8 c Hc). pose proof (uint8_div8 c' Hc').
  pose proof (uint8_mod8 c). pose proof (uint8_mod8 c').
  destruct (Z.eq_dec (c' / 8) (c / 8)) as [Hd|Hd].
  - rewrite Hd, list_lookup_insert_eq by lia. simpl.
    rewrite testbit_wrap8, shiftl_one, testbit_set_bit by lia.
    f_equal. destruct (Z.eqb_spec (c' mod 8) (c mod 8)) as [Hm|Hm].
    + symmetry. apply Z.eqb_eq. apply uint8_same_bit; assumption.
    + symmetry. apply Z.eqb_neq. congruence.
  - rewrite list_lookup_insert_ne by lia.
    replace (c' =? c) with false; [reflexivity|].
    symmetry. apply Z.eqb_neq. congruence.
Qed.

(** ** One step of the decoder *)

Ltac unfold_M :=
  unfold mbind, M_mbind, M_bind, mret, M_mret, M_ret, get, put, emit.

Ltac unfold_decoder :=
  unfold UpdateTrace, UpdateTraceIdle, UpdateTraceIdle_tail, incr, when;
  unfold_M.

Ltac split_all := repeat match goal with |- _ /\ _ => split end.

Ltac step_M Hok Hi :=
  repeat first
    [ progress simpl
    | rewrite load_opcodes_ok by (first [exact Hok | exact Hi])
    | rewrite store_opcodes_ok by (first [exact Hok | exact Hi])
    | match goal with
      | |- context [if ?b then _ else _] => destruct b eqn:?
      end ].

(** The byte 0x70 passes the test of line 350. *)
Lemma overflow_is_local_time c :
  TRACE_OP_IS_OVERFLOW c = true -> TRACE_OP_IS_LOCAL_TIME c = true.
Proof.
  unfold TRACE_OP_IS_OVERFLOW. intros Hc. apply Z.eqb_eq in Hc. subst c.
  reflexivity.
Qed.

Lemma overflow_not_reached c :
  TRACE_OP_IS_LOCAL_TIME c || TRACE_OP_IS_GLOBAL_TIME c = false ->
  TRACE_OP_IS_OVERFLOW c = true -> False.
Proof.
  intros Ht Ho. apply overflow_is_local_time in Ho. rewrite Ho in Ht. discriminate.
Qed.

(** The size code of a source packet is 1, 2 or 3, so one of the [return]s
    of lines 346-348 is taken. *)
Lemma source_size_cases c :
  is_uint8 c -> TRACE_OP_IS_SOURCE c = true ->
  (wrap8 (TRACE_OP_GET_SOURCE_SIZE c) =? 1) = false ->
  (wrap8 (TRACE_OP_GET_SOURCE_SIZE c) =? 2) = false ->
  (wrap8 (TRACE_OP_GET_SOURCE_SIZE c) =? 3) = false -> False.
Proof.
  intros Hc H0 H1 H2 H3.
  pose proof (uint8_cases
    (fun c => negb (TRACE_OP_IS_SOURCE c)
              || (wrap8 (TRACE_OP_GET_SOURCE_SIZE c) =? 1)
              || (wrap8 (TRACE_OP_GET_SOURCE_SIZE c) =? 2)
              || (wrap8 (TRACE_OP_GET_SOURCE_SIZE c) =? 3))
    eq_refl c Hc) as Hall.
  simpl in Hall. rewrite H0, H1, H2, H3 in Hall. discriminate.
Qed.

(** Every byte is accepted in every state; the fields the decoder does not
    own are left alone. *)
Lemma UpdateTrace_step c t :
  trace_ok t -> is_uint8 c ->
  exists st t' evs,
    UpdateTrace c t = Some (st, t', evs) /\ trace_ok t' /\
    count_raw_bytes t' = wrap32 (count_raw_bytes t + 1) /\
    state t' = state t /\ start_time t' = start_time t /\
    configuration_checked t' = configuration_checked t /\
    count_overflow t' = count_overflow t.
Proof.
  intros Hok Hc. pose proof (uint8_div8 c Hc) as Hi.
  destruct Hok as (Hlen & Hall & Hraw & Htd & Htp & Hov & Her & Hus).
  unfold_decoder. simpl.
  destruct (state t) eqn:Est; step_M Hlen Hi.
  all: try (exfalso; eapply overflow_not_reached; eassumption).
  all: do 3 eexists; split; [reflexivity|]; simpl; unfold trace_ok; simpl;
       rewrite ?length_insert;
       repeat match goal with |- _ /\ _ => split end;
       auto using is_uint32_wrap32, Forall_insert, is_uint8_wrap8.
Qed.

(** What a step adds to the two sets and to the log: a warning is logged
    exactly when its bit goes from clear to set, and no bit is cleared. *)
Lemma UpdateTrace_seen c t st t' evs :
  trace_ok t -> is_uint8 c ->
  UpdateTrace c t = Some (st, t', evs) ->
  (forall c', is_uint8 c' ->
     (count_events (is_unknown_opcode_warning c') evs + Nat.b2n (seen_opcode t c')
      = Nat.b2n (seen_opcode t' c'))%nat) /\
  (forall a, 0 <= a < 32 ->
     (count_events (is_unsupported_source_warning a) evs + Nat.b2n (seen_source t a)
      = Nat.b2n (seen_source t' a))%nat).
Proof.
  intros Hok Hc. pose proof (uint8_div8 c Hc) as Hi.
  pose proof (sw_source_addr_range c Hc) as Haddr.
  destruct Hok as (Hok & _).
  unfold_decoder. simpl.
  destruct (state t) eqn:Est; step_M Hok Hi.
  all: try (exfalso; eapply overflow_not_reached; eassumption).
  all: try (exfalso; eapply source_size_cases; eassumption).
  all: intros [= <- <- <-]; unfold seen_opcode, seen_source, opcode_byte in *;
       simpl in *.
  all: try (split; intros; reflexivity).
  all: try match goal with
       | Hs : (Z.land (unknown_sources _) _ =? 0) = _ |- _ =>
           rewrite source_test_spec in Hs by exact Haddr;
           split; [intros; reflexivity|];
           intros a Ha; rewrite source_set_spec by (exact Haddr || exact Ha);
           destruct (Z.eqb_spec (wrap8 (TRACE_OP_GET_SW_SOURCE_ADDR c)) a) as [<-|Hne];
           [ rewrite Z.eqb_refl;
             destruct (Z.testbit (unknown_sources t) _); simpl in *; congruence
           | replace (a =? wrap8 (TRACE_OP_GET_SW_SOURCE_ADDR c)) with false
               by (symmetry; apply Z.eqb_neq; congruence);
             reflexivity ]
       end.
  all: match goal with
       | Hs : (Z.land (default 0 _) _ =? 0) = _ |- _ =>
           rewrite opcode_test_spec in Hs;
           split; [|intros; reflexivity];
           intros c' Hc'; rewrite opcode_set_spec by (exact Hok || assumption);
           destruct (Z.eqb_spec c c') as [<-|Hne];
           [ rewrite Z.eqb_refl;
             destruct (Z.testbit _ (c mod 8)); simpl in *; congruence
           | replace (c' =? c) with false
               by (symmetry; apply Z.eqb_neq; congruence);
             reflexivity ]
       end.
Qed.

(** ** Feeding a buffer *)

Lemma wrap32_succ x n : wrap32 (wrap32 (x + 1) + n) = wrap32 (x + (1 + n)).
Proof.
  unfold wrap32. rewrite Z.add_mod_idemp_l by lia. f_equal. lia.
Qed.

Lemma feed_cons c bs t st t1 e1 :
  UpdateTrace c t = Some (st, t1, e1) ->
  feed (c :: bs) t =
    match feed bs (set_state st t1) with
    | Some (u, t2, e2) => Some (u, t2, e1 ++ e2)
    | None => None
    end.
Proof.
  intros Hstep. simpl. unfold_M. rewrite Hstep. simpl.
  destruct (feed bs (set_state st t1)) as [[[u t2] e2]|]; reflexivity.
Qed.

Lemma feed_app bs1 bs2 t t1 e1 :
  feed bs1 t = Some (tt, t1, e1) ->
  feed (bs1 ++ bs2) t =
    match feed bs2 t1 with
    | Some (u, t2, e2) => Some (u, t2, e1 ++ e2)
    | None => None
    end.
Proof.
  revert t e1. induction bs1 as [|c bs1 IH]; intros t e1.
  - simpl. unfold_M. intros [= <- <-]. simpl.
    destruct (feed bs2 t) as [[[u t2] e2]|]; reflexivity.
  - simpl. unfold_M.
    destruct (UpdateTrace c t) as [[[st ta] ea]|] eqn:Hstep; [|discriminate].
    simpl.
    destruct (feed bs1 (set_state st ta)) as [[[[] tb] eb]|] eqn:Hrest; [|discriminate].
    intros [= <- <-]. rewrite (IH _ _ Hrest).
    destruct (feed bs2 tb) as [[[u t2] e2]|]; [|reflexivity].
    rewrite app_assoc. reflexivity.
Qed.

Lemma trace_ok_set_state st t : trace_ok t -> trace_ok (set_state st t).
Proof. intros Hok. exact Hok. Qed.

(** The decoder accepts every buffer, and the fields it does not own keep
    their values. *)
Lemma feed_frame bs t :
  trace_ok t -> Forall is_uint8 bs ->
  exists t' evs,
    feed bs t = Some (tt, t', evs) /\ trace_ok t' /\
    count_raw_bytes t' = wrap32 (count_raw_bytes t + Z.of_nat (length bs)) /\
    start_time t' = start_time t /\
    configuration_checked t' = configuration_checked t /\
    count_overflow t' = count_overflow t.
Proof.
  intros Hok Hbs. revert t Hok.
  induction Hbs as [|c bs Hc Hbs IH]; intros t Hok.
  - exists t, []. split_all; auto. simpl.
    rewrite Z.add_0_r. symmetry. apply wrap32_uint32, Hok.
  - destruct (UpdateTrace_step c t Hok Hc)
      as (st & t1 & e1 & Hstep & Hok1 & Hraw & _ & Hst & Hcc & Hov).
    destruct (IH (set_state st t1) (trace_ok_set_state st t1 Hok1))
      as (t2 & e2 & Hrest & Hok2 & Hraw2 & Hst2 & Hcc2 & Hov2).
    exists t2, (e1 ++ e2). rewrite (feed_cons _ _ _ _ _ _ Hstep), Hrest.
    simpl in *. split_all; auto; try congruence.
    rewrite Hraw2, Hraw, wrap32_succ. f_equal. lia.
Qed.

(** ** Packets seen from [Idle] *)

Lemma step_idle_01 t :
  state t = TRACE_STATE_IDLE ->
  UpdateTrace 0x01 t =
    Some (TRACE_STATE_TARGET_SOURCE,
          set_count_raw_bytes (wrap32 (count_raw_bytes t + 1)) t, []).
Proof. intros Est. unfold_decoder. simpl. rewrite Est. reflexivity. Qed.

Lemma step_idle_08 t :
  state t = TRACE_STATE_IDLE ->
  UpdateTrace 0x08 t =
    Some (TRACE_STATE_IDLE,
          set_count_raw_bytes (wrap32 (count_raw_bytes t + 1)) t, []).
Proof. intros Est. unfold_decoder. simpl. rewrite Est. reflexivity. Qed.

Lemma step_idle_70 t :
  state t = TRACE_STATE_IDLE ->
  UpdateTrace 0x70 t =
    Some (TRACE_STATE_IDLE,
          set_count_time_packets (wrap32 (count_time_packets t + 1))
            (set_count_raw_bytes (wrap32 (count_raw_bytes t + 1)) t), []).
Proof. intros Est. unfold_decoder. simpl. rewrite Est. reflexivity. Qed.

Lemma step_target_source c t :
  state t = TRACE_STATE_TARGET_SOURCE ->
  UpdateTrace c t =
    Some (TRACE_STATE_IDLE,
          set_count_target_data (wrap32 (count_target_data t + 1))
            (set_count_raw_bytes (wrap32 (count_raw_bytes t + 1)) t),
          Putchar c :: (if c =? 10 then [Fflush] else [])).
Proof.
  intros Est. unfold_decoder. simpl. rewrite Est. simpl.
  destruct (c =? 10); reflexivity.
Qed.

Lemma step_skip_2 c t :
  state t = TRACE_STATE_SKIP_2 ->
  UpdateTrace c t =
    Some (TRACE_STATE_SKIP_1,
          set_count_raw_bytes (wrap32 (count_raw_bytes t + 1)) t, []).
Proof. intros Est. unfold_decoder. simpl. rewrite Est. reflexivity. Qed.

Lemma step_skip_1 c t :
  state t = TRACE_STATE_SKIP_1 ->
  UpdateTrace c t =
    Some (TRACE_STATE_IDLE,
          set_count_raw_bytes (wrap32 (count_raw_bytes t + 1)) t, []).
Proof. intros Est. unfold_decoder. simpl. rewrite Est. reflexivity. Qed.

(** The only software source header with address 0 and size code 1 is the
    byte that line 335 tests for. *)
Lemma sw_source_addr0_size1 c :
  is_uint8 c -> TRACE_OP_IS_SW_SOURCE c = true ->
  TRACE_OP_GET_SW_SOURCE_ADDR c = 0 -> TRACE_OP_GET_SOURCE_SIZE c = 1 -> c = 0x01.
Proof.
  intros Hc Hsw Ha Hs.
  pose proof (uint8_cases
    (fun c => negb (TRACE_OP_IS_SW_SOURCE c)
              || negb (TRACE_OP_GET_SW_SOURCE_ADDR c =? 0)
              || negb (TRACE_OP_GET_SOURCE_SIZE c =? 1)
              || (c =? 0x01))
    eq_refl c Hc) as Hall.
  simpl in Hall. rewrite Hsw, Ha, Hs in Hall. simpl in Hall.
  apply Z.eqb_eq. exact Hall.
Qed.

Lemma sw_source_size2 c :
  is_uint8 c -> TRACE_OP_IS_SW_SOURCE c = true -> TRACE_OP_GET_SOURCE_SIZE c = 2 ->
  TRACE_OP_IS_TARGET_SOURCE c = false /\ TRACE_OP_IS_SOURCE c = true.
Proof.
  intros Hc Hsw Hs.
  pose proof (uint8_cases
    (fun c => negb (TRACE_OP_IS_SW_SOURCE c)
              || negb (TRACE_OP_GET_SOURCE_SIZE c =? 2)
              || (negb (TRACE_OP_IS_TARGET_SOURCE c) && TRACE_OP_IS_SOURCE c))
    eq_refl c Hc) as Hall.
  simpl in Hall. rewrite Hsw, Hs in Hall. simpl in Hall.
  apply andb_true_iff in Hall as [H1 H2]. apply negb_true_iff in H1. auto.
Qed.

Lemma step_idle_sw_size2 c t :
  is_uint8 c -> TRACE_OP_IS_SW_SOURCE c = true -> TRACE_OP_GET_SOURCE_SIZE c = 2 ->
  state t = TRACE_STATE_IDLE ->
  let addr := wrap8 (TRACE_OP_GET_SW_SOURCE_ADDR c) in
  UpdateTrace c t =
    Some (TRACE_STATE_SKIP_2,
          set_unknown_sources
            (wrap32 (Z.lor (unknown_sources t) (wrap32 (Z.shiftl 1 addr))))
            (set_count_raw_bytes (wrap32 (count_raw_bytes t + 1)) t),
          if seen_source t addr then [] else [WLOG (Unsupported_source addr 2)]).
Proof.
  intros Hc Hsw Hs Est addr.
  destruct (sw_source_size2 c Hc Hsw Hs) as [Hnt Hsrc].
  pose proof (sw_source_addr_range c Hc) as Haddr.
  unfold_decoder. simpl. rewrite Est, Hnt, Hsrc, Hsw, Hs. simpl.
  rewrite source_test_spec by exact Haddr. fold addr. unfold seen_source.
  destruct (Z.testbit (unknown_sources t) addr); reflexivity.
Qed.

(** Packets with the header 0x01 hand their payload to stdout. *)
Lemma feed_target_packets ps t :
  trace_ok t -> state t = TRACE_STATE_IDLE -> Forall is_uint8 ps ->
  exists t' evs,
    feed (flat_map (fun p => [0x01; p]) ps) t = Some (tt, t', evs) /\
    trace_ok t' /\ state t' = TRACE_STATE_IDLE /\
    stdout_of evs = ps /\
    count_target_data t' = wrap32 (count_target_data t + Z.of_nat (length ps)).
Proof.
  intros Hok Est Hps. revert t Hok Est.
  induction Hps as [|p ps Hp Hps IH]; intros t Hok Est.
  - exists t, []. split_all; auto. simpl. rewrite Z.add_0_r.
    symmetry. apply wrap32_uint32, Hok.
  - pose proof (step_idle_01 t Est) as H1.
    assert (is_uint8 0x01) as H01 by (unfold is_uint8; lia).
    destruct (UpdateTrace_step 0x01 t Hok H01) as (st1 & t1 & e1 & H1' & Hok1 & _).
    rewrite H1 in H1'. injection H1' as <- <- <-.
    set (t1 := set_state TRACE_STATE_TARGET_SOURCE
                 (set_count_raw_bytes (wrap32 (count_raw_bytes t + 1)) t)) in *.
    pose proof (step_target_source p t1 eq_refl) as H2.
    destruct (UpdateTrace_step p t1 Hok1 Hp) as (st2 & t2 & e2 & H2' & Hok2 & _).
    rewrite H2 in H2'. injection H2' as <- <- <-.
    match type of H2 with
    | _ = Some (_, ?t2, _) =>
        destruct (IH (set_state TRACE_STATE_IDLE t2) Hok2 eq_refl)
          as (t' & evs & Hrest & Hok' & Est' & Hout & Htd)
    end.
    exists t'. eexists.
    change (flat_map (fun p => [0x01; p]) (p :: ps))
      with (0x01 :: p :: flat_map (fun p => [0x01; p]) ps).
    rewrite (feed_cons _ _ _ _ _ _ H1). fold t1.
    rewrite (feed_cons _ _ _ _ _ _ H2), Hrest.
    split; [reflexivity|]. split_all; auto.
    + simpl. destruct (p =? 10); simpl; rewrite Hout; reflexivity.
    + rewrite Htd. simpl. rewrite wrap32_succ. f_equal. lia.
Qed.

(** ** The configuration heuristic *)

Lemma for_each_run (Q : event -> Prop) range body t :
  (forall i, i ∈ range -> exists e, body i t = Some (tt, t, e) /\ Forall Q e) ->
  exists evs, for_each range body t = Some (tt, t, evs) /\ Forall Q evs.
Proof.
  induction range as [|i range IH]; intros Hbody.
  - exists []. split; [reflexivity | constructor].
  - destruct (Hbody i) as (e & Hi & Qe); [left|].
    destruct IH as (evs & Hrest & Qevs).
    { intros j Hj. apply Hbody. right. exact Hj. }
    exists (e ++ evs). split.
    + simpl. unfold_M. rewrite Hi, Hrest. reflexivity.
    + apply Forall_app. split; assumption.
Qed.

Lemma report_unknown_opcodes_run t :
  length (unknown_opcodes t) = 32%nat ->
  exists evs, report_unknown_opcodes t = Some (tt, t, evs) /\
              Forall (fun e => decoder_warning e = false) evs.
Proof.
  intros Hlen. apply for_each_run. intros i Hi.
  apply elem_of_seqZ in Hi.
  assert (is_uint8 i) as Hu by (unfold is_uint8; lia).
  unfold_M. rewrite load_opcodes_ok by (exact Hlen || apply uint8_div8, Hu).
  unfold when. unfold_M.
  destruct (negb _); eexists; (split; [reflexivity|]); repeat constructor.
Qed.

Lemma report_unknown_sources_run t :
  exists evs, report_unknown_sources t = Some (tt, t, evs) /\
              Forall (fun e => decoder_warning e = false) evs.
Proof.
  apply for_each_run. intros i Hi. unfold when. unfold_M.
  destruct (negb _); eexists; (split; [reflexivity|]); repeat constructor.
Qed.

Lemma CheckForConfigurationError_skips now t :
  configuration_checked t || (elapsed_time_s now t <? 10) = true ->
  CheckForConfigurationError now t = Some (check_skipped, t, []).
Proof.
  intros Hskip. unfold CheckForConfigurationError. unfold_M. rewrite Hskip.
  reflexivity.
Qed.

Lemma CheckForConfigurationError_runs now t :
  length (unknown_opcodes t) = 32%nat ->
  configuration_checked t || (elapsed_time_s now t <? 10) = false ->
  exists evs,
    CheckForConfigurationError now t =
      Some (if poorly_configured t then check_reported else check_quiet,
            set_configuration_checked true t, evs) /\
    Forall (fun e => decoder_warning e = false) evs /\
    (poorly_configured t = false -> evs = []) /\
    (poorly_configured t = true -> exists rest, evs = WLOG Diag_stars :: rest).
Proof.
  intros Hlen Hrun. unfold CheckForConfigurationError. unfold_M. rewrite Hrun.
  change (poorly_configured (set_configuration_checked true t))
    with (poorly_configured t).
  destruct (poorly_configured t) eqn:Hpoor.
  - destruct (report_unknown_opcodes_run (set_configuration_checked true t) Hlen)
      as (e1 & H1 & Q1).
    destruct (report_unknown_sources_run (set_configuration_checked true t))
      as (e2 & H2 & Q2).
    rewrite H1, H2. eexists. split; [reflexivity|]. split_all.
    + simpl. repeat (apply Forall_cons; split; [reflexivity|]).
      apply Forall_app. split; [exact Q1|]. apply Forall_app. split; [exact Q2|].
      repeat constructor.
    + discriminate.
    + intros _. eexists. reflexivity.
  - exists []. split_all; auto. discriminate.
Qed.

(** ** Sessions *)

Lemma count_events_app p e1 e2 :
  count_events p (e1 ++ e2) = (count_events p e1 + count_events p e2)%nat.
Proof.
  induction e1 as [|e e1 IH]; simpl; [reflexivity|]. rewrite IH. lia.
Qed.

Lemma count_events_none p evs :
  (forall e, p e = true -> decoder_warning e = true) ->
  Forall (fun e => decoder_warning e = false) evs ->
  count_events p evs = 0%nat.
Proof.
  intros Hp Hall. induction Hall as [|e evs He Hall IH]; simpl; [reflexivity|].
  rewrite IH. destruct (p e) eqn:Hpe; [|reflexivity].
  apply Hp in Hpe. congruence.
Qed.

Lemma opcode_warning_is_decoder_warning c e :
  is_unknown_opcode_warning c e = true -> decoder_warning e = true.
Proof. destruct e as [| | | | |[] []|]; simpl; congruence. Qed.

Lemma source_warning_is_decoder_warning a e :
  is_unsupported_source_warning a e = true -> decoder_warning e = true.
Proof. destruct e as [| | | | |[] []|]; simpl; congruence. Qed.

Lemma run_session_feed c ops t st t1 e1 :
  UpdateTrace c t = Some (st, t1, e1) ->
  run_session (Feed c :: ops) t =
    match run_session ops (set_state st t1) with
    | Some (os, t2, e2) => Some (os, t2, e1 ++ e2)
    | None => None
    end.
Proof.
  intros Hstep. simpl. unfold_M. rewrite Hstep. simpl.
  destruct (run_session ops (set_state st t1)) as [[[os t2] e2]|]; reflexivity.
Qed.

Lemma run_session_check now ops t o t1 e1 :
  CheckForConfigurationError now t = Some (o, t1, e1) ->
  run_session (Heuristic now :: ops) t =
    match run_session ops t1 with
    | Some (os, t2, e2) => Some (o :: os, t2, e1 ++ e2)
    | None => None
    end.
Proof.
  intros Hstep. simpl. unfold_M. rewrite Hstep.
  destruct (run_session ops t1) as [[[os t2] e2]|]; [|reflexivity].
  rewrite app_nil_r. reflexivity.
Qed.

(** The invariant of a session: it runs to its end; the heuristic runs its
    checks exactly when the flag goes from clear to set; a decoder warning
    is logged exactly when its bit goes from clear to set. *)
Lemma run_session_inv ops t :
  trace_ok t -> Forall session_op_ok ops ->
  exists os t' evs,
    run_session ops t = Some (os, t', evs) /\ trace_ok t' /\
    start_time t' = start_time t /\
    (count_ran os + Nat.b2n (configuration_checked t)
     = Nat.b2n (configuration_checked t'))%nat /\
    (forall c, is_uint8 c ->
       (count_events (is_unknown_opcode_warning c) evs + Nat.b2n (seen_opcode t c)
        = Nat.b2n (seen_opcode t' c))%nat) /\
    (forall a, 0 <= a < 32 ->
       (count_events (is_unsupported_source_warning a) evs + Nat.b2n (seen_source t a)
        = Nat.b2n (seen_source t' a))%nat).
Proof.
  intros Hok Hops. revert t Hok.
  induction Hops as [|op ops Hop Hops IH]; intros t Hok.
  - exists [], t, []. split_all; auto.
  - destruct op as [c|now].
    + destruct (UpdateTrace_step c t Hok Hop)
        as (st & t1 & e1 & Hstep & Hok1 & _ & _ & Hst & Hcc & _).
      destruct (UpdateTrace_seen c t st t1 e1 Hok Hop Hstep) as [Hopc Hsrc].
      destruct (IH (set_state st t1) (trace_ok_set_state st t1 Hok1))
        as (os & t2 & e2 & Hrest & Hok2 & Hst2 & Hran & Hopc2 & Hsrc2).
      exists os, t2, (e1 ++ e2).
      rewrite (run_session_feed _ _ _ _ _ _ Hstep), Hrest.
      change (start_time (set_state st t1)) with (start_time t1) in Hst2.
      change (configuration_checked (set_state st t1))
        with (configuration_checked t1) in Hran.
      split; [reflexivity|]. split_all; auto; try congruence.
      * intros c' Hc'. rewrite count_events_app.
        pose proof (Hopc2 c' Hc') as A. pose proof (Hopc c' Hc') as B.
        change (seen_opcode (set_state st t1) c') with (seen_opcode t1 c') in A.
        lia.
      * intros a Ha. rewrite count_events_app.
        pose proof (Hsrc2 a Ha) as A. pose proof (Hsrc a Ha) as B.
        change (seen_source (set_state st t1) a) with (seen_source t1 a) in A.
        lia.
    + destruct (configuration_checked t || (elapsed_time_s now t <? 10)) eqn:Hskip.
      * destruct (IH t Hok) as (os & t2 & e2 & Hrest & Hok2 & Hst2 & Hran & Hopc2 & Hsrc2).
        exists (check_skipped :: os), t2, ([] ++ e2).
        rewrite (run_session_check _ _ _ _ _ _
                   (CheckForConfigurationError_skips now t Hskip)), Hrest.
        split_all; auto.
      * destruct (CheckForConfigurationError_runs now t (proj1 Hok) Hskip)
          as (e1 & Hrun & Qe1 & _).
        apply orb_false_iff in Hskip as [Hcc _].
        destruct (IH (set_configuration_checked true t) Hok)
          as (os & t2 & e2 & Hrest & Hok2 & Hst2 & Hran & Hopc2 & Hsrc2).
        eexists. exists t2, (e1 ++ e2).
        rewrite (run_session_check _ _ _ _ _ _ Hrun), Hrest.
        change (start_time (set_configuration_checked true t))
          with (start_time t) in Hst2.
        change (configuration_checked (set_configuration_checked true t))
          with true in Hran.
        split; [reflexivity|]. split_all; auto.
        -- rewrite Hcc, <- Hran. unfold count_ran. simpl.
           destruct (poorly_configured t); simpl; lia.
        -- intros c' Hc'. rewrite count_events_app.
           rewrite (count_events_none _ e1 (opcode_warning_is_decoder_warning c') Qe1).
           apply (Hopc2 c' Hc').
        -- intros a Ha. rewrite count_events_app.
           rewrite (count_events_none _ e1 (source_warning_is_decoder_warning a) Qe1).
           apply (Hsrc2 a Ha).
Qed.

Lemma trace_init_nothing_seen now :
  (forall c, seen_opcode (trace_init now) c = false) /\
  (forall a, seen_source (trace_init now) a = false).
Proof.
  split.
  - intros c. unfold seen_opcode, opcode_byte, trace_init.
    cbn [unknown_opcodes].
    destruct (replicate 32 0 !! Z.to_nat (c / 8)) as [v|] eqn:Hv.
    + apply lookup_replicate in Hv as [-> _]. apply Z.bits_0.
    + apply Z.bits_0.
  - intros a. apply Z.bits_0.
Qed.

(** A byte that reaches line 361 in the Idle state has its bit set
    afterwards. *)
Lemma unknown_opcode_recorded c t :
  trace_ok t -> is_uint8 c -> state t = TRACE_STATE_IDLE ->
  reaches_unknown_opcode c = true ->
  exists st t' evs,
    UpdateTrace c t = Some (st, t', evs) /\ seen_opcode t' c = true /\
    count_error t' = wrap32 (count_error t + 1).
Proof.
  intros Hok Hc Est Hu. pose proof (uint8_div8 c Hc) as Hi.
  destruct Hok as (Hlen & _).
  unfold reaches_unknown_opcode in Hu.
  apply andb_true_iff in Hu as [Hu Hext]. apply andb_true_iff in Hu as [Hu Htime].
  apply andb_true_iff in Hu as [Htgt Hsrc].
  apply negb_true_iff in Hext, Htime, Htgt, Hsrc.
  unfold_decoder. simpl. rewrite Est, Htgt, Hsrc, Htime, Hext.
  step_M Hlen Hi.
  all: do 3 eexists; split; [reflexivity|]; split; [|reflexivity].
  all: unfold seen_opcode, opcode_byte; simpl.
  all: rewrite opcode_set_spec by (assumption || exact Hc);
       rewrite Z.eqb_refl; reflexivity.
Qed.

(** A software source header other than 0x01 has the bit of its address
    set afterwards. *)
Lemma unknown_source_recorded c t :
  trace_ok t -> is_uint8 c -> state t = TRACE_STATE_IDLE ->
  TRACE_OP_IS_SW_SOURCE c = true -> TRACE_OP_IS_TARGET_SOURCE c = false ->
  exists st t' evs,
    UpdateTrace c t = Some (st, t', evs) /\
    seen_source t' (TRACE_OP_GET_SW_SOURCE_ADDR c) = true.
Proof.
  intros Hok Hc Est Hsw Htgt.
  destruct (UpdateTrace_step c t Hok Hc) as (st & t' & evs & Hstep & _).
  exists st, t', evs. split; [exact Hstep|].
  pose proof (sw_source_addr_range c Hc) as Haddr.
  assert (wrap8 (TRACE_OP_GET_SW_SOURCE_ADDR c) = TRACE_OP_GET_SW_SOURCE_ADDR c) as Hw.
  { unfold wrap8, TRACE_OP_GET_SW_SOURCE_ADDR. rewrite Z.shiftr_div_pow2 by lia.
    pose proof (uint8_div8 c Hc). change (2 ^ 3) with 8. apply Z.mod_small. lia. }
  assert (TRACE_OP_IS_SOURCE c = true) as Hsrc.
  { unfold TRACE_OP_IS_SW_SOURCE in Hsw. apply andb_true_iff in Hsw as [Hs _].
    exact Hs. }
  revert Hstep. unfold_decoder. simpl. rewrite Est, Htgt, Hsrc, Hsw.
  destruct Hok as (Hlen & _). pose proof (uint8_div8 c Hc) as Hi.
  step_M Hlen Hi.
  all: try (exfalso; eapply source_size_cases; eassumption).
  all: intros [= <- <- <-]; unfold seen_source; simpl.
  all: rewrite <- Hw at 2; rewrite source_set_spec by (exact Haddr);
       rewrite Z.eqb_refl; reflexivity.
Qed.

(** ** The serial number *)

Lemma strlen_range text : 0 <= strlen text <= Z.of_nat (length text).
Proof.
  induction text as [|c text IH]; simpl; [lia|].
  destruct (c =? 0); lia.
Qed.

Lemma text_at_in_bounds text i :
  0 <= i <= Z.of_nat (length text) -> is_Some (text_at text i).
Proof.
  intros Hi. unfold text_at.
  replace (0 <=? i) with true by (symmetry; apply Z.leb_le; lia).
  apply lookup_lt_is_Some_2. rewrite length_app. simpl. lia.
Qed.

Lemma store_binary_in_bounds buf i v :
  0 <= i < Z.of_nat (length buf) ->
  store_binary buf i v = Some (<[Z.to_nat i := v]> buf).
Proof.
  intros Hi. unfold store_binary.
  replace ((0 <=? i) && (i <? Z.of_nat (length buf))) with true; [reflexivity|].
  symmetry. apply andb_true_iff. split; [apply Z.leb_le | apply Z.ltb_lt]; lia.
Qed.

(** The loop ends, inside both arrays, for any text and any starting
    point. *)
Lemma convert_loop_safe MAX text n len buf :
  0 <= n -> 0 <= len -> Z.of_nat (length buf) = MAX ->
  exists out len',
    convert_loop MAX text n len buf = Some (out, len') /\
    length out = length buf /\
    len <= len' /\ (len' <= MAX \/ len' = len) /\
    (forall i, (i < Z.to_nat len \/ Z.to_nat len' <= i)%nat -> out !! i = buf !! i).
Proof.
  funelim (convert_loop MAX text n len buf); intros Hn Hlen Hbuf.
  - pose proof (strlen_range text) as Hs.
    destruct (text_at_in_bounds text n) as [c0 H0]; [lia|].
    destruct (text_at_in_bounds text (n + 1)) as [c1 H1]; [lia|].
    rewrite H0, H1, store_binary_in_bounds by lia.
    assert (0 <= wrap32 (n + 2)) as Hn2
      by (unfold wrap32; apply Z.mod_pos_bound; lia).
    assert (0 <= len + 1) as Hl2 by lia.
    assert (Z.of_nat (length (<[Z.to_nat len := wrap8 (strtol16 [c0; c1; 0])]>
                                 binary_out)) = MAX) as Hb2
      by (rewrite length_insert; exact Hbuf).
    match goal with
    | IH : Z -> Z -> _ |- _ =>
        destruct (IH c0 c1 _ Hn2 Hl2 Hb2) as (out & len' & Hrun & Hlo & Hle & Hmax & Hrest)
    end.
    exists out, len'. rewrite Hrun. split; [reflexivity|].
    rewrite length_insert in Hlo. split_all; [exact Hlo | lia | lia |].
    intros i Hi. rewrite Hrest by lia. apply list_lookup_insert_ne. lia.
  - exists binary_out, len. split_all; auto; lia.
  - exists binary_out, len. split_all; auto; lia.
Qed.

(** While [n] does not wrap, the loop stops after the chunk that holds the
    last character of the text, or when the destination is full. *)
Lemma convert_loop_count MAX text len buf out len' :
  0 <= len -> Z.of_nat (length buf) = MAX ->
  strlen text + 1 < 2 ^ 32 \/ 2 * MAX < 2 ^ 32 ->
  len <= Z.min ((strlen text + 1) / 2) MAX ->
  convert_loop MAX text (2 * len) len buf = Some (out, len') ->
  len' = Z.min ((strlen text + 1) / 2) MAX.
Proof.
  remember (2 * len) as n eqn:En. revert out len' En.
  funelim (convert_loop MAX text n len buf); intros out len' En Hlen Hbuf Hwrap Hle.
  - pose proof (strlen_range text) as Hs.
    destruct (text_at_in_bounds text n) as [c0 H0]; [lia|].
    destruct (text_at_in_bounds text (n + 1)) as [c1 H1]; [lia|].
    rewrite H0, H1, store_binary_in_bounds by lia.
    assert (wrap32 (n + 2) = 2 * (len + 1)) as Hw.
    { unfold wrap32. rewrite Z.mod_small; lia. }
    intros Hrun.
    match goal with
    | IH : Z -> Z -> _ |- _ =>
        eapply (IH c0 c1); [exact Hw | lia | | exact Hwrap | | exact Hrun]
    end.
    + rewrite length_insert. exact Hbuf.
    + Z.div_mod_to_equations. lia.
  - intros [= <- <-]. Z.div_mod_to_equations. lia.
  - intros [= <- <-]. Z.div_mod_to_equations. lia.
Qed.

(** ** The session driver *)

Section Driver_facts.

Context {W : Type}.
Variable H : stlink_h.
Variable D : stlink_driver W.

Lemma P_bind_ret_inv {A B} (m : @P W A) (f : A -> P B) (w : W) b w' evs :
  (m ≫= f) w = (Ret b, w', evs) ->
  exists a w1 e1 e2,
    m w = (Ret a, w1, e1) /\ f a w1 = (Ret b, w', e2) /\ evs = e1 ++ e2.
Proof.
  unfold mbind, P_mbind, P_bind.
  destruct (m w) as [[[a| |] w1] e1]; [|discriminate|discriminate].
  destruct (f a w1) as [[r w2] e2] eqn:Hf. intros [= -> -> <-].
  exists a, w1, e1, e2. auto.
Qed.

Lemma emits_ret {A} Q (a : A) : emits Q (mret a : @P W A).
Proof. intros w r w' e [= <- <- <-]. constructor. Qed.

Lemma emits_bind {A B} Q (m : @P W A) (f : A -> P B) :
  emits Q m -> (forall a, emits Q (f a)) -> emits Q (m ≫= f).
Proof.
  intros Hm Hf w r w' e. unfold mbind, P_mbind, P_bind.
  destruct (m w) as [[[a| |] w1] e1] eqn:Em.
  - destruct (f a w1) as [[r2 w2] e2] eqn:Ef. intros [= <- <- <-].
    apply Forall_app. split; [exact (Hm _ _ _ _ Em) | exact (Hf _ _ _ _ _ Ef)].
  - intros [= <- <- <-]. exact (Hm _ _ _ _ Em).
  - intros [= <- <- <-]. exact (Hm _ _ _ _ Em).
Qed.

Lemma emits_call {R} Q c (f : W -> R * W) : Q (Call c) -> emits Q (call c f).
Proof.
  intros Hc w r w' e. unfold call. destruct (f w) as [x w1].
  intros [= <- <- <-]. repeat constructor. exact Hc.
Qed.

Lemma emits_call_read Q address :
  (forall word, Q (Call (stlink_read_mem32 address word))) ->
  emits Q (call_read_mem32 D address).
Proof.
  intros Hc w r w' e. unfold call_read_mem32.
  destruct (do_read_mem32 D address w) as [x w1].
  intros [= <- <- <-]. repeat constructor. apply Hc.
Qed.

Lemma emits_say Q ev : Q ev -> emits Q (say ev : @P W unit).
Proof. intros Hq w r w' e [= <- <- <-]. repeat constructor. exact Hq. Qed.

Lemma emits_unless_forced {A} Q failed msg settings (v : A) (k : @P W A) :
  Q (ELOG msg) -> emits Q k -> emits Q (unless_forced failed msg settings v k).
Proof.
  intros Hq Hk. unfold unless_forced. destruct failed; [|exact Hk].
  apply emits_bind; [apply emits_say, Hq|]. intros _.
  destruct (negb (force settings)); [apply emits_ret | exact Hk].
Qed.

Lemma emits_Write32 Q address data :
  (forall m, Q (ELOG m)) -> Q (Call (stlink_write_mem32 (wrap32 address) (wrap32 data))) ->
  emits Q (Write32 D address data).
Proof.
  intros Hlog Hc. unfold Write32. apply emits_bind; [apply emits_call, Hc|].
  intros rc. destruct (negb (rc =? 0)); [apply emits_say, Hlog | apply emits_ret].
Qed.

Lemma emits_Read32 Q address :
  (forall m, Q (ELOG m)) ->
  (forall word, Q (Call (stlink_read_mem32 (wrap32 address) word))) ->
  emits Q (Read32 D address).
Proof.
  intros Hlog Hc. unfold Read32. apply emits_bind; [apply emits_call_read, Hc|].
  intros r. apply emits_bind; [|intros _; apply emits_ret].
  destruct (negb (r.1 =? 0)); [apply emits_say, Hlog | apply emits_ret].
Qed.

Ltac emits_steps :=
  repeat first
    [ apply emits_ret
    | apply emits_Write32; [intros; exact I | reflexivity]
    | apply emits_Read32; [intros; exact I | intros; reflexivity]
    | apply emits_call; reflexivity
    | apply emits_say; exact I
    | apply emits_unless_forced; [exact I|]
    | apply emits_bind; [|intros ?]
    | match goal with
      | |- emits _ (if ?b then _ else _) => destruct b
      end ].

(** [EnableTrace] neither switches tracing off nor closes the probe. *)
Lemma EnableTrace_no_teardown settings :
  emits not_teardown (EnableTrace H D settings).
Proof. unfold EnableTrace. emits_steps. Qed.

Lemma emits_undefined {A} Q : emits Q (undefined : @P W A).
Proof. intros w r w' e [= <- <- <-]. constructor. Qed.

Lemma StLinkConnect_no_teardown settings :
  emits not_teardown (StLinkConnect H D settings).
Proof.
  unfold StLinkConnect. destruct (serial_number settings) as [text|].
  - destruct (ConvertSerialNumberTextToBinary _ _ _) as [[b l]|].
    + apply emits_call. reflexivity.
    + apply emits_undefined.
  - apply emits_call. reflexivity.
Qed.

Lemma aborts_with_bind {A} Q (m : @P W A) (f : A -> P Z) :
  emits Q m -> (forall a, aborts_with Q (f a)) -> aborts_with Q (m ≫= f).
Proof.
  intros Hm Hf w code w' e Hrun Hcode.
  apply P_bind_ret_inv in Hrun as (a & w1 & e1 & e2 & Em & Ef & ->).
  apply Forall_app. split; [exact (Hm _ _ _ _ Em) | exact (Hf _ _ _ _ _ Ef Hcode)].
Qed.

Lemma aborts_with_ret Q (v : Z) : aborts_with Q (mret v : @P W Z).
Proof. intros w code w' e [= <- <- <-] _. constructor. Qed.

Lemma aborts_with_unless_forced Q failed msg settings (v : Z) (k : @P W Z) :
  Q (ELOG msg) -> aborts_with Q k ->
  aborts_with Q (unless_forced failed msg settings v k).
Proof.
  intros Hq Hk. unfold unless_forced. destruct failed; [|exact Hk].
  apply aborts_with_bind; [apply emits_say, Hq|]. intros _.
  destruct (negb (force settings)); [apply aborts_with_ret | exact Hk].
Qed.

Lemma only_success_bind {A} (m : @P W A) (f : A -> P Z) :
  (forall a, only_success (f a)) -> only_success (m ≫= f).
Proof.
  intros Hf w code w' e Hrun.
  apply P_bind_ret_inv in Hrun as (a & w1 & e1 & e2 & _ & Ef & _).
  exact (Hf _ _ _ _ _ Ef).
Qed.

Lemma only_success_ret : only_success (mret APP_RESULT_SUCCESS : @P W Z).
Proof. intros w code w' e [= <- <- <-]. reflexivity. Qed.

Lemma aborts_with_only_success Q (m : @P W Z) : only_success m -> aborts_with Q m.
Proof. intros Hm w code w' e Hrun Hcode. elim Hcode. exact (Hm _ _ _ _ Hrun). Qed.

(** An exit code other than success is returned before the teardown. *)
Lemma main_aborts_without_teardown parsed fuel :
  aborts_with not_teardown (main H D parsed fuel).
Proof.
  unfold main. destruct parsed as [settings|].
  - apply aborts_with_bind; [apply emits_say; exact I|]. intros _.
    destruct (show_help settings).
    { apply aborts_with_bind; [apply emits_say; exact I|]. intros _.
      apply aborts_with_ret. }
    destruct (show_version settings).
    { apply aborts_with_bind; [apply emits_say; exact I|]. intros _.
      apply aborts_with_ret. }
    apply aborts_with_bind; [apply StLinkConnect_no_teardown|].
    intros [stlink|].
    + do 3 (apply aborts_with_unless_forced; [exact I|]).
      apply aborts_with_bind; [apply EnableTrace_no_teardown|]. intros enabled.
      apply aborts_with_unless_forced; [exact I|].
      apply aborts_with_bind; [apply emits_call; reflexivity|]. intros rc.
      apply aborts_with_unless_forced; [exact I|].
      apply aborts_with_only_success.
      repeat (apply only_success_bind; intros ?). apply only_success_ret.
    + apply aborts_with_bind; [apply emits_say; exact I|]. intros _.
      apply aborts_with_ret.
  - apply aborts_with_bind; [apply emits_say; exact I|]. intros _.
    apply aborts_with_ret.
Qed.

(** *** [EnableTrace] returns *)

Lemma always_ret_ret {A} (S : A -> Prop) (a : A) : S a -> always_ret S (mret a : @P W A).
Proof. intros Ha w. exists a, w, []. split; [reflexivity | exact Ha]. Qed.

Lemma always_ret_bind {A B} (S1 : A -> Prop) (S : B -> Prop) (m : @P W A) (f : A -> P B) :
  always_ret S1 m -> (forall a, S1 a -> always_ret S (f a)) -> always_ret S (m ≫= f).
Proof.
  intros Hm Hf w. destruct (Hm w) as (a & w1 & e1 & Em & Ha).
  destruct (Hf a Ha w1) as (b & w2 & e2 & Ef & Hb).
  exists b, w2, (e1 ++ e2). split; [|exact Hb].
  unfold mbind, P_mbind, P_bind. rewrite Em, Ef. reflexivity.
Qed.

Lemma always_ret_call {R} c (f : W -> R * W) : always_ret (fun _ => True) (call c f).
Proof.
  intros w. unfold call. destruct (f w) as [r w1]. exists r, w1, [Call c]. auto.
Qed.

Lemma always_ret_say ev : always_ret (fun _ => True) (say ev : @P W unit).
Proof. intros w. exists tt, w, [ev]. auto. Qed.

Lemma always_ret_Write32 address data :
  always_ret (fun _ => True) (Write32 D address data).
Proof.
  unfold Write32. eapply always_ret_bind; [apply always_ret_call|].
  intros rc _. destruct (negb (rc =? 0)); [apply always_ret_say|].
  apply always_ret_ret. exact I.
Qed.

Lemma always_ret_Read32 address : always_ret (fun _ => True) (Read32 D address).
Proof.
  unfold Read32. eapply (always_ret_bind (fun _ => True)).
  - intros w. unfold call_read_mem32.
    destruct (do_read_mem32 D (wrap32 address) w) as [r w1].
    eexists. eexists. eexists. split; [reflexivity | exact I].
  - intros r _. eapply (always_ret_bind (fun _ => True)).
    + destruct (negb (r.1 =? 0)); [apply always_ret_say|].
      apply always_ret_ret. exact I.
    + intros _ _. apply always_ret_ret. exact I.
Qed.

Lemma always_ret_forced {A} (S : A -> Prop) failed msg settings (v : A) (k : @P W A) :
  force settings = true -> always_ret S k ->
  always_ret S (unless_forced failed msg settings v k).
Proof.
  intros Hforce Hk. unfold unless_forced. rewrite Hforce. simpl.
  destruct failed; [|exact Hk].
  eapply always_ret_bind; [apply always_ret_say|]. intros _ _. exact Hk.
Qed.

Ltac returns_steps :=
  repeat first
    [ apply always_ret_ret; reflexivity
    | apply always_ret_Write32
    | apply always_ret_Read32
    | apply always_ret_call
    | apply always_ret_say
    | eapply (always_ret_bind (fun _ => True)); [|intros ? _]
    | match goal with
      | |- always_ret _ (if ?b then _ else _) => destruct b
      end ].

(** With [force] set, [EnableTrace] runs to its end whatever the probe
    answers. *)
Lemma EnableTrace_forced settings :
  force settings = true ->
  always_ret (fun b => b = true) (EnableTrace H D settings).
Proof.
  intros Hforce. unfold EnableTrace.
  eapply (always_ret_bind (fun _ => True)); [apply always_ret_call|]. intros rc1 _.
  apply always_ret_forced; [exact Hforce|].
  eapply (always_ret_bind (fun _ => True)).
  { destruct (reset_board settings); [apply always_ret_call|].
    apply always_ret_ret. exact I. }
  intros rc2 _. apply always_ret_forced; [exact Hforce|].
  do 9 (eapply (always_ret_bind (fun _ => True)); [apply always_ret_Write32|];
        intros _ _).
  eapply (always_ret_bind (fun _ => True)); [apply always_ret_call|]. intros rc3 _.
  apply always_ret_forced; [exact Hforce|].
  eapply (always_ret_bind (fun _ => True)); [apply always_ret_Write32|]. intros _ _.
  eapply (always_ret_bind (fun _ => True)).
  { destruct (negb _); [apply always_ret_Write32|]. apply always_ret_ret. exact I. }
  intros _ _.
  eapply (always_ret_bind (fun _ => True)); [apply always_ret_Read32|]. intros p _.
  eapply (always_ret_bind (fun _ => True)).
  { destruct (negb _); apply always_ret_say. }
  intros _ _.
  do 9 (eapply (always_ret_bind (fun _ => True)); [apply always_ret_Write32|];
        intros _ _).
  apply always_ret_ret. reflexivity.
Qed.

(** The abort for a missing device, for any probe driver: [main] returns
    right after the log line. *)
Lemma missing_device_abort settings fuel (w : W) stlink w1 :
  show_help settings = false -> show_version settings = false ->
  force settings = false -> serial_number settings = None ->
  do_open_usb D None w = (Some stlink, w1) ->
  chip_id stlink = STLINK_CHIPID_UNKNOWN H ->
  main H D (Some settings) fuel w
  = (Ret APP_RESULT_STLINK_MISSING_DEVICE, w1,
     [DLOG Settings_dump; Call stlink_open_usb; ELOG Not_connected_to_device]).
Proof.
  intros Hhelp Hversion Hforce Hserial Hopen Hchip.
  unfold main, StLinkConnect, unless_forced, call.
  rewrite Hhelp, Hversion, Hserial, Hforce.
  unfold mbind, P_mbind, P_bind, say. rewrite Hopen.
  cbn [negb]. rewrite Hchip, Z.eqb_refl. reflexivity.
Qed.

(** *** The prescaler *)

Lemma acpr_view_app e1 e2 : acpr_view (e1 ++ e2) = acpr_view e1 ++ acpr_view e2.
Proof. apply flat_map_app. Qed.

Lemma acpr_view_quiet e : Forall acpr_quiet e -> acpr_view e = [].
Proof.
  induction 1 as [|x e Hx He IH]; [reflexivity|].
  change (x :: e) with ([x] ++ e). rewrite acpr_view_app, IH, Hx. reflexivity.
Qed.

Lemma acpr_post_bind {A} S (m : @P W A) (f : A -> P bool) :
  emits acpr_quiet m -> (forall a, acpr_post S (f a)) -> acpr_post S (m ≫= f).
Proof.
  intros Hm Hf w w' e Hrun.
  apply P_bind_ret_inv in Hrun as (a & w1 & e1 & e2 & Em & Ef & ->).
  rewrite acpr_view_app, (acpr_view_quiet e1 (Hm _ _ _ _ Em)).
  exact (Hf _ _ _ _ Ef).
Qed.

Lemma acpr_post_unless_forced S failed msg settings (k : @P W bool) :
  acpr_post S k -> acpr_post S (unless_forced failed msg settings false k).
Proof.
  intros Hk. unfold unless_forced. destruct failed; [|exact Hk].
  apply acpr_post_bind; [apply emits_say; reflexivity|]. intros _.
  destruct (negb (force settings)); [|exact Hk].
  intros w w' e [= ]. 
Qed.

Lemma wrap32_idem x : wrap32 (wrap32 x) = wrap32 x.
Proof. apply wrap32_uint32, is_uint32_wrap32. Qed.

Lemma Write32_acpr data (w : W) r w' e :
  Write32 D TPI_ACPR data w = (r, w', e) -> acpr_view e = [Wrote (wrap32 data)].
Proof.
  unfold Write32, call. unfold mbind, P_mbind, P_bind.
  destruct (do_write_mem32 D _ _ w) as [rc w1].
  destruct (negb (rc =? 0)); intros [= <- <- <-]; reflexivity.
Qed.

Lemma Read32_acpr (w : W) r w' e :
  Read32 D TPI_ACPR w = (r, w', e) ->
  exists p, r = Ret p /\ is_uint32 p /\ acpr_view e = [Read_back p].
Proof.
  unfold Read32, call_read_mem32. unfold mbind, P_mbind, P_bind.
  destruct (do_read_mem32 D _ w) as [[rc word] w1]. simpl.
  destruct (negb (rc =? 0)); intros [= <- <- <-];
    (eexists; split; [reflexivity|]; split; [apply is_uint32_wrap32 | reflexivity]).
Qed.

Ltac quiet_steps Hd1 Hd2 :=
  repeat first
    [ apply emits_ret
    | apply emits_Write32; [intros; reflexivity | unfold acpr_quiet; simpl;
        first [ rewrite (proj2 (Z.eqb_neq _ _) Hd1); reflexivity
              | rewrite (proj2 (Z.eqb_neq _ _) Hd2); reflexivity
              | reflexivity ] ]
    | apply emits_call; reflexivity
    | apply emits_say; reflexivity
    | apply emits_bind; [|intros ?]
    | match goal with
      | |- emits _ (if ?b then _ else _) => destruct b
      end ].

(** What [EnableTrace] does with the prescaler register when it runs to
    its end: it writes the prescaler computed from the clock, if one was
    given; it reads the register; it reports the clock that the word read
    stands for, or warns when that word is 0. *)
Lemma EnableTrace_acpr settings (w : W) w' evs :
  wrap32 (DCB_DHCSR H) <> TPI_ACPR -> wrap32 (DCB_DEMCR H) <> TPI_ACPR ->
  EnableTrace H D settings w = (Ret true, w', evs) ->
  exists p,
    is_uint32 p /\
    acpr_view evs =
      (if core_frequency_mhz settings =? 0 then []
       else [Wrote (prescaler_for H (core_frequency_mhz settings))])
      ++ [Read_back p;
          if p =? 0 then Warned_unconfigured
          else Reported (system_clock_speed_mhz H p)].
Proof.
  intros Hd1 Hd2. revert w w' evs.
  change (acpr_post
    (fun l => exists p, is_uint32 p /\
       l = (if core_frequency_mhz settings =? 0 then []
            else [Wrote (prescaler_for H (core_frequency_mhz settings))])
           ++ [Read_back p;
               if p =? 0 then Warned_unconfigured
               else Reported (system_clock_speed_mhz H p)])
    (EnableTrace H D settings)).
  unfold EnableTrace.
  apply acpr_post_bind; [quiet_steps Hd1 Hd2|]. intros rc1.
  apply acpr_post_unless_forced.
  apply acpr_post_bind; [quiet_steps Hd1 Hd2|]. intros rc2.
  apply acpr_post_unless_forced.
  do 9 (apply acpr_post_bind; [quiet_steps Hd1 Hd2|]; intros _).
  apply acpr_post_bind; [quiet_steps Hd1 Hd2|]. intros rc3.
  apply acpr_post_unless_forced.
  apply acpr_post_bind; [quiet_steps Hd1 Hd2|]. intros _.
  intros w w' evs Hrun.
  apply P_bind_ret_inv in Hrun as ([] & w1 & e1 & e1' & Hwrite & Hrun & ->).
  apply P_bind_ret_inv in Hrun as (p0 & w2 & e2 & e2' & Hread & Hrun & ->).
  apply P_bind_ret_inv in Hrun as ([] & w3 & e3 & e3' & Hreport & Hrun & ->).
  apply Read32_acpr in Hread as (p & Hret & Hp & Hv2). injection Hret as <-.
  assert (emits acpr_quiet
            (Write32 D TPI_FFCR TPI_FFCR_TRIG_IN;;
             Write32 D TPI_SPPR TPI_SPPR_SWO_NRZ;;
             Write32 D ITM_LAR ITM_LAR_KEY;;
             Write32 D ITM_TCC 0x00000400;;
             Write32 D ITM_TCR
               (Z.lor (Z.lor ITM_TCR_TRACE_BUS_ID_1 ITM_TCR_TS_ENA) ITM_TCR_ITM_ENA);;
             Write32 D ITM_TER ITM_TER_PORTS_ALL;;
             Write32 D ITM_TPR ITM_TPR_PORTS_ALL;;
             Write32 D DWT_CTRL
               (Z.lor (Z.lor (Z.lor (Z.lor (4 * DWT_CTRL_NUM_COMP) DWT_CTRL_CYC_TAP)
                                    (0xF * DWT_CTRL_POST_INIT))
                             (0xF * DWT_CTRL_POST_PRESET))
                      DWT_CTRL_CYCCNT_ENA);;
             Write32 D (DCB_DEMCR H) (DEMCR_TRCENA H);;
             (mret true : @P W bool))) as Hsuffix
    by quiet_steps Hd1 Hd2.
  pose proof (acpr_view_quiet _ (Hsuffix _ _ _ _ Hrun)) as Hv4.
  exists p0. split; [exact Hp|].
  rewrite !acpr_view_app, Hv2, Hv4.
  f_equal; [|f_equal].
  - destruct (core_frequency_mhz settings =? 0); simpl in Hwrite.
    + injection Hwrite as <- <-. reflexivity.
    + apply Write32_acpr in Hwrite. rewrite Hwrite.
      unfold prescaler_for. destruct (prescaler_defined _ _);
        rewrite wrap32_idem; reflexivity.
  - rewrite app_nil_r.
    destruct (p0 =? 0); simpl in Hreport; injection Hreport as <- <-; reflexivity.
Qed.

End Driver_facts.

(** ** Sessions in two parts *)

Lemma run_session_app ops1 ops2 : forall t os1 t1 e1,
  run_session ops1 t = Some (os1, t1, e1) ->
  run_session (ops1 ++ ops2) t =
    match run_session ops2 t1 with
    | Some (os2, t2, e2) => Some (os1 ++ os2, t2, e1 ++ e2)
    | None => None
    end.
Proof.
  induction ops1 as [|op ops1 IH]; intros t os1 t1 e1 Hrun.
  - injection Hrun as <- <- <-. simpl.
    destruct (run_session ops2 t) as [[[os2 t2] e2]|]; reflexivity.
  - destruct op as [c|now]; cbn [app].
    + destruct (UpdateTrace c t) as [[[st ta] ea]|] eqn:Hstep.
      * rewrite (run_session_feed _ _ _ _ _ _ Hstep) in Hrun.
        rewrite (run_session_feed _ _ _ _ _ _ Hstep).
        destruct (run_session ops1 (set_state st ta)) as [[[os' t'] e']|] eqn:Hrest;
          [|discriminate].
        injection Hrun as <- <- <-. rewrite (IH _ _ _ _ Hrest).
        destruct (run_session ops2 t') as [[[os2 t2] e2]|]; [|reflexivity].
        rewrite app_assoc. reflexivity.
      * exfalso. revert Hrun. simpl. unfold_M. rewrite Hstep. discriminate.
    + destruct (CheckForConfigurationError now t) as [[[o ta] ea]|] eqn:Hstep.
      * rewrite (run_session_check _ _ _ _ _ _ Hstep) in Hrun.
        rewrite (run_session_check _ _ _ _ _ _ Hstep).
        destruct (run_session ops1 ta) as [[[os' t'] e']|] eqn:Hrest; [|discriminate].
        injection Hrun as <- <- <-. rewrite (IH _ _ _ _ Hrest).
        destruct (run_session ops2 t') as [[[os2 t2] e2]|]; [|reflexivity].
        rewrite app_assoc. reflexivity.
      * exfalso. revert Hrun. simpl. unfold_M. rewrite Hstep. discriminate.
Qed.

(** A session in which every call of the heuristic comes before 10
    seconds: every call returns at once. *)
Lemma run_session_early ops : forall t,
  trace_ok t -> Forall session_op_ok ops -> Forall (early_call (start_time t)) ops ->
  exists os t' evs,
    run_session ops t = Some (os, t', evs) /\
    Forall (fun o => o = check_skipped) os /\
    configuration_checked t' = configuration_checked t.
Proof.
  induction ops as [|op ops IH]; intros t Hok Hops Hearly.
  - exists [], t, []. split_all; auto.
  - apply Forall_cons in Hops as [Hop Hops].
    apply Forall_cons in Hearly as [He Hearly].
    destruct op as [c|now].
    + destruct (UpdateTrace_step c t Hok Hop)
        as (st & t1 & e1 & Hstep & Hok1 & _ & _ & Hstart & Hcc & _).
      destruct (IH (set_state st t1) (trace_ok_set_state st t1 Hok1) Hops)
        as (os & t' & evs & Hrun & Hos & Hcc').
      { change (start_time (set_state st t1)) with (start_time t1).
        rewrite Hstart. exact Hearly. }
      exists os, t', (e1 ++ evs).
      rewrite (run_session_feed _ _ _ _ _ _ Hstep), Hrun.
      split; [reflexivity|]. split; [exact Hos|].
      rewrite Hcc'. exact Hcc.
    + assert (CheckForConfigurationError now t = Some (check_skipped, t, [])) as Hskip.
      { apply CheckForConfigurationError_skips. apply orb_true_iff. right.
        apply Z.ltb_lt. simpl in He. unfold elapsed_time_s, wrap32.
        rewrite Z.mod_small by lia. lia. }
      destruct (IH t Hok Hops Hearly) as (os & t' & evs & Hrun & Hos & Hcc').
      exists (check_skipped :: os), t', ([] ++ evs).
      rewrite (run_session_check _ _ _ _ _ _ Hskip), Hrun.
      split; [reflexivity|]. split; [constructor; auto | exact Hcc'].
Qed.


(** * The claims about the decoder *)

Lemma feed_replicate_08 n s cc raw td tp ov er uo us :
  is_uint32 raw ->
  feed (replicate n 0x08) (mk_trace s cc TRACE_STATE_IDLE raw td tp ov er uo us)
  = Some (tt, mk_trace s cc TRACE_STATE_IDLE (wrap32 (raw + Z.of_nat n))
                td tp ov er uo us, []).
Proof.
  revert raw. induction n as [|n IH]; intros raw Hraw.
  - simpl. unfold_M. rewrite Z.add_0_r, wrap32_uint32 by exact Hraw. reflexivity.
  - change (replicate (S n) 0x08) with (0x08 :: replicate n 0x08).
    rewrite (feed_cons _ _ _ _ _ _
               (step_idle_08 (mk_trace s cc TRACE_STATE_IDLE raw td tp ov er uo us)
                             eq_refl)).
    unfold set_state, set_count_raw_bytes.
    cbn [start_time configuration_checked state
         count_raw_bytes count_target_data count_time_packets count_overflow
         count_error unknown_opcodes unknown_sources].
    rewrite IH by apply is_uint32_wrap32.
    rewrite wrap32_succ, Nat2Z.inj_succ.
    replace (Z.succ (Z.of_nat n)) with (1 + Z.of_nat n) by lia. reflexivity.
Qed.

(** C1: what the code does with the byte 0x70 in the Idle state.  It is
    taken for a local timestamp packet: the timestamp counter goes up by
    one, and neither the overflow counter, nor the error counter, nor the
    set of unknown opcodes changes. *)
Theorem idle_0x70_is_a_time_packet t :
  state t = TRACE_STATE_IDLE ->
  exists t',
    UpdateTrace 0x70 t = Some (TRACE_STATE_IDLE, t', []) /\
    count_time_packets t' = wrap32 (count_time_packets t + 1) /\
    count_overflow t' = count_overflow t /\
    count_error t' = count_error t /\
    unknown_opcodes t' = unknown_opcodes t /\
    seen_opcode t' 0x70 = seen_opcode t 0x70.
Proof.
  intros Est. eexists. split; [apply step_idle_70, Est|].
  split_all; reflexivity.
Qed.

Lemma idle_0x70_is_a_time_packet_witness :
  state (trace_init 0) = TRACE_STATE_IDLE /\
  exists t',
    UpdateTrace 0x70 (trace_init 0) = Some (TRACE_STATE_IDLE, t', []) /\
    count_time_packets t' = wrap32 (count_time_packets (trace_init 0) + 1) /\
    count_overflow t' = count_overflow (trace_init 0) /\
    count_error t' = count_error (trace_init 0) /\
    unknown_opcodes t' = unknown_opcodes (trace_init 0) /\
    seen_opcode t' 0x70 = seen_opcode (trace_init 0) 0x70.
Proof.
  split; [reflexivity|]. apply (idle_0x70_is_a_time_packet (trace_init 0)).
  reflexivity.
Defined.

(** C2, as stated, fails: the header of a software source packet with
    address 1 and size code 1 is 0x09, and its payload is skipped; and the
    target-data counter, a [uint32_t], wraps to 0 on packet number 2^32. *)
Lemma packet_at_address_1_is_skipped :
  (is_uint8 0x09 /\ TRACE_OP_IS_SW_SOURCE 0x09 = true /\
   TRACE_OP_GET_SW_SOURCE_ADDR 0x09 = 1 /\ TRACE_OP_GET_SOURCE_SIZE 0x09 = 1 /\
   exists t evs,
     feed [0x09; 65] (trace_init 0) = Some (tt, t, evs) /\
     stdout_of evs = [] /\ count_target_data t = 0 /\
     state t = TRACE_STATE_IDLE) /\
  (exists t evs t' evs',
     feed (flat_map (fun p => [0x01; p]) (replicate (Z.to_nat (2 ^ 32 - 1)) 65))
          (trace_init 0) = Some (tt, t, evs) /\
     count_target_data t = 2 ^ 32 - 1 /\
     feed [0x01; 65] t = Some (tt, t', evs') /\
     stdout_of evs' = [65] /\
     count_target_data t' = 0).
Proof.
  split.
  - split; [unfold is_uint8; lia|]. split_all; try reflexivity.
    eexists. eexists. split; [vm_compute; reflexivity|].
    split_all; reflexivity.
  - assert (is_uint8 65) as H65 by (unfold is_uint8; lia).
    destruct (feed_target_packets (replicate (Z.to_nat (2 ^ 32 - 1)) 65)
                (trace_init 0) (trace_init_ok 0) eq_refl
                (Forall_replicate is_uint8 _ 65 H65))
      as (t & evs & Hfeed & Hok & Est & _ & Htd).
    destruct (feed_target_packets [65] t Hok Est
                (Forall_cons_2 is_uint8 65 [] H65 (Forall_nil_2 is_uint8)))
      as (t' & evs' & Hfeed' & _ & _ & Hout & Htd').
    assert (count_target_data t = 2 ^ 32 - 1) as Hmax.
    { rewrite Htd, length_replicate, Z2Nat.id by lia. reflexivity. }
    exists t, evs, t', evs'.
    split; [exact Hfeed|]. split; [exact Hmax|]. split; [exact Hfeed'|].
    split; [exact Hout|]. rewrite Htd', Hmax. reflexivity.
Qed.

(** C2 (amended): a software source packet with address 0 and size code 1
    (header 0x01, then one payload byte) fed to the decoder in the Idle
    state puts the payload byte on stdout and adds one to the target-data
    counter, modulo 2^32; a sequence of such packets reproduces the payload
    bytes in order and leaves the decoder in the Idle state. *)
Theorem target_packets_reproduced c ps t :
  is_uint8 c -> TRACE_OP_IS_SW_SOURCE c = true ->
  TRACE_OP_GET_SW_SOURCE_ADDR c = 0 -> TRACE_OP_GET_SOURCE_SIZE c = 1 ->
  trace_ok t -> state t = TRACE_STATE_IDLE -> Forall is_uint8 ps ->
  exists t' evs,
    feed (flat_map (fun p => [c; p]) ps) t = Some (tt, t', evs) /\
    stdout_of evs = ps /\
    count_target_data t' = (count_target_data t + Z.of_nat (length ps)) mod 2 ^ 32 /\
    state t' = TRACE_STATE_IDLE.
Proof.
  intros Hc Hsw Ha Hs Hok Est Hps.
  rewrite (sw_source_addr0_size1 c Hc Hsw Ha Hs).
  destruct (feed_target_packets ps t Hok Est Hps)
    as (t' & evs & Hfeed & _ & Est' & Hout & Htd).
  exists t', evs. split_all; assumption.
Qed.

Lemma target_packets_reproduced_witness :
  (is_uint8 0x01 /\ TRACE_OP_IS_SW_SOURCE 0x01 = true /\
   TRACE_OP_GET_SW_SOURCE_ADDR 0x01 = 0 /\ TRACE_OP_GET_SOURCE_SIZE 0x01 = 1 /\
   trace_ok (trace_init 0) /\ state (trace_init 0) = TRACE_STATE_IDLE /\
   Forall is_uint8 [72; 105; 10]) /\
  exists t' evs,
    feed (flat_map (fun p => [0x01; p]) [72; 105; 10]) (trace_init 0)
      = Some (tt, t', evs) /\
    stdout_of evs = [72; 105; 10] /\
    count_target_data t' =
      (count_target_data (trace_init 0) + Z.of_nat (length [72; 105; 10])) mod 2 ^ 32 /\
    state t' = TRACE_STATE_IDLE.
Proof.
  assert (Forall is_uint8 [72; 105; 10]) as Hps
    by (repeat constructor; unfold is_uint8; lia).
  assert (is_uint8 0x01) as H01 by (unfold is_uint8; lia).
  split.
  - split_all; try reflexivity; auto using trace_init_ok.
  - apply (target_packets_reproduced 0x01 [72; 105; 10] (trace_init 0));
      auto using trace_init_ok.
Defined.

(** C4: whatever bytes the decoder is fed from its initial state, the
    overflow counter stays 0.  No step changes it: the byte 0x70 satisfies
    the local timestamp test, which comes first, so the increment of
    line 358 is never reached and 0x70 is counted as a timestamp packet. *)
Theorem overflow_counter_stays_zero now bs :
  Forall is_uint8 bs ->
  (exists t evs, feed bs (trace_init now) = Some (tt, t, evs) /\ count_overflow t = 0) /\
  TRACE_OP_IS_LOCAL_TIME 0x70 = true /\
  (forall c, TRACE_OP_IS_OVERFLOW c = true -> TRACE_OP_IS_LOCAL_TIME c = true) /\
  (forall t c st t' evs,
     trace_ok t -> is_uint8 c -> UpdateTrace c t = Some (st, t', evs) ->
     count_overflow t' = count_overflow t) /\
  (forall t, state t = TRACE_STATE_IDLE ->
     exists t', UpdateTrace 0x70 t = Some (TRACE_STATE_IDLE, t', []) /\
                count_time_packets t' = wrap32 (count_time_packets t + 1) /\
                count_overflow t' = count_overflow t).
Proof.
  intros Hbs. split_all.
  - destruct (feed_frame bs (trace_init now) (trace_init_ok now) Hbs)
      as (t & evs & Hfeed & _ & _ & _ & _ & Hov).
    exists t, evs. split; [exact Hfeed|]. rewrite Hov. reflexivity.
  - reflexivity.
  - apply overflow_is_local_time.
  - intros t c st t' evs Hok Hc Hstep.
    destruct (UpdateTrace_step c t Hok Hc)
      as (st1 & t1 & e1 & Hstep1 & _ & _ & _ & _ & _ & Hov).
    rewrite Hstep in Hstep1. injection Hstep1 as -> -> ->. exact Hov.
  - intros t Est. eexists. split; [apply step_idle_70, Est|].
    split; reflexivity.
Qed.

Lemma overflow_counter_stays_zero_witness :
  Forall is_uint8 [0x70; 0x70; 0xf0; 0x70] /\
  exists t evs,
    feed [0x70; 0x70; 0xf0; 0x70] (trace_init 0) = Some (tt, t, evs) /\
    count_overflow t = 0.
Proof.
  assert (Forall is_uint8 [0x70; 0x70; 0xf0; 0x70]) as Hbs
    by (repeat constructor; unfold is_uint8; lia).
  split; [exact Hbs|].
  exact (proj1 (overflow_counter_stays_zero 0 [0x70; 0x70; 0xf0; 0x70] Hbs)).
Defined.

(** C6, as stated, fails: the raw-byte counter is a [uint32_t].  After
    2^32 - 1 bytes (here extension headers, which leave the decoder in the
    Idle state) it holds 2^32 - 1, and the next byte takes it to 0. *)
Lemma raw_counter_wraps :
  Forall is_uint8 (replicate (Z.to_nat (2 ^ 32 - 1)) 0x08 ++ [0x08]) /\
  feed (replicate (Z.to_nat (2 ^ 32 - 1)) 0x08) (trace_init 0)
    = Some (tt, set_count_raw_bytes (2 ^ 32 - 1) (trace_init 0), []) /\
  feed [0x08] (set_count_raw_bytes (2 ^ 32 - 1) (trace_init 0))
    = Some (tt, trace_init 0, []) /\
  count_raw_bytes (trace_init 0)
    <> count_raw_bytes (set_count_raw_bytes (2 ^ 32 - 1) (trace_init 0))
       + Z.of_nat (length [0x08]).
Proof.
  split_all.
  - apply Forall_app. split; [apply Forall_replicate|repeat constructor];
      unfold is_uint8; lia.
  - unfold trace_init.
    rewrite feed_replicate_08 by (unfold is_uint32; lia).
    rewrite Z2Nat.id by lia. reflexivity.
  - reflexivity.
  - simpl. lia.
Qed.

(** C6 (amended): in every well-formed state every byte is accepted and
    gives one next state, every buffer is processed to the end, and the
    raw-byte counter grows by the number of bytes fed modulo 2^32, that is
    by exactly that number as long as the sum stays below 2^32. *)
Theorem decoder_total_raw_count bs t :
  trace_ok t -> Forall is_uint8 bs ->
  (forall c, is_uint8 c ->
     exists st t1 e,
       UpdateTrace c t = Some (st, t1, e) /\ trace_ok t1 /\
       count_raw_bytes t1 = (count_raw_bytes t + 1) mod 2 ^ 32) /\
  exists t' evs,
    feed bs t = Some (tt, t', evs) /\ trace_ok t' /\
    count_raw_bytes t' = (count_raw_bytes t + Z.of_nat (length bs)) mod 2 ^ 32 /\
    (count_raw_bytes t + Z.of_nat (length bs) < 2 ^ 32 ->
     count_raw_bytes t' = count_raw_bytes t + Z.of_nat (length bs)).
Proof.
  intros Hok Hbs. split.
  - intros c Hc.
    destruct (UpdateTrace_step c t Hok Hc) as (st & t1 & e & Hstep & Hok1 & Hraw & _).
    exists st, t1, e. auto.
  - destruct (feed_frame bs t Hok Hbs) as (t' & evs & Hfeed & Hok' & Hraw & _).
    exists t', evs. split_all; auto.
    intros Hlt. rewrite Hraw. apply wrap32_uint32.
    destruct Hok as (_ & _ & [Hlo _] & _). unfold is_uint32. lia.
Qed.

Lemma decoder_total_raw_count_witness :
  (trace_ok (trace_init 0) /\ Forall is_uint8 [0x01; 65; 0xff; 0x03]) /\
  exists t' evs,
    feed [0x01; 65; 0xff; 0x03] (trace_init 0) = Some (tt, t', evs) /\
    trace_ok t' /\
    count_raw_bytes t' =
      (count_raw_bytes (trace_init 0) + Z.of_nat (length [0x01; 65; 0xff; 0x03]))
        mod 2 ^ 32 /\
    (count_raw_bytes (trace_init 0) + Z.of_nat (length [0x01; 65; 0xff; 0x03]) < 2 ^ 32 ->
     count_raw_bytes t' =
       count_raw_bytes (trace_init 0) + Z.of_nat (length [0x01; 65; 0xff; 0x03])).
Proof.
  assert (Forall is_uint8 [0x01; 65; 0xff; 0x03]) as Hbs
    by (repeat constructor; unfold is_uint8; lia).
  split; [split; [apply trace_init_ok | exact Hbs]|].
  exact (proj2 (decoder_total_raw_count [0x01; 65; 0xff; 0x03] (trace_init 0)
                  (trace_init_ok 0) Hbs)).
Defined.

(** C9: in the Idle state a software source header with size code 2 sends
    the decoder through Skip2 and Skip1 back to Idle: the two bytes that
    follow are dropped.  Nothing is written to stdout, the raw-byte counter
    has counted the three bytes, no other counter and no bit of the opcode
    set changes, and the set of source addresses gains at most the address
    of the header. *)
Theorem sw_source_size2_skips_two_bytes c b1 b2 t :
  trace_ok t -> state t = TRACE_STATE_IDLE ->
  is_uint8 c -> is_uint8 b1 -> is_uint8 b2 ->
  TRACE_OP_IS_SW_SOURCE c = true -> TRACE_OP_GET_SOURCE_SIZE c = 2 ->
  TRACE_OP_IS_TARGET_SOURCE c = false /\
  exists t1 t2 t3 evs,
    feed [c] t = Some (tt, t1, evs) /\ state t1 = TRACE_STATE_SKIP_2 /\
    feed [b1] t1 = Some (tt, t2, []) /\ state t2 = TRACE_STATE_SKIP_1 /\
    feed [b2] t2 = Some (tt, t3, []) /\ state t3 = TRACE_STATE_IDLE /\
    feed [c; b1; b2] t = Some (tt, t3, evs) /\
    stdout_of evs = [] /\
    count_raw_bytes t3 = wrap32 (count_raw_bytes t + 3) /\
    count_target_data t3 = count_target_data t /\
    count_time_packets t3 = count_time_packets t /\
    count_overflow t3 = count_overflow t /\
    count_error t3 = count_error t /\
    unknown_opcodes t3 = unknown_opcodes t /\
    (forall a, 0 <= a < 32 ->
       seen_source t3 a =
         (a =? wrap8 (TRACE_OP_GET_SW_SOURCE_ADDR c)) || seen_source t a).
Proof.
  intros Hok Est Hc Hb1 Hb2 Hsw Hs.
  destruct (sw_source_size2 c Hc Hsw Hs) as [Hnt _].
  split; [exact Hnt|].
  pose proof (step_idle_sw_size2 c t Hc Hsw Hs Est) as H1. simpl in H1.
  pose proof (sw_source_addr_range c Hc) as Haddr.
  set (addr := wrap8 (TRACE_OP_GET_SW_SOURCE_ADDR c)) in *.
  set (t1 := set_state TRACE_STATE_SKIP_2
               (set_unknown_sources
                  (wrap32 (Z.lor (unknown_sources t) (wrap32 (Z.shiftl 1 addr))))
                  (set_count_raw_bytes (wrap32 (count_raw_bytes t + 1)) t))).
  pose proof (step_skip_2 b1 t1 eq_refl) as H2.
  set (t2 := set_state TRACE_STATE_SKIP_1
               (set_count_raw_bytes (wrap32 (count_raw_bytes t1 + 1)) t1)).
  pose proof (step_skip_1 b2 t2 eq_refl) as H3.
  set (t3 := set_state TRACE_STATE_IDLE
               (set_count_raw_bytes (wrap32 (count_raw_bytes t2 + 1)) t2)).
  assert (feed [c] t = Some (tt, t1, if seen_source t addr then []
                                     else [WLOG (Unsupported_source addr 2)])) as F1.
  { rewrite (feed_cons _ _ _ _ _ _ H1). simpl. unfold_M. rewrite app_nil_r.
    reflexivity. }
  assert (feed [b1] t1 = Some (tt, t2, [])) as F2.
  { rewrite (feed_cons _ _ _ _ _ _ H2). reflexivity. }
  assert (feed [b2] t2 = Some (tt, t3, [])) as F3.
  { rewrite (feed_cons _ _ _ _ _ _ H3). reflexivity. }
  exists t1, t2, t3. eexists. split; [exact F1|].
  split; [reflexivity|]. split; [exact F2|]. split; [reflexivity|].
  split; [exact F3|]. split; [reflexivity|]. split.
  { change [c; b1; b2] with ([c] ++ [b1] ++ [b2]).
    rewrite (feed_app _ _ _ _ _ F1), (feed_app _ _ _ _ _ F2), F3.
    simpl. rewrite app_nil_r. reflexivity. }
  split.
  { destruct (seen_source t addr); reflexivity. }
  split.
  { unfold t3, t2, t1. simpl. rewrite !wrap32_succ. f_equal; lia. }
  split_all; try reflexivity.
  intros a Ha. unfold seen_source, t3, t2, t1. simpl.
  apply source_set_spec; assumption.
Qed.

Lemma sw_source_size2_skips_two_bytes_witness :
  (trace_ok (trace_init 0) /\ state (trace_init 0) = TRACE_STATE_IDLE /\
   is_uint8 0x12 /\ is_uint8 0xAA /\ is_uint8 0x01 /\
   TRACE_OP_IS_SW_SOURCE 0x12 = true /\ TRACE_OP_GET_SOURCE_SIZE 0x12 = 2) /\
  TRACE_OP_IS_TARGET_SOURCE 0x12 = false /\
  exists t1 t2 t3 evs,
    feed [0x12] (trace_init 0) = Some (tt, t1, evs) /\
    state t1 = TRACE_STATE_SKIP_2 /\
    feed [0xAA] t1 = Some (tt, t2, []) /\ state t2 = TRACE_STATE_SKIP_1 /\
    feed [0x01] t2 = Some (tt, t3, []) /\ state t3 = TRACE_STATE_IDLE /\
    feed [0x12; 0xAA; 0x01] (trace_init 0) = Some (tt, t3, evs) /\
    stdout_of evs = [] /\
    count_raw_bytes t3 = wrap32 (count_raw_bytes (trace_init 0) + 3) /\
    count_target_data t3 = count_target_data (trace_init 0) /\
    count_time_packets t3 = count_time_packets (trace_init 0) /\
    count_overflow t3 = count_overflow (trace_init 0) /\
    count_error t3 = count_error (trace_init 0) /\
    unknown_opcodes t3 = unknown_opcodes (trace_init 0) /\
    (forall a, 0 <= a < 32 ->
       seen_source t3 a =
         (a =? wrap8 (TRACE_OP_GET_SW_SOURCE_ADDR 0x12)) || seen_source (trace_init 0) a).
Proof.
  assert (is_uint8 0x12 /\ is_uint8 0xAA /\ is_uint8 0x01) as (H1 & H2 & H3)
    by (unfold is_uint8; lia).
  split.
  - split_all; auto using trace_init_ok.
  - apply (sw_source_size2_skips_two_bytes 0x12 0xAA 0x01 (trace_init 0));
      auto using trace_init_ok.
Defined.

(** * The claims about the heuristic and the warnings *)

(** C5, as stated, fails where the 32-bit difference of line 428 is not
    the time elapsed.  With a clock that shows 999 when the session
    started at 1000, one second before the start, the difference wraps to
    2^32 - 1: the heuristic runs its checks and reports.  And with a clock
    that shows 2^32 + 5 seconds after the start, the difference is 5: the
    call returns at once and leaves the flag clear. *)
Lemma heuristic_follows_the_wrapped_clock :
  (999 - start_time (trace_init 1000) < 10 /\
   CheckForConfigurationError 999 (trace_init 1000)
   = Some (check_reported, set_configuration_checked true (trace_init 1000),
           [WLOG Diag_stars; WLOG Diag_not_retrieving; WLOG (Diag_raw_bytes 0);
            WLOG (Diag_target_data 0); WLOG (Diag_time_packets 0);
            WLOG (Diag_overflow_count 0); WLOG (Diag_errors 0);
            WLOG Diag_check_clock; WLOG Diag_stars])) /\
  (10 <= (1000 + 2 ^ 32 + 5) - start_time (trace_init 1000) /\
   CheckForConfigurationError (1000 + 2 ^ 32 + 5) (trace_init 1000)
   = Some (check_skipped, trace_init 1000, [])).
Proof. split_all; vm_compute; first [reflexivity | discriminate]. Qed.

(** C5 (amended): while the clock has not been set back behind the start
    of the session, a call of the heuristic made less than 10 seconds
    after the start does nothing (no report, no change of the record), and
    in a session in which every call comes that early every call returns
    at once and the flag stays as it was.  The first call made with the
    flag clear at 10 seconds or more, and less than 2^32 seconds, after the
    start runs the checks and sets the flag [configuration_checked],
    whether or not it reports; every call made with the flag set returns at
    once.  So in a session of any length (bytes fed and calls of the
    heuristic in any order, with any clock) the counter checks run at most
    once: they run exactly when the flag goes from clear to set. *)
Theorem heuristic_runs_at_most_once ops t :
  trace_ok t -> Forall session_op_ok ops ->
  (forall now, 0 <= now - start_time t < 10 ->
     CheckForConfigurationError now t = Some (check_skipped, t, [])) /\
  (Forall (early_call (start_time t)) ops ->
   exists os t' evs,
     run_session ops t = Some (os, t', evs) /\
     Forall (fun o => o = check_skipped) os /\
     configuration_checked t' = configuration_checked t) /\
  (forall now, configuration_checked t = false -> 10 <= now - start_time t < 2 ^ 32 ->
     exists o t' evs,
       CheckForConfigurationError now t = Some (o, t', evs) /\
       ran_checks o = true /\
       t' = set_configuration_checked true t /\
       (o = check_reported <-> poorly_configured t = true) /\
       (o = check_quiet <-> poorly_configured t = false) /\
       (o = check_quiet -> evs = [])) /\
  (forall now, configuration_checked t = true ->
     CheckForConfigurationError now t = Some (check_skipped, t, [])) /\
  exists os t' evs,
    run_session ops t = Some (os, t', evs) /\
    start_time t' = start_time t /\
    (count_ran os <= 1)%nat /\
    (count_ran os + Nat.b2n (configuration_checked t)
     = Nat.b2n (configuration_checked t'))%nat.
Proof.
  intros Hok Hops.
  assert (forall now, 0 <= now - start_time t < 2 ^ 32 ->
            elapsed_time_s now t = now - start_time t) as Helapsed.
  { intros now Hrange. unfold elapsed_time_s, wrap32. apply Z.mod_small. exact Hrange. }
  split_all.
  - intros now Hlt. apply CheckForConfigurationError_skips.
    apply orb_true_iff. right. apply Z.ltb_lt. rewrite Helapsed; lia.
  - intros Hearly. apply run_session_early; assumption.
  - intros now Hcc Hge.
    destruct (CheckForConfigurationError_runs now t (proj1 Hok))
      as (evs & Hrun & _ & Hquiet & _).
    { rewrite Hcc. simpl. apply Z.ltb_ge. rewrite Helapsed; lia. }
    eexists. eexists. exists evs. split; [exact Hrun|].
    destruct (poorly_configured t); split_all; try reflexivity;
      try (split; congruence); auto; discriminate.
  - intros now Hcc. apply CheckForConfigurationError_skips. rewrite Hcc. reflexivity.
  - destruct (run_session_inv ops t Hok Hops)
      as (os & t' & evs & Hrun & _ & Hstart & Hran & _).
    exists os, t', evs. split_all; auto.
    destruct (configuration_checked t), (configuration_checked t'); simpl in Hran; lia.
Qed.

Lemma heuristic_runs_at_most_once_witness :
  (trace_ok (trace_init 1000) /\
   Forall session_op_ok
     [Heuristic 1003; Feed 0x10; Heuristic 1009; Heuristic 1010; Feed 0x01; Feed 65; Heuristic 1011]) /\
  exists os t' evs,
    run_session
      [Heuristic 1003; Feed 0x10; Heuristic 1009; Heuristic 1010; Feed 0x01; Feed 65; Heuristic 1011]
      (trace_init 1000) = Some (os, t', evs) /\
    start_time t' = start_time (trace_init 1000) /\
    (count_ran os <= 1)%nat /\
    (count_ran os + Nat.b2n (configuration_checked (trace_init 1000))
     = Nat.b2n (configuration_checked t'))%nat.
Proof.
  assert (Forall session_op_ok
            [Heuristic 1003; Feed 0x10; Heuristic 1009; Heuristic 1010; Feed 0x01; Feed 65;
             Heuristic 1011]) as Hops
    by (repeat constructor; unfold is_uint8; lia).
  split; [split; [apply trace_init_ok | exact Hops]|].
  apply (heuristic_runs_at_most_once _ (trace_init 1000) (trace_init_ok 1000) Hops).
Defined.

(** C7: in a session that starts from the initial record, a value that
    reaches the unknown-opcode lines in the Idle state at any point of the
    session has its warning logged exactly once in the whole session,
    however often it occurs, and so has the address of a software source
    header (other than the target source byte) met in the Idle state.  In
    general the warning for a value has been logged once if the bit of
    that value is set at the end and not at all otherwise; an occurrence
    in the Idle state sets the bit; and no operation of a session clears a
    bit of either set. *)
Theorem warnings_logged_once now ops :
  Forall session_op_ok ops ->
  (exists os t evs,
     run_session ops (trace_init now) = Some (os, t, evs) /\
     (forall c, is_uint8 c ->
        count_events (is_unknown_opcode_warning c) evs = Nat.b2n (seen_opcode t c)) /\
     (forall a, 0 <= a < 32 ->
        count_events (is_unsupported_source_warning a) evs = Nat.b2n (seen_source t a)) /\
     (forall ops1 c ops2 os1 t1 e1,
        ops = ops1 ++ Feed c :: ops2 ->
        run_session ops1 (trace_init now) = Some (os1, t1, e1) ->
        state t1 = TRACE_STATE_IDLE -> reaches_unknown_opcode c = true ->
        count_events (is_unknown_opcode_warning c) evs = 1%nat) /\
     (forall ops1 c ops2 os1 t1 e1,
        ops = ops1 ++ Feed c :: ops2 ->
        run_session ops1 (trace_init now) = Some (os1, t1, e1) ->
        state t1 = TRACE_STATE_IDLE ->
        TRACE_OP_IS_SW_SOURCE c = true -> TRACE_OP_IS_TARGET_SOURCE c = false ->
        count_events (is_unsupported_source_warning (TRACE_OP_GET_SW_SOURCE_ADDR c)) evs
        = 1%nat)) /\
  (forall t c, trace_ok t -> is_uint8 c -> state t = TRACE_STATE_IDLE ->
     reaches_unknown_opcode c = true ->
     exists st t' evs, UpdateTrace c t = Some (st, t', evs) /\ seen_opcode t' c = true) /\
  (forall t c, trace_ok t -> is_uint8 c -> state t = TRACE_STATE_IDLE ->
     TRACE_OP_IS_SW_SOURCE c = true -> TRACE_OP_IS_TARGET_SOURCE c = false ->
     exists st t' evs,
       UpdateTrace c t = Some (st, t', evs) /\
       seen_source t' (TRACE_OP_GET_SW_SOURCE_ADDR c) = true) /\
  (forall t ops' os t' evs,
     trace_ok t -> Forall session_op_ok ops' ->
     run_session ops' t = Some (os, t', evs) ->
     (forall c, is_uint8 c -> seen_opcode t c = true -> seen_opcode t' c = true) /\
     (forall a, 0 <= a < 32 -> seen_source t a = true -> seen_source t' a = true)).
Proof.
  intros Hops.
  assert (forall t ops' os t' evs,
     trace_ok t -> Forall session_op_ok ops' ->
     run_session ops' t = Some (os, t', evs) ->
     (forall c, is_uint8 c -> seen_opcode t c = true -> seen_opcode t' c = true) /\
     (forall a, 0 <= a < 32 -> seen_source t a = true -> seen_source t' a = true))
    as Hmono.
  { intros t ops' os t' evs Hok Hops' Hrun.
    destruct (run_session_inv ops' t Hok Hops')
      as (os1 & t1 & evs1 & Hrun1 & _ & _ & _ & Hopc & Hsrc).
    rewrite Hrun in Hrun1. injection Hrun1 as <- <- <-. split.
    - intros c Hc Hseen. pose proof (Hopc c Hc) as A. rewrite Hseen in A.
      destruct (seen_opcode t' c); [reflexivity|]. simpl in A. lia.
    - intros a Ha Hseen. pose proof (Hsrc a Ha) as A. rewrite Hseen in A.
      destruct (seen_source t' a); [reflexivity|]. simpl in A. lia. }
  (* where a session gets after an occurrence: the bit set by the step
     is still set at the end *)
  assert (forall ops1 c ops2 os1 t1 e1 os t evs,
     ops = ops1 ++ Feed c :: ops2 ->
     run_session ops1 (trace_init now) = Some (os1, t1, e1) ->
     run_session ops (trace_init now) = Some (os, t, evs) ->
     is_uint8 c /\ trace_ok t1 /\
     forall st t1' ev, UpdateTrace c t1 = Some (st, t1', ev) ->
       (forall c', is_uint8 c' -> seen_opcode t1' c' = true -> seen_opcode t c' = true) /\
       (forall a, 0 <= a < 32 -> seen_source t1' a = true -> seen_source t a = true))
    as Hafter.
  { intros ops1 c ops2 os1 t1 e1 os t evs Hsplit Hrun1 Hrun.
    rewrite Hsplit in Hops. apply Forall_app in Hops as [Hops1 Hops2].
    apply Forall_cons in Hops2 as [Hc Hops2].
    destruct (run_session_inv ops1 (trace_init now) (trace_init_ok now) Hops1)
      as (os1' & t1' & e1' & Hrun1' & Hok1 & _).
    rewrite Hrun1 in Hrun1'. injection Hrun1' as <- <- <-.
    split; [exact Hc|]. split; [exact Hok1|].
    intros st ta ev Hstep.
    destruct (UpdateTrace_step c t1 Hok1 Hc) as (st' & ta' & ev' & Hstep' & Hoka & _).
    rewrite Hstep in Hstep'. injection Hstep' as <- <- <-.
    rewrite Hsplit, (run_session_app _ _ _ _ _ _ Hrun1) in Hrun.
    rewrite (run_session_feed _ _ _ _ _ _ Hstep) in Hrun.
    destruct (run_session ops2 (set_state st ta)) as [[[os2 t2] e2]|] eqn:Hrun2;
      [|discriminate].
    injection Hrun as _ <- _.
    exact (Hmono (set_state st ta) ops2 os2 t2 e2 (trace_ok_set_state st ta Hoka)
             Hops2 Hrun2). }
  split_all.
  - destruct (run_session_inv ops (trace_init now) (trace_init_ok now) Hops)
      as (os & t & evs & Hrun & _ & _ & _ & Hopc & Hsrc).
    destruct (trace_init_nothing_seen now) as [Hno Hns].
    assert (forall c, is_uint8 c ->
              count_events (is_unknown_opcode_warning c) evs = Nat.b2n (seen_opcode t c))
      as Hcount1.
    { intros c Hc. rewrite <- (Hopc c Hc), Hno. simpl. lia. }
    assert (forall a, 0 <= a < 32 ->
              count_events (is_unsupported_source_warning a) evs
              = Nat.b2n (seen_source t a)) as Hcount2.
    { intros a Ha. rewrite <- (Hsrc a Ha), Hns. simpl. lia. }
    exists os, t, evs. split; [exact Hrun|]. split; [exact Hcount1|].
    split; [exact Hcount2|]. split.
    + intros ops1 c ops2 os1 t1 e1 Hsplit Hrun1 Est Hu.
      destruct (Hafter ops1 c ops2 os1 t1 e1 os t evs Hsplit Hrun1 Hrun)
        as (Hc & Hok1 & Hkeep).
      destruct (unknown_opcode_recorded c t1 Hok1 Hc Est Hu)
        as (st & t1' & ev & Hstep & Hseen & _).
      rewrite (Hcount1 c Hc), (proj1 (Hkeep st t1' ev Hstep) c Hc Hseen). reflexivity.
    + intros ops1 c ops2 os1 t1 e1 Hsplit Hrun1 Est Hsw Htgt.
      destruct (Hafter ops1 c ops2 os1 t1 e1 os t evs Hsplit Hrun1 Hrun)
        as (Hc & Hok1 & Hkeep).
      destruct (unknown_source_recorded c t1 Hok1 Hc Est Hsw Htgt)
        as (st & t1' & ev & Hstep & Hseen).
      assert (0 <= TRACE_OP_GET_SW_SOURCE_ADDR c < 32) as Ha.
      { unfold TRACE_OP_GET_SW_SOURCE_ADDR. rewrite Z.shiftr_div_pow2 by lia.
        pose proof (uint8_div8 c Hc). change (2 ^ 3) with 8. lia. }
      rewrite (Hcount2 _ Ha), (proj2 (Hkeep st t1' ev Hstep) _ Ha Hseen). reflexivity.
  - intros t c Hok Hc Est Hu.
    destruct (unknown_opcode_recorded c t Hok Hc Est Hu)
      as (st & t' & evs & Hstep & Hseen & _).
    exists st, t', evs. auto.
  - intros t c Hok Hc Est Hsw Htgt.
    apply unknown_source_recorded; assumption.
  - exact Hmono.
Qed.

Lemma warnings_logged_once_witness :
  Forall session_op_ok
    [Feed 0x04; Feed 0x04; Feed 0x0a; Feed 0; Feed 0; Feed 0x0a; Heuristic 20; Feed 0x04] /\
  exists os t evs,
    run_session
      [Feed 0x04; Feed 0x04; Feed 0x0a; Feed 0; Feed 0; Feed 0x0a; Heuristic 20; Feed 0x04]
      (trace_init 0) = Some (os, t, evs) /\
    count_events (is_unknown_opcode_warning 0x04) evs = 1%nat /\
    count_events (is_unsupported_source_warning (TRACE_OP_GET_SW_SOURCE_ADDR 0x0a)) evs
    = 1%nat.
Proof.
  assert (Forall session_op_ok
            [Feed 0x04; Feed 0x04; Feed 0x0a; Feed 0; Feed 0; Feed 0x0a; Heuristic 20;
             Feed 0x04]) as Hops
    by (repeat constructor; unfold is_uint8; lia).
  split; [exact Hops|].
  destruct (proj1 (warnings_logged_once 0 _ Hops))
    as (os & t & evs & Hrun & _ & _ & Hopc & Hsrc).
  exists os, t, evs. split; [exact Hrun|]. split.
  - exact (Hopc [] 0x04
             [Feed 0x04; Feed 0x0a; Feed 0; Feed 0; Feed 0x0a; Heuristic 20; Feed 0x04]
             [] (trace_init 0) [] eq_refl eq_refl eq_refl eq_refl).
  - exact (Hsrc [Feed 0x04; Feed 0x04] 0x0a
             [Feed 0; Feed 0; Feed 0x0a; Heuristic 20; Feed 0x04]
             _ _ _ eq_refl eq_refl eq_refl eq_refl eq_refl).
Defined.

(** * The claim about the serial number *)

Example serial_odd_length :
  ConvertSerialNumberTextToBinary 4 [97; 98; 99] [0; 0; 0; 0]
  = Some ([0xab; 0x0c; 0; 0], 2).
Proof. reflexivity. Qed.

Example serial_not_hexadecimal :
  ConvertSerialNumberTextToBinary 4 [122; 122; 49; 103; 45; 49] [0; 0; 0; 0]
  = Some ([0; 1; 255; 0], 3).
Proof. reflexivity. Qed.

Example serial_too_long :
  ConvertSerialNumberTextToBinary 2 [49; 50; 51; 52; 53; 54; 55] [0; 0]
  = Some ([0x12; 0x34], 2).
Proof. reflexivity. Qed.

(** C8: for every text and a destination of [STLINK_SERIAL_MAX_SIZE]
    bytes the conversion ends without an access outside the text (with its
    terminator) or outside the destination; it stores [length] bytes, at
    most the maximum, and leaves the rest of the destination alone; and,
    while the 32-bit index does not wrap, it stops after the chunk that
    holds the last character of the text (for a text of odd length: the
    odd character and the terminator) or when the destination is full:
    [length] is the smaller of ceil(strlen / 2) and the maximum. *)
Theorem serial_conversion_is_bounded MAX text buf :
  Z.of_nat (length buf) = MAX ->
  exists out len,
    ConvertSerialNumberTextToBinary MAX text buf = Some (out, len) /\
    length out = length buf /\
    0 <= len <= MAX /\
    (forall i, (Z.to_nat len <= i)%nat -> out !! i = buf !! i) /\
    (strlen text + 1 < 2 ^ 32 \/ 2 * MAX < 2 ^ 32 ->
     len = Z.min ((strlen text + 1) / 2) MAX).
Proof.
  intros Hbuf. unfold ConvertSerialNumberTextToBinary.
  destruct (convert_loop_safe MAX text 0 0 buf) as (out & len & Hrun & Hlen & Hlo & Hhi & Hrest);
    [lia | lia | exact Hbuf |].
  exists out, len. split; [exact Hrun|]. split; [exact Hlen|]. split; [lia|]. split.
  - intros i Hi. apply Hrest. right. exact Hi.
  - intros Hwrap. apply (convert_loop_count MAX text 0 buf out len); auto; try lia.
    pose proof (strlen_range text). Z.div_mod_to_equations. lia.
Qed.

Lemma serial_conversion_is_bounded_witness :
  Z.of_nat (length [0; 0; 0; 0]) = 4 /\
  exists out len,
    ConvertSerialNumberTextToBinary 4 [97; 98; 99] [0; 0; 0; 0] = Some (out, len) /\
    length out = length [0; 0; 0; 0] /\
    0 <= len <= 4 /\
    (forall i, (Z.to_nat len <= i)%nat -> out !! i = [0; 0; 0; 0] !! i) /\
    (strlen [97; 98; 99] + 1 < 2 ^ 32 \/ 2 * 4 < 2 ^ 32 ->
     len = Z.min ((strlen [97; 98; 99] + 1) / 2) 4).
Proof.
  split; [reflexivity|].
  apply (serial_conversion_is_bounded 4 [97; 98; 99] [0; 0; 0; 0]). reflexivity.
Defined.

(** * The claims about the session driver *)

Lemma not_teardown_calls evs c :
  Forall not_teardown evs -> c ∈ calls_of evs -> is_teardown c = false.
Proof.
  induction 1 as [|e evs He Hevs IH]; simpl.
  - intros Hin. inversion Hin.
  - destruct e; simpl; auto.
    intros Hin. apply elem_of_cons in Hin as [->|Hin]; auto.
Qed.

(** The five aborts that follow a successful [stlink_open_usb], and the
    run that reaches the end, against the scripted probe: only the last one
    calls [stlink_trace_disable] and [stlink_close]. *)
Example exits_of_main :
  run_main default_settings
    (with_probe {| chip_id := 0; version_flags := 1; chip_flags := 4 |} sample_world)
  = (Ret APP_RESULT_STLINK_MISSING_DEVICE, [stlink_open_usb]) /\
  run_main default_settings
    (with_probe {| chip_id := 0x413; version_flags := 0; chip_flags := 4 |} sample_world)
  = (Ret APP_RESULT_STLINK_UNSUPPORTED_LINK, [stlink_open_usb]) /\
  run_main default_settings
    (with_probe {| chip_id := 0x413; version_flags := 1; chip_flags := 0 |} sample_world)
  = (Ret APP_RESULT_STLINK_UNSUPPORTED_DEVICE, [stlink_open_usb]) /\
  run_main default_settings (failing_trace_enable sample_world)
  = (Ret APP_RESULT_STLINK_STATE_ERROR,
     [stlink_open_usb; stlink_force_debug; stlink_reset; stlink_trace_enable]) /\
  run_main default_settings (failing_run sample_world)
  = (Ret APP_RESULT_STLINK_STATE_ERROR,
     [stlink_open_usb; stlink_force_debug; stlink_reset; stlink_trace_enable;
      stlink_run]) /\
  run_main default_settings sample_world
  = (Ret APP_RESULT_SUCCESS,
     [stlink_open_usb; stlink_force_debug; stlink_reset; stlink_trace_enable;
      stlink_run; stlink_trace_read; stlink_trace_disable; stlink_close]).
Proof. split_all; vm_compute; reflexivity. Qed.

(** C3: what the code does on the exits with an error.  Whenever [main]
    returns an exit code other than success, and so on each of the aborts
    for a missing device, an unsupported link, an unsupported device, a
    failure to enable tracing and a failure to run, it has called neither
    [stlink_trace_disable] nor [stlink_close]: the handle opened by
    [stlink_open_usb] is not released, and after a failed [stlink_run]
    trace capture is left on. *)
Theorem aborts_skip_teardown {W} H (D : stlink_driver W) settings fuel w code w' evs :
  main H D (Some settings) fuel w = (Ret code, w', evs) ->
  code <> APP_RESULT_SUCCESS ->
  Forall not_teardown evs /\
  (stlink_trace_disable ∉ calls_of evs) /\
  (stlink_close ∉ calls_of evs).
Proof.
  intros Hrun Hcode.
  pose proof (main_aborts_without_teardown H D (Some settings) fuel w code w' evs
                Hrun Hcode) as Hq.
  split; [exact Hq|]. split; intros Hin;
    apply (not_teardown_calls _ _ Hq) in Hin; discriminate.
Qed.

Lemma aborts_skip_teardown_witness :
  (abort_run
   = (Ret APP_RESULT_STLINK_STATE_ERROR, world_of abort_run, events_of abort_run) /\
   APP_RESULT_STLINK_STATE_ERROR <> APP_RESULT_SUCCESS) /\
  Forall not_teardown (events_of abort_run) /\
  (stlink_trace_disable ∉ calls_of (events_of abort_run)) /\
  (stlink_close ∉ calls_of (events_of abort_run)).
Proof.
  assert (abort_run
          = (Ret APP_RESULT_STLINK_STATE_ERROR, world_of abort_run, events_of abort_run))
    as Hrun by (vm_compute; reflexivity).
  assert (APP_RESULT_STLINK_STATE_ERROR <> APP_RESULT_SUCCESS) as Hcode
    by discriminate.
  split; [split; assumption|].
  exact (aborts_skip_teardown sample_stlink_h scripted default_settings 10
           (failing_run sample_world) APP_RESULT_STLINK_STATE_ERROR
           (world_of abort_run) (events_of abort_run) Hrun Hcode).
Defined.

(** Line 305 has a value, the quotient it is meant to compute, when the
    product fits an [int] and is not below the trace frequency. *)
Lemma prescaler_for_exact H core :
  0 < STLINK_TRACE_FREQUENCY H ->
  STLINK_TRACE_FREQUENCY H <= core * 1000000 <= 2 ^ 31 - 1 ->
  prescaler_for H core = core * 1000000 / STLINK_TRACE_FREQUENCY H - 1.
Proof.
  intros Hf Hrange. unfold prescaler_for, prescaler_defined, int_range.
  rewrite Z.quot_div_nonneg by lia.
  assert (1 <= core * 1000000 / STLINK_TRACE_FREQUENCY H <= core * 1000000) as Hq.
  { split.
    - apply Z.div_le_lower_bound; lia.
    - apply Z.div_le_upper_bound; [lia|]. nia. }
  rewrite (proj2 (Z.leb_le (- 2 ^ 31) (core * 1000000))) by lia.
  rewrite (proj2 (Z.ltb_lt (core * 1000000) (2 ^ 31))) by lia.
  rewrite (proj2 (Z.eqb_neq (STLINK_TRACE_FREQUENCY H) 0)) by lia.
  rewrite (proj2 (Z.leb_le (- 2 ^ 31) (core * 1000000 / STLINK_TRACE_FREQUENCY H))) by lia.
  rewrite (proj2 (Z.ltb_lt (core * 1000000 / STLINK_TRACE_FREQUENCY H) (2 ^ 31))) by lia.
  rewrite (proj2 (Z.leb_le (- 2 ^ 31) (core * 1000000 / STLINK_TRACE_FREQUENCY H - 1)))
    by lia.
  rewrite (proj2 (Z.ltb_lt (core * 1000000 / STLINK_TRACE_FREQUENCY H - 1) (2 ^ 31)))
    by lia.
  cbn [andb negb]. apply wrap32_uint32. unfold is_uint32. lia.
Qed.

(** Lines 310-311 report the clock rounded to MHz when it fits 32 bits. *)
Lemma system_clock_speed_mhz_exact H p :
  0 < STLINK_TRACE_FREQUENCY H -> 0 <= p ->
  (p + 1) * STLINK_TRACE_FREQUENCY H + 500000 < 2 ^ 32 ->
  system_clock_speed_mhz H p
  = ((p + 1) * STLINK_TRACE_FREQUENCY H + 500000) / 1000000.
Proof.
  intros Hf Hp Hfit. unfold system_clock_speed_mhz.
  assert (p + 1 <= (p + 1) * STLINK_TRACE_FREQUENCY H) by nia.
  assert (STLINK_TRACE_FREQUENCY H <= (p + 1) * STLINK_TRACE_FREQUENCY H) by nia.
  rewrite (wrap32_uint32 (p + 1)) by (unfold is_uint32; lia).
  rewrite (wrap32_uint32 (STLINK_TRACE_FREQUENCY H)) by (unfold is_uint32; lia).
  rewrite (wrap32_uint32 (_ * _)) by (unfold is_uint32; lia).
  rewrite wrap32_uint32 by (unfold is_uint32; lia). reflexivity.
Qed.

(** C10, as stated, fails in two places, here with a trace frequency of
    2 MHz.  For a clock of 1 MHz every step of line 305 stays inside
    [int]: the product is 1000000, the quotient 0 and the difference -1,
    and its conversion to [uint32_t] writes the word 2^32 - 1.  And a
    prescaler of 2147 read back stands for 4296 MHz, while the unsigned
    product of line 310 wraps and 1 MHz is reported. *)
Lemma prescaler_outside_32_bits :
  (prescaler_defined sample_stlink_h 1 = true /\
   acpr_view (events_of (EnableTrace sample_stlink_h scripted
                            (with_clock 1 default_settings) sample_world))
   = [Wrote 4294967295; Read_back 35; Reported 72] /\
   1 * 1000000 / STLINK_TRACE_FREQUENCY sample_stlink_h - 1 = -1) /\
  (acpr_view (events_of (EnableTrace sample_stlink_h scripted default_settings
                            (quiet_world (Some good_probe) 2147 [])))
   = [Read_back 2147; Reported 1] /\
   ((2147 + 1) * STLINK_TRACE_FREQUENCY sample_stlink_h + 500000) / 1000000 = 4296).
Proof. split_all; vm_compute; reflexivity. Qed.

(** C10 (amended): a run of [EnableTrace] that reaches its end writes to
    the prescaler register only if a core clock was given, and then once,
    one word; when the product core_clock_mhz * 1000000 is at least the
    trace frequency and at most 2^31 - 1, the largest [int], that word is
    core_clock_mhz * 1000000 / trace_frequency - 1.  (Above 2^31 - 1 the
    product of line 305 overflows [int], the C expression has no value
    and nothing is said about the word.)  It then reads the register once,
    whether or not a clock was given, and for the word p read it warns
    that the clock is not configured when p is 0 and otherwise reports the
    clock computed by lines 310-311, which is (p + 1) * trace_frequency
    rounded to MHz when (p + 1) * trace_frequency + 500000 is below
    2^32. *)
Theorem prescaler_written_and_read_back {W} H (D : stlink_driver W) settings w w' evs :
  0 < STLINK_TRACE_FREQUENCY H ->
  wrap32 (DCB_DHCSR H) <> TPI_ACPR -> wrap32 (DCB_DEMCR H) <> TPI_ACPR ->
  EnableTrace H D settings w = (Ret true, w', evs) ->
  exists word p,
    is_uint32 word /\ is_uint32 p /\
    acpr_view evs =
      (if core_frequency_mhz settings =? 0 then [] else [Wrote word])
      ++ [Read_back p;
          if p =? 0 then Warned_unconfigured
          else Reported (system_clock_speed_mhz H p)] /\
    (STLINK_TRACE_FREQUENCY H <= core_frequency_mhz settings * 1000000 <= 2 ^ 31 - 1 ->
     word = core_frequency_mhz settings * 1000000 / STLINK_TRACE_FREQUENCY H - 1) /\
    ((p + 1) * STLINK_TRACE_FREQUENCY H + 500000 < 2 ^ 32 ->
     system_clock_speed_mhz H p
     = ((p + 1) * STLINK_TRACE_FREQUENCY H + 500000) / 1000000).
Proof.
  intros Hf Hd1 Hd2 Hrun.
  destruct (EnableTrace_acpr H D settings w w' evs Hd1 Hd2 Hrun) as (p & Hp & Hview).
  exists (prescaler_for H (core_frequency_mhz settings)), p.
  split.
  { unfold prescaler_for. destruct (prescaler_defined _ _); apply is_uint32_wrap32. }
  split; [exact Hp|]. split; [exact Hview|]. split.
  - apply prescaler_for_exact, Hf.
  - apply system_clock_speed_mhz_exact; [exact Hf | apply Hp].
Qed.

Lemma prescaler_written_and_read_back_witness :
  (0 < STLINK_TRACE_FREQUENCY sample_stlink_h /\
   wrap32 (DCB_DHCSR sample_stlink_h) <> TPI_ACPR /\
   wrap32 (DCB_DEMCR sample_stlink_h) <> TPI_ACPR /\
   enable_run = (Ret true, world_of enable_run, events_of enable_run)) /\
  exists word p,
    is_uint32 word /\ is_uint32 p /\
    acpr_view (events_of enable_run) =
      (if 72 =? 0 then [] else [Wrote word])
      ++ [Read_back p;
          if p =? 0 then Warned_unconfigured
          else Reported (system_clock_speed_mhz sample_stlink_h p)] /\
    (STLINK_TRACE_FREQUENCY sample_stlink_h <= 72 * 1000000 <= 2 ^ 31 - 1 ->
     word = 72 * 1000000 / STLINK_TRACE_FREQUENCY sample_stlink_h - 1) /\
    ((p + 1) * STLINK_TRACE_FREQUENCY sample_stlink_h + 500000 < 2 ^ 32 ->
     system_clock_speed_mhz sample_stlink_h p
     = ((p + 1) * STLINK_TRACE_FREQUENCY sample_stlink_h + 500000) / 1000000).
Proof.
  assert (0 < STLINK_TRACE_FREQUENCY sample_stlink_h) as Hf by reflexivity.
  assert (wrap32 (DCB_DHCSR sample_stlink_h) <> TPI_ACPR) as Hd1 by discriminate.
  assert (wrap32 (DCB_DEMCR sample_stlink_h) <> TPI_ACPR) as Hd2 by discriminate.
  assert (enable_run = (Ret true, world_of enable_run, events_of enable_run)) as Hrun
    by (vm_compute; reflexivity).
  split; [split_all; assumption|].
  exact (prescaler_written_and_read_back sample_stlink_h scripted
           (with_clock 72 default_settings) sample_world
           (world_of enable_run) (events_of enable_run) Hf Hd1 Hd2 Hrun).
Defined.

(** * Further properties of the code *)

(** ** The classifiers *)

(** X1: the classes that [UpdateTraceIdle] tests for do not overlap,
    except where one is a case of another: a source header is a software
    or a hardware source header and not both; the target source byte 0x01
    is a software source header; no byte is both a source header and a
    timestamp or extension header, or both a timestamp and an extension
    header; and the overflow byte is a local timestamp header. *)
Theorem classifiers_partition c :
  is_uint8 c ->
  TRACE_OP_IS_SOURCE c = xorb (TRACE_OP_IS_SW_SOURCE c) (TRACE_OP_IS_HW_SOURCE c) /\
  (TRACE_OP_IS_SW_SOURCE c && TRACE_OP_IS_HW_SOURCE c = false) /\
  (TRACE_OP_IS_TARGET_SOURCE c = true -> TRACE_OP_IS_SW_SOURCE c = true) /\
  (TRACE_OP_IS_SOURCE c = true ->
   TRACE_OP_IS_LOCAL_TIME c = false /\ TRACE_OP_IS_GLOBAL_TIME c = false /\
   TRACE_OP_IS_EXTENSION c = false /\ TRACE_OP_IS_OVERFLOW c = false) /\
  (TRACE_OP_IS_EXTENSION c = true ->
   TRACE_OP_IS_LOCAL_TIME c = false /\ TRACE_OP_IS_GLOBAL_TIME c = false) /\
  (TRACE_OP_IS_LOCAL_TIME c && TRACE_OP_IS_GLOBAL_TIME c = false) /\
  (TRACE_OP_IS_OVERFLOW c = true -> TRACE_OP_IS_LOCAL_TIME c = true).
Proof.
  intros Hc.
  pose proof (uint8_cases
    (fun c =>
       Bool.eqb (TRACE_OP_IS_SOURCE c)
                (xorb (TRACE_OP_IS_SW_SOURCE c) (TRACE_OP_IS_HW_SOURCE c))
       && negb (TRACE_OP_IS_SW_SOURCE c && TRACE_OP_IS_HW_SOURCE c)
       && implb (TRACE_OP_IS_TARGET_SOURCE c) (TRACE_OP_IS_SW_SOURCE c)
       && implb (TRACE_OP_IS_SOURCE c)
            (negb (TRACE_OP_IS_LOCAL_TIME c) && negb (TRACE_OP_IS_GLOBAL_TIME c)
             && negb (TRACE_OP_IS_EXTENSION c) && negb (TRACE_OP_IS_OVERFLOW c))
       && implb (TRACE_OP_IS_EXTENSION c)
            (negb (TRACE_OP_IS_LOCAL_TIME c) && negb (TRACE_OP_IS_GLOBAL_TIME c))
       && negb (TRACE_OP_IS_LOCAL_TIME c && TRACE_OP_IS_GLOBAL_TIME c)
       && implb (TRACE_OP_IS_OVERFLOW c) (TRACE_OP_IS_LOCAL_TIME c))
    eq_refl c Hc) as Hall.
  simpl in Hall.
  destruct (TRACE_OP_IS_SOURCE c), (TRACE_OP_IS_SW_SOURCE c),
    (TRACE_OP_IS_HW_SOURCE c), (TRACE_OP_IS_TARGET_SOURCE c),
    (TRACE_OP_IS_LOCAL_TIME c), (TRACE_OP_IS_GLOBAL_TIME c),
    (TRACE_OP_IS_EXTENSION c), (TRACE_OP_IS_OVERFLOW c);
    simpl in Hall; try discriminate Hall; split_all; auto; discriminate.
Qed.

Lemma classifiers_partition_witness :
  is_uint8 0x17 /\
  TRACE_OP_IS_SOURCE 0x17
  = xorb (TRACE_OP_IS_SW_SOURCE 0x17) (TRACE_OP_IS_HW_SOURCE 0x17).
Proof.
  assert (is_uint8 0x17) as Hc by (unfold is_uint8; lia).
  split; [exact Hc|]. exact (proj1 (classifiers_partition 0x17 Hc)).
Defined.

(** ** Packets of more than one byte *)

Lemma step_skip_frame c t :
  state t = TRACE_STATE_SKIP_FRAME ->
  UpdateTrace c t =
    Some (continuation_state c,
          set_count_raw_bytes (wrap32 (count_raw_bytes t + 1)) t, []).
Proof. intros Est. unfold_decoder. simpl. rewrite Est. reflexivity. Qed.

Lemma step_skip_4 c t :
  state t = TRACE_STATE_SKIP_4 ->
  UpdateTrace c t =
    Some (TRACE_STATE_SKIP_3,
          set_count_raw_bytes (wrap32 (count_raw_bytes t + 1)) t, []).
Proof. intros Est. unfold_decoder. simpl. rewrite Est. reflexivity. Qed.

Lemma step_skip_3 c t :
  state t = TRACE_STATE_SKIP_3 ->
  UpdateTrace c t =
    Some (TRACE_STATE_SKIP_2,
          set_count_raw_bytes (wrap32 (count_raw_bytes t + 1)) t, []).
Proof. intros Est. unfold_decoder. simpl. rewrite Est. reflexivity. Qed.

Lemma continuation_state_continues c :
  continuation_state c =
    if continues c then TRACE_STATE_SKIP_FRAME else TRACE_STATE_IDLE.
Proof. reflexivity. Qed.

(** A time header is neither 0x01 nor a source header. *)
Lemma time_header_not_source c :
  is_uint8 c ->
  TRACE_OP_IS_LOCAL_TIME c || TRACE_OP_IS_GLOBAL_TIME c = true ->
  TRACE_OP_IS_TARGET_SOURCE c = false /\ TRACE_OP_IS_SOURCE c = false.
Proof.
  intros Hc Ht.
  pose proof (uint8_cases
    (fun c => implb (TRACE_OP_IS_LOCAL_TIME c || TRACE_OP_IS_GLOBAL_TIME c)
                    (negb (TRACE_OP_IS_TARGET_SOURCE c) && negb (TRACE_OP_IS_SOURCE c)))
    eq_refl c Hc) as Hall.
  simpl in Hall. rewrite Ht in Hall. simpl in Hall.
  apply andb_true_iff in Hall as [H1 H2].
  apply negb_true_iff in H1, H2. auto.
Qed.

Lemma step_idle_time c t :
  is_uint8 c -> state t = TRACE_STATE_IDLE ->
  TRACE_OP_IS_LOCAL_TIME c || TRACE_OP_IS_GLOBAL_TIME c = true ->
  UpdateTrace c t =
    Some (continuation_state c,
          set_count_time_packets (wrap32 (count_time_packets t + 1))
            (set_count_raw_bytes (wrap32 (count_raw_bytes t + 1)) t), []).
Proof.
  intros Hc Est Ht. destruct (time_header_not_source c Hc Ht) as [Hnt Hns].
  unfold_decoder. simpl. rewrite Est, Hnt, Hns, Ht. reflexivity.
Qed.

(** In SkipFrame the bytes with the continuation bit are dropped one by
    one, on a record written out field by field. *)
Lemma feed_continued bs s cc raw td tp ov er uo us :
  is_uint32 raw -> Forall (fun c => continues c = true) bs ->
  feed bs (mk_trace s cc TRACE_STATE_SKIP_FRAME raw td tp ov er uo us)
  = Some (tt, mk_trace s cc TRACE_STATE_SKIP_FRAME
                (wrap32 (raw + Z.of_nat (length bs))) td tp ov er uo us, []).
Proof.
  intros Hraw Hbs. revert raw Hraw.
  induction Hbs as [|c bs Hc Hbs IH]; intros raw Hraw.
  - simpl. unfold_M. rewrite Z.add_0_r, wrap32_uint32 by exact Hraw. reflexivity.
  - rewrite (feed_cons _ _ _ _ _ _
               (step_skip_frame c (mk_trace s cc TRACE_STATE_SKIP_FRAME raw td tp ov er uo us)
                                eq_refl)).
    rewrite continuation_state_continues, Hc.
    unfold set_state, set_count_raw_bytes.
    cbn [start_time configuration_checked state count_raw_bytes count_target_data
         count_time_packets count_overflow count_error unknown_opcodes
         unknown_sources].
    rewrite IH by apply is_uint32_wrap32.
    rewrite wrap32_succ. cbn [length]. rewrite Nat2Z.inj_succ.
    replace (Z.succ (Z.of_nat (length bs))) with (1 + Z.of_nat (length bs)) by lia.
    reflexivity.
Qed.

(** The rest of a frame, from SkipFrame to Idle. *)
Lemma feed_frame_tail bs c t :
  state t = TRACE_STATE_SKIP_FRAME -> is_uint32 (count_raw_bytes t) ->
  Forall (fun b => continues b = true) bs -> continues c = false ->
  exists t',
    feed (bs ++ [c]) t = Some (tt, t', []) /\
    state t' = TRACE_STATE_IDLE /\
    count_raw_bytes t' = wrap32 (count_raw_bytes t + Z.of_nat (length bs) + 1) /\
    same_counts t t' /\ unknown_sources t' = unknown_sources t /\
    start_time t' = start_time t /\
    configuration_checked t' = configuration_checked t.
Proof.
  intros Est Hraw Hbs Hc.
  destruct t as [s cc st raw td tp ov er uo us]. simpl in Est, Hraw. subst st.
  pose proof (feed_continued bs s cc raw td tp ov er uo us Hraw Hbs) as Hrun.
  rewrite (feed_app _ _ _ _ _ Hrun).
  pose proof (step_skip_frame c
                (mk_trace s cc TRACE_STATE_SKIP_FRAME
                   (wrap32 (raw + Z.of_nat (length bs))) td tp ov er uo us)
                eq_refl) as Hstep.
  rewrite (feed_cons _ _ _ _ _ _ Hstep).
  rewrite continuation_state_continues, Hc.
  eexists. split; [reflexivity|]. unfold same_counts. simpl.
  split_all; try reflexivity.
  unfold wrap32. rewrite Z.add_mod_idemp_l by lia. reflexivity.
Qed.

(** X2: in the SkipFrame state the decoder drops every byte that has the
    continuation bit and goes back to Idle with the first byte that has
    not; it logs and prints nothing and changes no field of the record but
    the state and the raw-byte counter, which counts the bytes. *)
Theorem skip_frame_runs_to_the_last_byte bs c t :
  state t = TRACE_STATE_SKIP_FRAME -> is_uint32 (count_raw_bytes t) ->
  Forall (fun b => continues b = true) bs -> continues c = false ->
  (exists t1, feed bs t = Some (tt, t1, []) /\ state t1 = TRACE_STATE_SKIP_FRAME) /\
  exists t',
    feed (bs ++ [c]) t = Some (tt, t', []) /\
    state t' = TRACE_STATE_IDLE /\
    count_raw_bytes t' = wrap32 (count_raw_bytes t + Z.of_nat (length bs) + 1) /\
    same_counts t t' /\ unknown_sources t' = unknown_sources t /\
    start_time t' = start_time t /\
    configuration_checked t' = configuration_checked t.
Proof.
  intros Est Hraw Hbs Hc. split.
  - destruct t as [s cc st raw td tp ov er uo us]. simpl in Est, Hraw. subst st.
    eexists. split; [apply feed_continued; assumption | reflexivity].
  - apply feed_frame_tail; assumption.
Qed.

Lemma skip_frame_runs_to_the_last_byte_witness :
  (state (set_state TRACE_STATE_SKIP_FRAME (trace_init 0)) = TRACE_STATE_SKIP_FRAME /\
   is_uint32 (count_raw_bytes (set_state TRACE_STATE_SKIP_FRAME (trace_init 0))) /\
   Forall (fun b => continues b = true) [0x80; 0xff] /\ continues 0x7f = false) /\
  exists t',
    feed ([0x80; 0xff] ++ [0x7f]) (set_state TRACE_STATE_SKIP_FRAME (trace_init 0))
      = Some (tt, t', []) /\
    state t' = TRACE_STATE_IDLE.
Proof.
  assert (is_uint32 (count_raw_bytes (set_state TRACE_STATE_SKIP_FRAME (trace_init 0))))
    as Hraw by (unfold is_uint32; simpl; lia).
  assert (Forall (fun b => continues b = true) [0x80; 0xff]) as Hbs
    by (repeat constructor).
  split; [split_all; auto|].
  destruct (proj2 (skip_frame_runs_to_the_last_byte [0x80; 0xff] 0x7f
                     (set_state TRACE_STATE_SKIP_FRAME (trace_init 0))
                     eq_refl Hraw Hbs eq_refl)) as (t' & Hrun & Est & _).
  exists t'. split; assumption.
Defined.

(** X3: a timestamp packet, of one byte or with continuation bytes, fed to
    the decoder in the Idle state is consumed to its last byte, brings the
    decoder back to Idle and counts as one time packet, whatever its
    length; nothing is logged or printed and no other counter or set
    changes, the raw-byte counter apart. *)
Theorem timestamp_packet_counts_once hdr body t :
  trace_ok t -> state t = TRACE_STATE_IDLE -> is_uint8 hdr ->
  TRACE_OP_IS_LOCAL_TIME hdr || TRACE_OP_IS_GLOBAL_TIME hdr = true ->
  continued_frame (hdr :: body) ->
  exists t',
    feed (hdr :: body) t = Some (tt, t', []) /\
    state t' = TRACE_STATE_IDLE /\
    count_time_packets t' = wrap32 (count_time_packets t + 1) /\
    count_raw_bytes t' = wrap32 (count_raw_bytes t + 1 + Z.of_nat (length body)) /\
    count_target_data t' = count_target_data t /\
    count_overflow t' = count_overflow t /\
    count_error t' = count_error t /\
    unknown_opcodes t' = unknown_opcodes t /\
    unknown_sources t' = unknown_sources t.
Proof.
  intros Hok Est Hc Htime (init & last & Hsplit & Hinit & Hlast).
  pose proof (step_idle_time hdr t Hc Est Htime) as Hstep.
  rewrite continuation_state_continues in Hstep.
  rewrite (feed_cons _ _ _ _ _ _ Hstep).
  destruct init as [|c0 init].
  - injection Hsplit as -> ->. rewrite Hlast.
    eexists. split; [reflexivity|]. simpl. split_all; try reflexivity.
    f_equal. lia.
  - injection Hsplit as -> ->. apply Forall_cons in Hinit as [Hc0 Hinit].
    rewrite Hc0.
    destruct (feed_frame_tail init last
                (set_state TRACE_STATE_SKIP_FRAME
                   (set_count_time_packets (wrap32 (count_time_packets t + 1))
                      (set_count_raw_bytes (wrap32 (count_raw_bytes t + 1)) t)))
                eq_refl (is_uint32_wrap32 _) Hinit Hlast)
      as (t' & Hrun & Est' & Hraw & (Htd & Htp & Hov & Her & Huo) & Hus & _).
    exists t'. rewrite Hrun. split; [reflexivity|]. simpl in *.
    split_all; auto.
    rewrite Hraw, length_app. simpl.
    unfold wrap32. rewrite <- Z.add_assoc, Z.add_mod_idemp_l by lia. f_equal. lia.
Qed.

Lemma timestamp_packet_counts_once_witness :
  (trace_ok (trace_init 0) /\ state (trace_init 0) = TRACE_STATE_IDLE /\
   is_uint8 0xC0 /\
   TRACE_OP_IS_LOCAL_TIME 0xC0 || TRACE_OP_IS_GLOBAL_TIME 0xC0 = true /\
   continued_frame (0xC0 :: [0x81; 0x02])) /\
  exists t',
    feed (0xC0 :: [0x81; 0x02]) (trace_init 0) = Some (tt, t', []) /\
    state t' = TRACE_STATE_IDLE /\
    count_time_packets t' = wrap32 (count_time_packets (trace_init 0) + 1).
Proof.
  assert (is_uint8 0xC0) as Hc by (unfold is_uint8; lia).
  assert (continued_frame (0xC0 :: [0x81; 0x02])) as Hframe.
  { exists [0xC0; 0x81], 0x02. split; [reflexivity|].
    split; [repeat constructor | reflexivity]. }
  split; [split_all; auto using trace_init_ok|].
  destruct (timestamp_packet_counts_once 0xC0 [0x81; 0x02] (trace_init 0)
              (trace_init_ok 0) eq_refl Hc eq_refl Hframe)
    as (t' & Hrun & Est & Htp & _).
  exists t'. split_all; assumption.
Defined.

Lemma sw_hw_exclusive c :
  TRACE_OP_IS_SW_SOURCE c = true -> TRACE_OP_IS_HW_SOURCE c = true -> False.
Proof.
  unfold TRACE_OP_IS_SW_SOURCE, TRACE_OP_IS_HW_SOURCE.
  intros Hsw Hhw. apply andb_true_iff in Hsw as [_ Hsw], Hhw as [_ Hhw].
  apply Z.eqb_eq in Hsw, Hhw. rewrite Hsw in Hhw. discriminate.
Qed.

(** The header of a source packet other than 0x01, in the Idle state. *)
Lemma step_idle_source c t :
  trace_ok t -> is_uint8 c -> state t = TRACE_STATE_IDLE ->
  TRACE_OP_IS_SOURCE c = true -> TRACE_OP_IS_TARGET_SOURCE c = false ->
  exists t1 e1,
    UpdateTrace c t = Some (skip_state (payload_length c), t1, e1) /\
    count_raw_bytes t1 = wrap32 (count_raw_bytes t + 1) /\
    same_counts t t1 /\
    stdout_of e1 = [] /\
    (TRACE_OP_IS_HW_SOURCE c = true ->
     e1 = [] /\ unknown_sources t1 = unknown_sources t).
Proof.
  intros Hok Hc Est Hsrc Htgt. pose proof (uint8_div8 c Hc) as Hi.
  destruct Hok as (Hlen & _).
  unfold payload_length. unfold_decoder. simpl. rewrite Est, Htgt, Hsrc.
  step_M Hlen Hi.
  all: try (exfalso; eapply source_size_cases; eassumption).
  all: do 2 eexists; split; [reflexivity|]; unfold same_counts; simpl;
       split_all; try reflexivity.
  all: intros Hhw;
       first [ split; reflexivity
             | exfalso; eapply sw_hw_exclusive; eassumption ].
Qed.

(** X4: a source packet other than the target source byte 0x01, software
    or hardware, is skipped whole: from the Idle state the header and the
    1, 2 or 4 payload bytes its size code announces bring the decoder back
    to Idle, and it is not in Idle before the last of them.  Nothing goes
    to stdout and no counter changes but the raw-byte counter; a hardware
    source header logs nothing and leaves the set of source addresses
    alone. *)
Theorem source_packet_is_skipped c payload t :
  trace_ok t -> state t = TRACE_STATE_IDLE -> is_uint8 c ->
  TRACE_OP_IS_SOURCE c = true -> TRACE_OP_IS_TARGET_SOURCE c = false ->
  length payload = payload_length c ->
  (exists t' evs,
     feed (c :: payload) t = Some (tt, t', evs) /\
     state t' = TRACE_STATE_IDLE /\
     stdout_of evs = [] /\
     count_raw_bytes t' = wrap32 (count_raw_bytes t + 1 + Z.of_nat (length payload)) /\
     same_counts t t' /\
     (TRACE_OP_IS_HW_SOURCE c = true ->
      evs = [] /\ unknown_sources t' = unknown_sources t)) /\
  (forall k, (k < length payload)%nat ->
     exists tk ek,
       feed (c :: take k payload) t = Some (tt, tk, ek) /\
       state tk = skip_state (length payload - k)).
Proof.
  intros Hok Est Hc Hsrc Htgt Hlen.
  destruct (step_idle_source c t Hok Hc Est Hsrc Htgt)
    as (t1 & e1 & Hstep & Hraw & (Htd & Htp & Hov & Her & Huo) & Hout & Hhw).
  rewrite <- Hlen in Hstep. unfold same_counts.
  assert (length payload = 1 \/ length payload = 2 \/ length payload = 4)%nat
    as Hcases.
  { rewrite Hlen. unfold payload_length.
    destruct (_ =? 1); [auto|]. destruct (_ =? 2); auto. }
  destruct payload as [|b1 [|b2 [|b3 [|b4 [|b5 rest]]]]]; simpl in Hcases;
    try (exfalso; lia); clear Hcases; simpl in Hstep.
  - (* one byte *)
    split.
    + rewrite (feed_cons _ _ _ _ _ _ Hstep).
      rewrite (feed_cons _ _ _ _ _ _ (step_skip_1 b1 (set_state _ t1) eq_refl)).
      do 2 eexists. split; [reflexivity|]. simpl. rewrite !app_nil_r.
      split_all; auto. rewrite Hraw, wrap32_succ. f_equal; lia.
    + intros k Hk. simpl in Hk. assert (k = 0%nat) as -> by lia. cbn [firstn].
      rewrite (feed_cons _ _ _ _ _ _ Hstep). do 2 eexists. split; reflexivity.
  - (* two bytes *)
    split.
    + rewrite (feed_cons _ _ _ _ _ _ Hstep).
      rewrite (feed_cons _ _ _ _ _ _ (step_skip_2 b1 (set_state _ t1) eq_refl)).
      rewrite (feed_cons _ _ _ _ _ _ (step_skip_1 b2 (set_state _ _) eq_refl)).
      do 2 eexists. split; [reflexivity|]. simpl. rewrite !app_nil_r.
      split_all; auto. rewrite Hraw, !wrap32_succ. f_equal; lia.
    + intros k Hk. simpl in Hk.
      destruct k as [|[|k]]; [| |lia]; cbn [firstn];
        rewrite (feed_cons _ _ _ _ _ _ Hstep).
      * do 2 eexists. split; reflexivity.
      * rewrite (feed_cons _ _ _ _ _ _ (step_skip_2 b1 (set_state _ t1) eq_refl)).
        do 2 eexists. split; reflexivity.
  - (* four bytes *)
    split.
    + rewrite (feed_cons _ _ _ _ _ _ Hstep).
      rewrite (feed_cons _ _ _ _ _ _ (step_skip_4 b1 (set_state _ t1) eq_refl)).
      rewrite (feed_cons _ _ _ _ _ _ (step_skip_3 b2 (set_state _ _) eq_refl)).
      rewrite (feed_cons _ _ _ _ _ _ (step_skip_2 b3 (set_state _ _) eq_refl)).
      rewrite (feed_cons _ _ _ _ _ _ (step_skip_1 b4 (set_state _ _) eq_refl)).
      do 2 eexists. split; [reflexivity|]. simpl. rewrite !app_nil_r.
      split_all; auto. rewrite Hraw, !wrap32_succ. f_equal; lia.
    + intros k Hk. simpl in Hk.
      destruct k as [|[|[|[|k]]]]; [| | | |lia]; cbn [firstn];
        rewrite (feed_cons _ _ _ _ _ _ Hstep).
      * do 2 eexists. split; reflexivity.
      * rewrite (feed_cons _ _ _ _ _ _ (step_skip_4 b1 (set_state _ t1) eq_refl)).
        do 2 eexists. split; reflexivity.
      * rewrite (feed_cons _ _ _ _ _ _ (step_skip_4 b1 (set_state _ t1) eq_refl)).
        rewrite (feed_cons _ _ _ _ _ _ (step_skip_3 b2 (set_state _ _) eq_refl)).
        do 2 eexists. split; reflexivity.
      * rewrite (feed_cons _ _ _ _ _ _ (step_skip_4 b1 (set_state _ t1) eq_refl)).
        rewrite (feed_cons _ _ _ _ _ _ (step_skip_3 b2 (set_state _ _) eq_refl)).
        rewrite (feed_cons _ _ _ _ _ _ (step_skip_2 b3 (set_state _ _) eq_refl)).
        do 2 eexists. split; reflexivity.
Qed.

Lemma source_packet_is_skipped_witness :
  (trace_ok (trace_init 0) /\ state (trace_init 0) = TRACE_STATE_IDLE /\
   is_uint8 0x07 /\ TRACE_OP_IS_SOURCE 0x07 = true /\
   TRACE_OP_IS_TARGET_SOURCE 0x07 = false /\
   length [0x01; 0x70; 0xff; 0x00] = payload_length 0x07) /\
  exists t' evs,
    feed (0x07 :: [0x01; 0x70; 0xff; 0x00]) (trace_init 0) = Some (tt, t', evs) /\
    state t' = TRACE_STATE_IDLE /\
    stdout_of evs = [] /\
    count_raw_bytes t' =
      wrap32 (count_raw_bytes (trace_init 0) + 1
              + Z.of_nat (length [0x01; 0x70; 0xff; 0x00])) /\
    same_counts (trace_init 0) t' /\
    (TRACE_OP_IS_HW_SOURCE 0x07 = true ->
     evs = [] /\ unknown_sources t' = unknown_sources (trace_init 0)).
Proof.
  assert (is_uint8 0x07) as Hc by (unfold is_uint8; lia).
  split; [split_all; auto using trace_init_ok|].
  exact (proj1 (source_packet_is_skipped 0x07 [0x01; 0x70; 0xff; 0x00] (trace_init 0)
                  (trace_init_ok 0) eq_refl Hc eq_refl eq_refl eq_refl)).
Defined.

(** ** What a session adds up to *)

(** One step of the decoder counts its byte as target data, as a time
    packet, as an error, or as none of them; a byte goes to stdout exactly
    when it is counted as target data, with a flush after a line
    terminator; and it sends out nothing but decoder events. *)
Lemma UpdateTrace_accounting c t st t' evs :
  trace_ok t -> is_uint8 c -> UpdateTrace c t = Some (st, t', evs) ->
  exists a b e : nat,
    (a + b + e <= 1)%nat /\
    count_target_data t' = wrap32 (count_target_data t + Z.of_nat a) /\
    count_time_packets t' = wrap32 (count_time_packets t + Z.of_nat b) /\
    count_error t' = wrap32 (count_error t + Z.of_nat e) /\
    length (stdout_of evs) = a /\
    stdout_ops evs = line_flushed (stdout_of evs) /\
    decoder_events evs = evs.
Proof.
  intros Hok Hc. pose proof (uint8_div8 c Hc) as Hi.
  destruct Hok as (Hlen & Hall & Hraw & Htd & Htp & Hov & Her & Hus).
  pose proof (wrap32_uint32 _ Htd) as Wtd.
  pose proof (wrap32_uint32 _ Htp) as Wtp.
  pose proof (wrap32_uint32 _ Her) as Wer.
  unfold_decoder. simpl.
  destruct (state t) eqn:Est; step_M Hlen Hi.
  all: intros [= <- <- <-]; simpl.
  all: first
    [ exists 0%nat, 0%nat, 0%nat; simpl; rewrite !Z.add_0_r, ?Wtd, ?Wtp, ?Wer;
      split_all; solve [reflexivity | lia]
    | exists 1%nat, 0%nat, 0%nat; simpl; rewrite ?Z.add_0_r, ?Wtd, ?Wtp, ?Wer;
      split_all; solve [reflexivity | lia | rewrite Heqb; reflexivity]
    | exists 0%nat, 1%nat, 0%nat; simpl; rewrite ?Z.add_0_r, ?Wtd, ?Wtp, ?Wer;
      split_all; solve [reflexivity | lia]
    | exists 0%nat, 0%nat, 1%nat; simpl; rewrite ?Z.add_0_r, ?Wtd, ?Wtp, ?Wer;
      split_all; solve [reflexivity | lia] ].
Qed.

Lemma wrap32_add_l x a n : wrap32 (wrap32 (x + a) + n) = wrap32 (x + (a + n)).
Proof. unfold wrap32. rewrite Z.add_mod_idemp_l by lia. f_equal. lia. Qed.

(** A session, step by step: a relation that holds for the empty session
    and is carried through a byte and through a call of the heuristic
    holds for every session. *)
Lemma run_session_rel (R : list session_op -> st_trace_t -> st_trace_t -> list event -> Prop) :
  (forall t, trace_ok t -> R [] t t []) ->
  (forall ops t c st t1 e1 t2 e2,
     trace_ok t -> is_uint8 c -> UpdateTrace c t = Some (st, t1, e1) ->
     R ops (set_state st t1) t2 e2 -> R (Feed c :: ops) t t2 (e1 ++ e2)) ->
  (forall ops t now o t1 e1 t2 e2,
     trace_ok t -> CheckForConfigurationError now t = Some (o, t1, e1) ->
     R ops t1 t2 e2 -> R (Heuristic now :: ops) t t2 (e1 ++ e2)) ->
  forall ops t, trace_ok t -> Forall session_op_ok ops ->
  exists os t' evs, run_session ops t = Some (os, t', evs) /\ R ops t t' evs.
Proof.
  intros Hnil Hfeed Hcheck ops t Hok Hops. revert t Hok.
  induction Hops as [|op ops Hop Hops IH]; intros t Hok.
  - exists [], t, []. split; [reflexivity | apply Hnil, Hok].
  - destruct op as [c|now].
    + destruct (UpdateTrace_step c t Hok Hop) as (st & t1 & e1 & Hstep & Hok1 & _).
      destruct (IH (set_state st t1) (trace_ok_set_state st t1 Hok1))
        as (os & t2 & e2 & Hrest & HR).
      exists os, t2, (e1 ++ e2).
      rewrite (run_session_feed _ _ _ _ _ _ Hstep), Hrest.
      split; [reflexivity|]. eapply Hfeed; eassumption.
    + destruct (configuration_checked t || (elapsed_time_s now t <? 10)) eqn:Hskip.
      * pose proof (CheckForConfigurationError_skips now t Hskip) as Hrun.
        destruct (IH t Hok) as (os & t2 & e2 & Hrest & HR).
        exists (check_skipped :: os), t2, ([] ++ e2).
        rewrite (run_session_check _ _ _ _ _ _ Hrun), Hrest.
        split; [reflexivity|]. eapply Hcheck; eassumption.
      * destruct (CheckForConfigurationError_runs now t (proj1 Hok) Hskip)
          as (e1 & Hrun & _).
        destruct (IH (set_configuration_checked true t) Hok)
          as (os & t2 & e2 & Hrest & HR).
        eexists. exists t2, (e1 ++ e2).
        rewrite (run_session_check _ _ _ _ _ _ Hrun), Hrest.
        split; [reflexivity|]. eapply Hcheck; eassumption.
Qed.

(** ** The report of the heuristic *)

Lemma flat_map_cond {A B} (p : A -> bool) (g : A -> B) (l : list A) :
  flat_map (fun x => if p x then [g x] else []) l = map g (List.filter p l).
Proof.
  induction l as [|x l IH]; simpl; [reflexivity|].
  rewrite IH. destruct (p x); reflexivity.
Qed.

Lemma for_each_exact (g : Z -> list event) range body t :
  (forall i, i ∈ range -> body i t = Some (tt, t, g i)) ->
  for_each range body t = Some (tt, t, flat_map g range).
Proof.
  induction range as [|i range IH]; intros Hbody; [reflexivity|].
  simpl. unfold_M. rewrite Hbody by left. rewrite IH; [reflexivity|].
  intros j Hj. apply Hbody. right. exact Hj.
Qed.

Lemma report_unknown_opcodes_exact t :
  length (unknown_opcodes t) = 32%nat ->
  report_unknown_opcodes t
  = Some (tt, t, map (fun i => WLOG (Diag_unknown_opcode i)) (opcodes_seen t)).
Proof.
  intros Hlen. unfold report_unknown_opcodes, opcodes_seen.
  rewrite <- flat_map_cond. apply for_each_exact. intros i Hi.
  apply elem_of_seqZ in Hi.
  assert (is_uint8 i) as Hu by (unfold is_uint8; lia).
  unfold_M. rewrite load_opcodes_ok by (exact Hlen || apply uint8_div8, Hu).
  unfold when. rewrite opcode_test_spec, negb_involutive.
  unfold seen_opcode. destruct (Z.testbit _ _); reflexivity.
Qed.

Lemma report_unknown_sources_exact t :
  report_unknown_sources t
  = Some (tt, t, map (fun i => WLOG (Diag_unknown_source i)) (sources_seen t)).
Proof.
  unfold report_unknown_sources, sources_seen.
  rewrite <- flat_map_cond. apply for_each_exact. intros i Hi.
  apply elem_of_seqZ in Hi.
  unfold_M. unfold when. rewrite source_test_spec by lia. rewrite negb_involutive.
  unfold seen_source. destruct (Z.testbit _ _); reflexivity.
Qed.

Lemma opcodes_seen_flag b t :
  opcodes_seen (set_configuration_checked b t) = opcodes_seen t.
Proof. unfold opcodes_seen. f_equal. Qed.

Lemma sources_seen_flag b t :
  sources_seen (set_configuration_checked b t) = sources_seen t.
Proof. unfold sources_seen. f_equal. Qed.

Lemma CheckForConfigurationError_exact now t :
  length (unknown_opcodes t) = 32%nat ->
  CheckForConfigurationError now t =
    if configuration_checked t || (elapsed_time_s now t <? 10)
    then Some (check_skipped, t, [])
    else if poorly_configured t
         then Some (check_reported, set_configuration_checked true t,
                    map WLOG (report_of t))
         else Some (check_quiet, set_configuration_checked true t, []).
Proof.
  intros Hlen.
  destruct (configuration_checked t || (elapsed_time_s now t <? 10)) eqn:Hskip.
  - apply CheckForConfigurationError_skips, Hskip.
  - unfold CheckForConfigurationError. unfold_M. rewrite Hskip.
    change (poorly_configured (set_configuration_checked true t))
      with (poorly_configured t).
    destruct (poorly_configured t); [|reflexivity].
    rewrite (report_unknown_opcodes_exact (set_configuration_checked true t) Hlen).
    rewrite (report_unknown_sources_exact (set_configuration_checked true t)).
    unfold report_of. rewrite !map_app, !map_map. simpl.
    rewrite opcodes_seen_flag, sources_seen_flag. reflexivity.
Qed.


(** X5: what a call of the heuristic does, in full.  It returns at once
    when the flag is set or less than 10 seconds have elapsed; otherwise it
    sets the flag, and when the test of line 435 holds it logs, at warning
    level, the five counters, then the unknown opcodes whose bit is set in
    ascending order, then the unknown source addresses whose bit is set in
    ascending order, between the two banner lines.  No other field of the
    record changes and nothing goes to stdout. *)
Theorem heuristic_report now t :
  length (unknown_opcodes t) = 32%nat ->
  CheckForConfigurationError now t =
    if configuration_checked t || (elapsed_time_s now t <? 10)
    then Some (check_skipped, t, [])
    else if poorly_configured t
         then Some (check_reported, set_configuration_checked true t,
                    map WLOG (report_of t))
         else Some (check_quiet, set_configuration_checked true t, []).
Proof. apply CheckForConfigurationError_exact. Qed.

Lemma heuristic_report_witness :
  length (unknown_opcodes (trace_init 100)) = 32%nat /\
  CheckForConfigurationError 110 (trace_init 100) =
    if configuration_checked (trace_init 100)
       || (elapsed_time_s 110 (trace_init 100) <? 10)
    then Some (check_skipped, trace_init 100, [])
    else if poorly_configured (trace_init 100)
         then Some (check_reported, set_configuration_checked true (trace_init 100),
                    map WLOG (report_of (trace_init 100)))
         else Some (check_quiet, set_configuration_checked true (trace_init 100), []).
Proof.
  split; [reflexivity|]. apply (heuristic_report 110 (trace_init 100)). reflexivity.
Defined.

(** ** Sessions: what goes to stdout and what is counted *)

Lemma stdout_of_app e1 e2 : stdout_of (e1 ++ e2) = stdout_of e1 ++ stdout_of e2.
Proof. apply flat_map_app. Qed.

Lemma stdout_ops_app e1 e2 : stdout_ops (e1 ++ e2) = stdout_ops e1 ++ stdout_ops e2.
Proof. apply flat_map_app. Qed.

Lemma line_flushed_app b1 b2 : line_flushed (b1 ++ b2) = line_flushed b1 ++ line_flushed b2.
Proof. apply flat_map_app. Qed.

Lemma decoder_events_app e1 e2 :
  decoder_events (e1 ++ e2) = decoder_events e1 ++ decoder_events e2.
Proof. apply List.filter_app. Qed.

Lemma map_WLOG_stdout l : stdout_of (map WLOG l) = [] /\ stdout_ops (map WLOG l) = [].
Proof. induction l as [|m l [IH1 IH2]]; split; simpl; auto. Qed.

Lemma filter_map_none {A} (p : event -> bool) (g : A -> event) l :
  (forall x, p (g x) = false) -> List.filter p (map g l) = [].
Proof.
  intros Hp. induction l as [|x l IH]; simpl; [reflexivity|].
  rewrite Hp. exact IH.
Qed.

Lemma decoder_events_report t : decoder_events (map WLOG (report_of t)) = [].
Proof.
  unfold report_of, decoder_events. rewrite !map_app, !map_map, !List.filter_app.
  rewrite (filter_map_none _ (fun x => WLOG (Diag_unknown_opcode x))) by reflexivity.
  rewrite (filter_map_none _ (fun x => WLOG (Diag_unknown_source x))) by reflexivity.
  reflexivity.
Qed.

(** The heuristic touches the flag only, and what it logs is neither
    output nor a warning of the decoder. *)
Lemma CheckForConfigurationError_quiet now t o t1 e1 :
  trace_ok t -> CheckForConfigurationError now t = Some (o, t1, e1) ->
  (t1 = t \/ t1 = set_configuration_checked true t) /\
  stdout_of e1 = [] /\ stdout_ops e1 = [] /\ decoder_events e1 = [].
Proof.
  intros Hok Hrun.
  pose proof (CheckForConfigurationError_exact now t (proj1 Hok)) as Hex.
  rewrite Hrun in Hex. clear Hrun.
  destruct (map_WLOG_stdout (report_of t)) as [H1 H2].
  pose proof (decoder_events_report t) as H3.
  destruct (configuration_checked t || (elapsed_time_s now t <? 10)).
  - injection Hex as -> -> ->. split_all; [left|..]; reflexivity.
  - destruct (poorly_configured t); injection Hex as -> -> ->.
    + split_all; [right; reflexivity | exact H1 | exact H2 | exact H3].
    + split_all; [right|..]; reflexivity.
Qed.

(** The flag of the heuristic is invisible to the decoder. *)
Lemma UpdateTrace_flag c b t :
  trace_ok t -> is_uint8 c ->
  UpdateTrace c (set_configuration_checked b t) =
    match UpdateTrace c t with
    | Some (st, t1, e) => Some (st, set_configuration_checked b t1, e)
    | None => None
    end.
Proof.
  intros Hok Hc. pose proof (uint8_div8 c Hc) as Hi.
  destruct Hok as (Hlen & _).
  unfold_decoder. simpl.
  destruct (state t) eqn:Est; step_M Hlen Hi;
    first [reflexivity | unfold opcode_byte in *; simpl in *; congruence].
Qed.
Lemma feed_flag bs b t :
  trace_ok t -> Forall is_uint8 bs ->
  feed bs (set_configuration_checked b t) =
    match feed bs t with
    | Some (u, t1, e) => Some (u, set_configuration_checked b t1, e)
    | None => None
    end.
Proof.
  intros Hok Hbs. revert t Hok.
  induction Hbs as [|c bs Hc Hbs IH]; intros t Hok; [reflexivity|].
  destruct (UpdateTrace_step c t Hok Hc) as (st & t1 & e1 & Hstep & Hok1 & _).
  pose proof (UpdateTrace_flag c b t Hok Hc) as Hflag. rewrite Hstep in Hflag.
  rewrite (feed_cons _ _ _ _ _ _ Hflag), (feed_cons _ _ _ _ _ _ Hstep).
  change (set_state st (set_configuration_checked b t1))
    with (set_configuration_checked b (set_state st t1)).
  rewrite (IH (set_state st t1) (trace_ok_set_state st t1 Hok1)).
  destruct (feed bs (set_state st t1)) as [[[u t2] e2]|]; reflexivity.
Qed.

Lemma same_decoder_flag b t : same_decoder (set_configuration_checked b t) t.
Proof. reflexivity. Qed.

(** The sums a session keeps: one byte of the session is a byte on
    stdout, a timestamp, an error or none of them. *)
Lemma session_accounting ops t :
  trace_ok t -> Forall session_op_ok ops ->
  exists os t' evs,
    run_session ops t = Some (os, t', evs) /\
    exists a b e : nat,
      (a + b + e <= bytes_fed ops)%nat /\
      count_raw_bytes t' = wrap32 (count_raw_bytes t + Z.of_nat (bytes_fed ops)) /\
      count_target_data t' = wrap32 (count_target_data t + Z.of_nat a) /\
      count_time_packets t' = wrap32 (count_time_packets t + Z.of_nat b) /\
      count_error t' = wrap32 (count_error t + Z.of_nat e) /\
      length (stdout_of evs) = a /\
      stdout_ops evs = line_flushed (stdout_of evs).
Proof.
  apply (run_session_rel (fun ops t t' evs =>
    exists a b e : nat,
      (a + b + e <= bytes_fed ops)%nat /\
      count_raw_bytes t' = wrap32 (count_raw_bytes t + Z.of_nat (bytes_fed ops)) /\
      count_target_data t' = wrap32 (count_target_data t + Z.of_nat a) /\
      count_time_packets t' = wrap32 (count_time_packets t + Z.of_nat b) /\
      count_error t' = wrap32 (count_error t + Z.of_nat e) /\
      length (stdout_of evs) = a /\
      stdout_ops evs = line_flushed (stdout_of evs))).
  - intros t0 (Hlen & Hall & Hraw & Htd & Htp & Hov & Her & Hus).
    exists 0%nat, 0%nat, 0%nat. simpl. rewrite !Z.add_0_r.
    rewrite !wrap32_uint32 by assumption. split_all; reflexivity || lia.
  - intros ops0 t0 c st t1 e1 t2 e2 Hok Hc Hstep (a & b & e & Hle & Hraw & Htd & Htp & Her & Hout & Hfl).
    destruct (UpdateTrace_accounting c t0 st t1 e1 Hok Hc Hstep)
      as (a1 & b1 & x1 & Hle1 & Htd1 & Htp1 & Her1 & Hout1 & Hfl1 & _).
    destruct (UpdateTrace_step c t0 Hok Hc) as (st' & t1' & e1' & Hstep' & _ & Hraw1 & _).
    rewrite Hstep in Hstep'. injection Hstep' as <- <- <-.
    change (count_raw_bytes (set_state st t1)) with (count_raw_bytes t1) in Hraw.
    change (count_target_data (set_state st t1)) with (count_target_data t1) in Htd.
    change (count_time_packets (set_state st t1)) with (count_time_packets t1) in Htp.
    change (count_error (set_state st t1)) with (count_error t1) in Her.
    exists (a1 + a)%nat, (b1 + b)%nat, (x1 + e)%nat.
    change (bytes_fed (Feed c :: ops0)) with (S (bytes_fed ops0)).
    rewrite Hraw, Htd, Htp, Her, Hraw1, Htd1, Htp1, Her1, !wrap32_add_l.
    rewrite stdout_of_app, stdout_ops_app, line_flushed_app, length_app, Hfl, Hfl1.
    split_all; try reflexivity; try lia; f_equal; lia.
  - intros ops0 t0 now o t1 e1 t2 e2 Hok Hrun (a & b & e & Hle & Hraw & Htd & Htp & Her & Hout & Hfl).
    destruct (CheckForConfigurationError_quiet now t0 o t1 e1 Hok Hrun)
      as (Ht1 & Hso & Hsp & _).
    exists a, b, e.
    change (bytes_fed (Heuristic now :: ops0)) with (bytes_fed ops0).
    rewrite stdout_of_app, stdout_ops_app, Hso, Hsp. simpl.
    destruct Ht1 as [-> | ->]; split_all; assumption.
Qed.

Lemma sample_session_ok : Forall session_op_ok sample_session.
Proof. repeat constructor; unfold is_uint8; lia. Qed.

(** X6: in any session (bytes fed and calls of the heuristic in any
    order, from any well-formed record) the target-data counter grows by
    the number of bytes written to stdout, modulo 2^32: line 382 is the
    only place that counts and line 379 the only one that writes. *)
Theorem target_counter_counts_stdout ops t :
  trace_ok t -> Forall session_op_ok ops ->
  exists os t' evs,
    run_session ops t = Some (os, t', evs) /\
    count_target_data t'
    = wrap32 (count_target_data t + Z.of_nat (length (stdout_of evs))).
Proof.
  intros Hok Hops.
  destruct (session_accounting ops t Hok Hops)
    as (os & t' & evs & Hrun & a & b & e & _ & _ & Htd & _ & _ & Hout & _).
  exists os, t', evs. split; [exact Hrun|]. rewrite Hout. exact Htd.
Qed.

Lemma target_counter_counts_stdout_witness :
  (trace_ok (trace_init 1000) /\ Forall session_op_ok sample_session) /\
  exists os t' evs,
    run_session sample_session (trace_init 1000) = Some (os, t', evs) /\
    count_target_data t'
    = wrap32 (count_target_data (trace_init 1000) + Z.of_nat (length (stdout_of evs))).
Proof.
  split; [split; [apply trace_init_ok | exact sample_session_ok]|].
  apply (target_counter_counts_stdout sample_session (trace_init 1000)
           (trace_init_ok 1000) sample_session_ok).
Defined.

(** What a step of the decoder sends to stdout: in the TargetSource state
    the byte it is fed, with a flush when the byte is 10; in every other
    state nothing. *)
Lemma UpdateTrace_stdout c t :
  trace_ok t -> is_uint8 c ->
  exists st t' evs,
    UpdateTrace c t = Some (st, t', evs) /\
    stdout_ops evs =
      match state t with
      | TRACE_STATE_TARGET_SOURCE => line_flushed [c]
      | _ => []
      end.
Proof.
  intros Hok Hc. pose proof (uint8_div8 c Hc) as Hi.
  destruct Hok as (Hlen & _).
  unfold_decoder. simpl.
  destruct (state t) eqn:Est; step_M Hlen Hi;
    do 3 eexists; (split; [reflexivity|]); reflexivity.
Qed.

(** X7: in any session the operations on stdout are the bytes written,
    each with [putchar], and a [fflush] directly after every byte 10 and
    nowhere else (lines 379-381).  They all come from the TargetSource
    case of the decoder: a step taken in that state writes the byte it is
    fed, and flushes when the byte is 10; a step taken in any other state
    and a call of the heuristic call neither [putchar] nor [fflush]. *)
Theorem stdout_flushed_after_newline ops t :
  trace_ok t -> Forall session_op_ok ops ->
  (exists os t' evs,
     run_session ops t = Some (os, t', evs) /\
     stdout_ops evs = line_flushed (stdout_of evs)) /\
  (forall c, is_uint8 c ->
     exists st t1 e1,
       UpdateTrace c t = Some (st, t1, e1) /\
       stdout_ops e1 =
         match state t with
         | TRACE_STATE_TARGET_SOURCE => line_flushed [c]
         | _ => []
         end) /\
  (forall now,
     exists o t1 e1,
       CheckForConfigurationError now t = Some (o, t1, e1) /\ stdout_ops e1 = []).
Proof.
  intros Hok Hops. split_all.
  - destruct (session_accounting ops t Hok Hops)
      as (os & t' & evs & Hrun & a & b & e & _ & _ & _ & _ & _ & _ & Hfl).
    exists os, t', evs. split; [exact Hrun | exact Hfl].
  - intros c Hc. apply UpdateTrace_stdout; assumption.
  - intros now. rewrite (CheckForConfigurationError_exact now t (proj1 Hok)).
    destruct (configuration_checked t || (elapsed_time_s now t <? 10));
      [|destruct (poorly_configured t)];
      do 3 eexists; (split; [reflexivity|]);
      first [reflexivity | apply map_WLOG_stdout].
Qed.

Lemma stdout_flushed_after_newline_witness :
  (trace_ok (trace_init 1000) /\ Forall session_op_ok sample_session) /\
  (exists os t' evs,
     run_session sample_session (trace_init 1000) = Some (os, t', evs) /\
     stdout_ops evs = line_flushed (stdout_of evs)) /\
  (forall c, is_uint8 c ->
     exists st t1 e1,
       UpdateTrace c (trace_init 1000) = Some (st, t1, e1) /\
       stdout_ops e1 =
         match state (trace_init 1000) with
         | TRACE_STATE_TARGET_SOURCE => line_flushed [c]
         | _ => []
         end) /\
  (forall now,
     exists o t1 e1,
       CheckForConfigurationError now (trace_init 1000) = Some (o, t1, e1) /\
       stdout_ops e1 = []).
Proof.
  split; [split; [apply trace_init_ok | exact sample_session_ok]|].
  apply (stdout_flushed_after_newline sample_session (trace_init 1000)
           (trace_init_ok 1000) sample_session_ok).
Defined.

(** X8: in a session from the initial record with fewer than 2^32 bytes,
    the raw counter is the number of bytes fed, and the bytes counted as
    target data, as timestamps and as errors are together at most the raw
    bytes: a byte is counted in at most one of the three. *)
Theorem counters_bounded_by_raw start ops :
  Forall session_op_ok ops -> Z.of_nat (bytes_fed ops) < 2 ^ 32 ->
  exists os t' evs,
    run_session ops (trace_init start) = Some (os, t', evs) /\
    count_raw_bytes t' = Z.of_nat (bytes_fed ops) /\
    count_target_data t' + count_time_packets t' + count_error t'
    <= count_raw_bytes t'.
Proof.
  intros Hops Hlt.
  destruct (session_accounting ops (trace_init start) (trace_init_ok start) Hops)
    as (os & t' & evs & Hrun & a & b & e & Hle & Hraw & Htd & Htp & Her & _).
  exists os, t', evs. split; [exact Hrun|].
  cbn [trace_init count_raw_bytes count_target_data count_time_packets count_error]
    in Hraw, Htd, Htp, Her.
  rewrite Z.add_0_l in Hraw, Htd, Htp, Her.
  unfold wrap32 in Hraw, Htd, Htp, Her.
  rewrite Z.mod_small in Hraw, Htd, Htp, Her by lia.
  rewrite Hraw, Htd, Htp, Her. split; [reflexivity | lia].
Qed.

Lemma counters_bounded_by_raw_witness :
  (Forall session_op_ok sample_session /\ Z.of_nat (bytes_fed sample_session) < 2 ^ 32) /\
  exists os t' evs,
    run_session sample_session (trace_init 1000) = Some (os, t', evs) /\
    count_raw_bytes t' = Z.of_nat (bytes_fed sample_session) /\
    count_target_data t' + count_time_packets t' + count_error t'
    <= count_raw_bytes t'.
Proof.
  assert (Z.of_nat (bytes_fed sample_session) < 2 ^ 32) as Hlt by (vm_compute; reflexivity).
  split; [split; [exact sample_session_ok | exact Hlt]|].
  apply (counters_bounded_by_raw 1000 sample_session sample_session_ok Hlt).
Defined.

Lemma session_bytes_ok ops :
  Forall session_op_ok ops -> Forall is_uint8 (session_bytes ops).
Proof.
  induction 1 as [|op ops Hop Hops IH]; [constructor|].
  destruct op as [c|now]; simpl; [constructor; assumption | exact IH].
Qed.

(** The decoder's view of a session is the bytes alone. *)
Lemma session_observed ops t :
  trace_ok t -> Forall session_op_ok ops ->
  exists os t' evs,
    run_session ops t = Some (os, t', evs) /\
    (Forall session_op_ok ops ->
     exists t2,
       feed (session_bytes ops) t = Some (tt, t2, decoder_events evs) /\
       same_decoder t2 t').
Proof.
  apply (run_session_rel (fun ops t t' evs =>
    Forall session_op_ok ops ->
    exists t2,
      feed (session_bytes ops) t = Some (tt, t2, decoder_events evs) /\
      same_decoder t2 t')).
  - intros t0 _ _. exists t0. split; reflexivity.
  - intros ops0 t0 c st t1 e1 t2 e2 Hok Hc Hstep IH Hops.
    apply Forall_cons in Hops. destruct Hops as [_ Hops].
    destruct (IH Hops) as (t3 & Hfeed & Hsame).
    destruct (UpdateTrace_accounting c t0 st t1 e1 Hok Hc Hstep)
      as (a1 & b1 & x1 & _ & _ & _ & _ & _ & _ & Hdec).
    exists t3. split; [|exact Hsame].
    change (session_bytes (Feed c :: ops0)) with (c :: session_bytes ops0).
    rewrite (feed_cons _ _ _ _ _ _ Hstep), Hfeed, decoder_events_app, Hdec.
    reflexivity.
  - intros ops0 t0 now o t1 e1 t2 e2 Hok Hrun IH Hops.
    apply Forall_cons in Hops. destruct Hops as [_ Hops].
    destruct (IH Hops) as (t3 & Hfeed & Hsame).
    destruct (CheckForConfigurationError_quiet now t0 o t1 e1 Hok Hrun)
      as (Ht1 & _ & _ & Hdec).
    change (session_bytes (Heuristic now :: ops0)) with (session_bytes ops0).
    rewrite decoder_events_app, Hdec. simpl.
    destruct Ht1 as [-> | ->].
    + exists t3. split; assumption.
    + rewrite (feed_flag _ true t0 Hok (session_bytes_ok ops0 Hops)) in Hfeed.
      destruct (feed (session_bytes ops0) t0) as [[[u t4] e4]|]; [|discriminate].
      injection Hfeed as -> <- ->.
      exists t4. split; [reflexivity|].
      unfold same_decoder in *. rewrite <- Hsame. reflexivity.
Qed.

(** X9: the heuristic is an observer of the decoder.  A session with
    calls of the heuristic anywhere between the bytes leaves the decoder
    where feeding the same bytes without any call leaves it: the same
    state, counters and sets of unknown values (everything but the flag
    [configuration_checked]), the same output on stdout and the same
    warnings of the decoder, in the same order. *)
Theorem heuristic_is_an_observer ops t :
  trace_ok t -> Forall session_op_ok ops ->
  exists os t' evs t2,
    run_session ops t = Some (os, t', evs) /\
    feed (session_bytes ops) t = Some (tt, t2, decoder_events evs) /\
    same_decoder t2 t'.
Proof.
  intros Hok Hops.
  destruct (session_observed ops t Hok Hops) as (os & t' & evs & Hrun & Hrest).
  destruct (Hrest Hops) as (t2 & Hfeed & Hsame).
  exists os, t', evs, t2. split_all; assumption.
Qed.

Lemma heuristic_is_an_observer_witness :
  (trace_ok (trace_init 1000) /\ Forall session_op_ok sample_session) /\
  exists os t' evs t2,
    run_session sample_session (trace_init 1000) = Some (os, t', evs) /\
    feed (session_bytes sample_session) (trace_init 1000)
    = Some (tt, t2, decoder_events evs) /\
    same_decoder t2 t'.
Proof.
  split; [split; [apply trace_init_ok | exact sample_session_ok]|].
  apply (heuristic_is_an_observer sample_session (trace_init 1000)
           (trace_init_ok 1000) sample_session_ok).
Defined.
(** ** The poll loop of [main] is a session *)

Lemma trace_events_app e1 e2 : trace_events (e1 ++ e2) = trace_events e1 ++ trace_events e2.
Proof. apply List.filter_app. Qed.

Lemma filter_id_weaken {A} (p q : A -> bool) l :
  (forall x, p x = true -> q x = true) -> List.filter p l = l -> List.filter q l = l.
Proof.
  intros Hpq. induction l as [|x l IH]; simpl; [reflexivity|].
  destruct (p x) eqn:Hp.
  - intros [= Hl]. rewrite (Hpq x Hp). f_equal. exact (IH Hl).
  - intros Hl. exfalso.
    pose proof (List.filter_length_le p l) as Hlen. rewrite Hl in Hlen. simpl in Hlen. lia.
Qed.

Lemma decoder_event_trace_event e : decoder_event e = true -> trace_event e = true.
Proof. destruct e as [| | | | |[] []|]; simpl; congruence. Qed.

Lemma trace_event_poll_event e : trace_event e = true -> poll_event e.
Proof. destruct e; simpl; try discriminate; auto. Qed.

Lemma filter_id_Forall {A} (p : A -> bool) l :
  List.filter p l = l -> Forall (fun x => p x = true) l.
Proof.
  induction l as [|x l IH]; simpl; [constructor|].
  destruct (p x) eqn:Hp.
  - intros [= Hl]. constructor; auto.
  - intros Hl. exfalso.
    pose proof (List.filter_length_le p l) as Hlen. rewrite Hl in Hlen. simpl in Hlen. lia.
Qed.

(** Feeding bytes is a session without calls of the heuristic, and all it
    emits are events of the decoder. *)
Lemma run_session_feeds bs ops t :
  trace_ok t -> Forall is_uint8 bs ->
  exists t1 e1,
    feed bs t = Some (tt, t1, e1) /\ trace_ok t1 /\ trace_events e1 = e1 /\
    run_session (map Feed bs ++ ops) t =
      match run_session ops t1 with
      | Some (os, t2, e2) => Some (os, t2, e1 ++ e2)
      | None => None
      end.
Proof.
  intros Hok Hbs. revert t Hok.
  induction Hbs as [|c bs Hc Hbs IH]; intros t Hok.
  - exists t, []. split_all; try reflexivity; [exact Hok|].
    simpl. destruct (run_session ops t) as [[[os t2] e2]|]; reflexivity.
  - destruct (UpdateTrace_step c t Hok Hc) as (st & ta & ea & Hstep & Hoka & _).
    destruct (UpdateTrace_accounting c t st ta ea Hok Hc Hstep)
      as (_ & _ & _ & _ & _ & _ & _ & _ & _ & Hdec).
    destruct (IH (set_state st ta) (trace_ok_set_state st ta Hoka))
      as (t1 & e1 & Hfeed & Hok1 & Hev & Hrun).
    exists t1, (ea ++ e1). split_all.
    + rewrite (feed_cons _ _ _ _ _ _ Hstep), Hfeed. reflexivity.
    + exact Hok1.
    + rewrite trace_events_app, Hev. f_equal.
      apply (filter_id_weaken decoder_event); [apply decoder_event_trace_event | exact Hdec].
    + change (map Feed (c :: bs) ++ ops) with (Feed c :: (map Feed bs ++ ops)).
      rewrite (run_session_feed _ _ _ _ _ _ Hstep), Hrun.
      destruct (run_session ops t1) as [[[os t2] e2]|]; [|reflexivity].
      rewrite app_assoc. reflexivity.
Qed.

Lemma trace_events_report l : trace_events (map WLOG l) = map WLOG l.
Proof. induction l as [|m l IH]; [reflexivity|]. cbn. f_equal. exact IH. Qed.

Lemma CheckForConfigurationError_session now t :
  trace_ok t ->
  exists o t1 e1,
    CheckForConfigurationError now t = Some (o, t1, e1) /\
    trace_ok t1 /\ trace_events e1 = e1.
Proof.
  intros Hok.
  rewrite (CheckForConfigurationError_exact now t (proj1 Hok)).
  destruct (configuration_checked t || (elapsed_time_s now t <? 10)).
  - exists check_skipped, t, []. split_all; auto.
  - destruct (poorly_configured t); eexists; eexists; eexists;
      (split; [reflexivity|]); (split; [exact Hok|]).
    + apply trace_events_report.
    + reflexivity.
Qed.

Section Poll_loop.

Context {W : Type}.
Variable D : stlink_driver W.

Lemma Forall_wrap8 buffer : Forall is_uint8 (map wrap8 buffer).
Proof. apply Forall_map, Forall_forall. intros x _. apply is_uint8_wrap8. Qed.

Lemma poll_ops_ok fuel : forall w : W, Forall session_op_ok (poll_ops D fuel w).
Proof.
  induction fuel as [|fuel IH]; intros w; cbn [poll_ops]; [constructor|].
  destruct (g_abort_trace D w); [constructor|].
  destruct (do_trace_read D w) as [[code | buffer] w1]; [constructor|].
  apply Forall_app. split.
  - apply Forall_map. eapply Forall_impl; [apply Forall_wrap8|]. intros x Hx. exact Hx.
  - constructor; [exact I | apply IH].
Qed.

Lemma calls_of_app e1 e2 : calls_of (e1 ++ e2) = calls_of e1 ++ calls_of e2.
Proof. apply flat_map_app. Qed.

Lemma trace_events_no_calls evs : trace_events evs = evs -> calls_of evs = [].
Proof.
  intros Hev. apply filter_id_Forall in Hev.
  induction Hev as [|e evs He _ IH]; [reflexivity|].
  destruct e; try discriminate He; exact IH.
Qed.

(** The loop step by step against [poll_ops] and [poll_reads]. *)
Ltac loop_simpl :=
  cbn -[run_session poll_ops poll_reads CheckForConfigurationError poll_loop
        trace_events calls_of replicate].

Lemma poll_loop_runs fuel t (w : W) :
  trace_ok t ->
  exists r w' evs os t',
    poll_loop D fuel t w = (r, w', evs) /\
    (r = Ret t' \/ r = Out_of_fuel) /\
    run_session (poll_ops D fuel w) t = Some (os, t', trace_events evs) /\
    trace_ok t' /\
    Forall poll_event evs /\
    calls_of evs = replicate (poll_reads D fuel w) stlink_trace_read.
Proof.
  revert t w. induction fuel as [|fuel IH]; intros t w Hok.
  - exists Out_of_fuel, w, [], [], t. split_all; auto.
  - cbn [poll_loop poll_ops poll_reads].
    unfold mbind, P_mbind, P_bind, ask, mret, P_mret, P_ret.
    destruct (g_abort_trace D w) eqn:Hstop.
    + exists (Ret t), w, [], [], t. split_all; auto.
    + unfold ReadTrace, mbind, P_mbind, P_bind, call, say, mret, P_mret, P_ret.
      destruct (do_trace_read D w) as [rd w1] eqn:Hread.
      destruct rd as [code | buffer].
      * exists (Ret t), w1, [Call stlink_trace_read; ELOG (Error_reading_trace code)], [], t.
        split_all; auto. repeat constructor.
      * destruct buffer as [|b buffer].
        -- loop_simpl.
           destruct (CheckForConfigurationError_session (time_now D w1) t Hok)
             as (o & t1 & e1 & Hcheck & Hok1 & Hev1).
           unfold lift. rewrite Hcheck. loop_simpl.
           destruct (IH t1 w1 Hok1)
             as (r & w' & evs & os & t' & Hloop & Hr & Hrun & Hok' & Hpoll & Hcalls).
           rewrite Hloop.
           exists r, w', (Call stlink_trace_read :: Usleep 1000 :: e1 ++ evs),
             (o :: os), t'.
           split; [reflexivity|]. split; [exact Hr|].
           split.
           { rewrite (run_session_check _ _ _ _ _ _ Hcheck), Hrun.
             change (trace_events (Call stlink_trace_read :: Usleep 1000 :: e1 ++ evs))
               with (trace_events (e1 ++ evs)).
             rewrite trace_events_app, Hev1. reflexivity. }
           split; [exact Hok'|]. split.
           { constructor; [reflexivity|]. constructor; [exact I|].
             apply Forall_app. split; [|exact Hpoll].
             apply filter_id_Forall in Hev1.
             eapply Forall_impl; [exact Hev1|]. apply trace_event_poll_event. }
           change (calls_of (Call stlink_trace_read :: Usleep 1000 :: e1 ++ evs))
             with (stlink_trace_read :: calls_of (e1 ++ evs)).
           rewrite calls_of_app, (trace_events_no_calls e1 Hev1), Hcalls. reflexivity.
        -- destruct (run_session_feeds (map wrap8 (b :: buffer))
                       (Heuristic (time_now D w1) :: poll_ops D fuel w1) t Hok
                       (Forall_wrap8 _))
             as (t0 & e0 & Hfeed & Hok0 & Hev0 & Hrun0).
           unfold lift at 1. rewrite Hfeed. cbn [snd fst].
           destruct (CheckForConfigurationError_session (time_now D w1) t0 Hok0)
             as (o & t1 & e1 & Hcheck & Hok1 & Hev1).
           unfold lift. rewrite Hcheck. cbn [snd fst].
           destruct (IH t1 w1 Hok1)
             as (r & w' & evs & os & t' & Hloop & Hr & Hrun & Hok' & Hpoll & Hcalls).
           rewrite Hloop.
           exists r, w'. eexists. exists (o :: os), t'.
           split; [reflexivity|]. split; [exact Hr|]. split.
           { rewrite Hrun0, (run_session_check _ _ _ _ _ _ Hcheck), Hrun.
             simpl. rewrite !app_nil_r.
             change (trace_events (Call stlink_trace_read :: ?x)) with (trace_events x).
             rewrite !trace_events_app, Hev0, Hev1. reflexivity. }
           split; [exact Hok'|]. split.
           { simpl. rewrite !app_nil_r. constructor; [reflexivity|].
             rewrite !Forall_app. split_all; [| |exact Hpoll].
             - apply filter_id_Forall in Hev0.
               eapply Forall_impl; [exact Hev0|]. apply trace_event_poll_event.
             - apply filter_id_Forall in Hev1.
               eapply Forall_impl; [exact Hev1|]. apply trace_event_poll_event. }
           simpl. rewrite !app_nil_r.
           change (calls_of (Call stlink_trace_read :: ?x))
             with (stlink_trace_read :: calls_of x).
           rewrite !calls_of_app, (trace_events_no_calls e0 Hev0),
             (trace_events_no_calls e1 Hev1), Hcalls. reflexivity.
Qed.

Lemma poll_loop_session fuel t (w : W) :
  trace_ok t ->
  exists r w' evs ops os t',
    poll_loop D fuel t w = (r, w', evs) /\
    (r = Ret t' \/ r = Out_of_fuel) /\
    Forall session_op_ok ops /\
    run_session ops t = Some (os, t', trace_events evs) /\
    trace_ok t' /\
    Forall poll_event evs.
Proof.
  intros Hok.
  destruct (poll_loop_runs fuel t w Hok)
    as (r & w' & evs & os & t' & Hloop & Hr & Hrun & Hok' & Hpoll & _).
  exists r, w', evs, (poll_ops D fuel w), os, t'.
  split_all; try assumption. apply poll_ops_ok.
Qed.

End Poll_loop.

(** X10: the loop of [main] neither indexes outside the array of unknown
    opcodes nor meets any other undefined behaviour, whatever the probe
    delivers: it returns or is still running when the bound of the model
    is used up.  What it does to the record, and what it emits besides the
    calls of [stlink_trace_read], the sleeps and the error line of
    [ReadTrace], is the session that the reads determine: while the
    termination flag is clear and the read gives no error, the bytes of
    the buffer read, in order, then one call of the heuristic, empty
    buffers included.  The calls to the probe in the loop are the reads,
    one per turn, and nothing else. *)
Theorem poll_loop_is_a_session {W} (D : stlink_driver W) fuel t (w : W) :
  trace_ok t ->
  exists r w' evs os t',
    poll_loop D fuel t w = (r, w', evs) /\
    (r = Ret t' \/ r = Out_of_fuel) /\
    Forall session_op_ok (poll_ops D fuel w) /\
    run_session (poll_ops D fuel w) t = Some (os, t', trace_events evs) /\
    calls_of evs = replicate (poll_reads D fuel w) stlink_trace_read.
Proof.
  intros Hok.
  destruct (poll_loop_runs D fuel t w Hok)
    as (r & w' & evs & os & t' & Hloop & Hr & Hrun & _ & _ & Hcalls).
  exists r, w', evs, os, t'. split_all; try assumption. apply poll_ops_ok.
Qed.

Lemma poll_loop_is_a_session_witness :
  trace_ok (trace_init 1000) /\
  exists r w' evs os t',
    poll_loop scripted 10 (trace_init 1000) sample_world = (r, w', evs) /\
    (r = Ret t' \/ r = Out_of_fuel) /\
    Forall session_op_ok (poll_ops scripted 10 sample_world) /\
    run_session (poll_ops scripted 10 sample_world) (trace_init 1000)
    = Some (os, t', trace_events evs) /\
    calls_of evs = replicate (poll_reads scripted 10 sample_world) stlink_trace_read.
Proof.
  split; [apply trace_init_ok|].
  apply (poll_loop_is_a_session scripted 10 (trace_init 1000) sample_world
           (trace_init_ok 1000)).
Defined.

(** ** Whole runs of [main] *)





Section Main_facts.

Context {W : Type}.
Variable H : stlink_h.
Variable D : stlink_driver W.









End Main_facts.

Section Read_loop_facts.

Context {W : Type}.
Variable H : stlink_h.
Variable D : stlink_driver W.
Variable fuel : nat.









End Read_loop_facts.


Section Exit_facts.

Context {W : Type}.
Variable H : stlink_h.
Variable D : stlink_driver W.

(** *** With [force], the only error exit is the one for a missing probe *)

Lemma only_success_forced failed msg settings (v : Z) (k : @P W Z) :
  force settings = true -> only_success k ->
  only_success (unless_forced failed msg settings v k).
Proof.
  intros Hforce Hk. unfold unless_forced. rewrite Hforce. simpl.
  destruct failed; [|exact Hk]. apply only_success_bind. intros _. exact Hk.
Qed.

Lemma main_forced_exits settings fuel :
  force settings = true ->
  exits_within [APP_RESULT_SUCCESS; APP_RESULT_STLINK_NOT_FOUND]
    (main H D (Some settings) fuel).
Proof.
  intros Hforce w code w' e Hrun. unfold main in Hrun.
  apply P_bind_ret_inv in Hrun as (_ & w1 & e1 & e2 & _ & Hrun & _).
  assert (forall (m : @P W Z) w w' e, only_success m -> m w = (Ret code, w', e) ->
            code ∈ [APP_RESULT_SUCCESS; APP_RESULT_STLINK_NOT_FOUND]) as Hok.
  { intros m wa wb ea Hm Hr. rewrite (Hm _ _ _ _ Hr). left. }
  destruct (show_help settings).
  { apply (Hok _ _ _ _ (only_success_bind _ _ (fun _ => only_success_ret)) Hrun). }
  destruct (show_version settings).
  { apply (Hok _ _ _ _ (only_success_bind _ _ (fun _ => only_success_ret)) Hrun). }
  apply P_bind_ret_inv in Hrun as ([stlink|] & w2 & e3 & e4 & _ & Hrun & _).
  - refine (Hok _ _ _ _ _ Hrun).
    do 3 (apply only_success_forced; [exact Hforce|]).
    apply only_success_bind. intros enabled.
    apply only_success_forced; [exact Hforce|].
    apply only_success_bind. intros rc.
    apply only_success_forced; [exact Hforce|].
    repeat (apply only_success_bind; intros ?). apply only_success_ret.
  - apply P_bind_ret_inv in Hrun as (_ & w3 & e5 & e6 & _ & Hrun & _).
    injection Hrun as <- _ _. right. left.
Qed.

(** *** A successful session ends with the teardown *)

Lemma ends_with_teardown_cons e evs :
  not_teardown e -> ends_with_teardown evs -> ends_with_teardown (e :: evs).
Proof.
  intros He (evs0 & -> & Hevs0). exists (e :: evs0). split; [reflexivity|].
  constructor; assumption.
Qed.

Lemma ends_with_teardown_app e1 evs :
  Forall not_teardown e1 -> ends_with_teardown evs -> ends_with_teardown (e1 ++ evs).
Proof.
  induction 1 as [|e e1 He He1 IH]; intros Hevs; [exact Hevs|].
  simpl. apply ends_with_teardown_cons; auto.
Qed.

Lemma succeeds_with_bind {A} (m : @P W A) (f : A -> P Z) :
  emits not_teardown m -> (forall a, succeeds_with ends_with_teardown (f a)) ->
  succeeds_with ends_with_teardown (m ≫= f).
Proof.
  intros Hm Hf w w' e Hrun.
  apply P_bind_ret_inv in Hrun as (a & w1 & e1 & e2 & Em & Ef & ->).
  apply ends_with_teardown_app; [exact (Hm _ _ _ _ Em) | exact (Hf _ _ _ _ Ef)].
Qed.

Lemma succeeds_with_unless_forced failed msg settings (v : Z) (k : @P W Z) :
  v <> APP_RESULT_SUCCESS -> succeeds_with ends_with_teardown k ->
  succeeds_with ends_with_teardown (unless_forced failed msg settings v k).
Proof.
  intros Hv Hk. unfold unless_forced. destruct failed; [|exact Hk].
  apply succeeds_with_bind; [apply emits_say; exact I|]. intros _.
  destruct (negb (force settings)); [|exact Hk].
  intros w w' e [= Hcode _ _]. elim Hv. exact Hcode.
Qed.

Lemma poll_loop_no_teardown fuel t :
  trace_ok t -> emits not_teardown (poll_loop D fuel t).
Proof.
  intros Hok w r w' e Hrun.
  destruct (poll_loop_session D fuel t w Hok)
    as (r0 & w0 & evs & ops & os & t' & Hloop & _ & _ & _ & _ & Hpoll).
  rewrite Hrun in Hloop. injection Hloop as <- <- <-.
  eapply Forall_impl; [exact Hpoll|].
  intros [] Hx; simpl in *; try exact I. subst. reflexivity.
Qed.

Lemma main_success_teardown settings fuel :
  show_help settings = false -> show_version settings = false ->
  succeeds_with ends_with_teardown (main H D (Some settings) fuel).
Proof.
  intros Hhelp Hversion. unfold main. rewrite Hhelp, Hversion.
  apply succeeds_with_bind; [apply emits_say; exact I|]. intros _.
  apply succeeds_with_bind; [apply StLinkConnect_no_teardown|].
  intros [stlink|].
  - do 3 (apply succeeds_with_unless_forced; [discriminate|]).
    apply succeeds_with_bind; [apply EnableTrace_no_teardown|]. intros enabled.
    apply succeeds_with_unless_forced; [discriminate|].
    apply succeeds_with_bind; [apply emits_call; reflexivity|]. intros rc.
    apply succeeds_with_unless_forced; [discriminate|].
    apply succeeds_with_bind; [apply emits_say; exact I|]. intros _.
    apply succeeds_with_bind.
    { intros w r w' e [= <- <- <-]. constructor. }
    intros now.
    apply succeeds_with_bind; [apply poll_loop_no_teardown, trace_init_ok|]. intros _.
    intros w w' e Hrun.
    apply P_bind_ret_inv in Hrun as (a & w1 & e1 & e2 & Em & Hrun & ->).
    apply P_bind_ret_inv in Hrun as (b & w2 & e3 & e4 & Ef & Hrun & ->).
    unfold call in Em, Ef.
    destruct (do_trace_disable D w) as [x1 y1]. injection Em as _ _ <-.
    destruct (do_close D w1) as [x2 y2]. injection Ef as _ _ <-.
    injection Hrun as _ <-. exists []. split; [reflexivity | constructor].
  - apply succeeds_with_bind; [apply emits_say; exact I|]. intros _.
    intros w w' e Hrun. discriminate Hrun.
Qed.

End Exit_facts.

(** X12: with [force] set, [main] returns success or the code for a
    probe that was not found, and no other code: every later check logs
    its error and goes on (lines 498-527). *)
Theorem force_leaves_one_error_exit {W} (H : stlink_h) (D : stlink_driver W)
    settings fuel (w : W) code w' evs :
  force settings = true ->
  main H D (Some settings) fuel w = (Ret code, w', evs) ->
  code = APP_RESULT_SUCCESS \/ code = APP_RESULT_STLINK_NOT_FOUND.
Proof.
  intros Hforce Hrun.
  pose proof (main_forced_exits H D settings fuel Hforce w code w' evs Hrun) as Hin.
  apply elem_of_cons in Hin as [-> | Hin]; [left; reflexivity|].
  apply elem_of_cons in Hin as [Hin | Hin]; [right; exact Hin | inversion Hin].
Qed.

Lemma force_leaves_one_error_exit_witness :
  (force (with_force default_settings) = true /\
   forced_run = (Ret APP_RESULT_SUCCESS, world_of forced_run, events_of forced_run)) /\
  (APP_RESULT_SUCCESS = APP_RESULT_SUCCESS \/
   APP_RESULT_SUCCESS = APP_RESULT_STLINK_NOT_FOUND).
Proof.
  assert (forced_run = (Ret APP_RESULT_SUCCESS, world_of forced_run, events_of forced_run))
    as Hrun by (vm_compute; reflexivity).
  split; [split; [reflexivity | exact Hrun]|].
  exact (force_leaves_one_error_exit sample_stlink_h scripted (with_force default_settings)
           10 (failing_run sample_world) APP_RESULT_SUCCESS
           (world_of forced_run) (events_of forced_run) eq_refl Hrun).
Defined.

(** X13: a run of [main] that gets past the help and version exits and
    returns success ends with [stlink_trace_disable] and [stlink_close],
    in this order, and calls neither of them before. *)
Theorem success_ends_with_teardown {W} (H : stlink_h) (D : stlink_driver W)
    settings fuel (w : W) w' evs :
  show_help settings = false -> show_version settings = false ->
  main H D (Some settings) fuel w = (Ret APP_RESULT_SUCCESS, w', evs) ->
  ends_with_teardown evs.
Proof.
  intros Hhelp Hversion Hrun.
  exact (main_success_teardown H D settings fuel Hhelp Hversion w w' evs Hrun).
Qed.

Lemma success_ends_with_teardown_witness :
  (show_help default_settings = false /\ show_version default_settings = false /\
   success_run = (Ret APP_RESULT_SUCCESS, world_of success_run, events_of success_run)) /\
  ends_with_teardown (events_of success_run).
Proof.
  assert (success_run = (Ret APP_RESULT_SUCCESS, world_of success_run, events_of success_run))
    as Hrun by (vm_compute; reflexivity).
  split; [split_all; [reflexivity | reflexivity | exact Hrun]|].
  exact (success_ends_with_teardown sample_stlink_h scripted default_settings 10
           sample_world (world_of success_run) (events_of success_run)
           eq_refl eq_refl Hrun).
Defined.
Section Enable_facts.

Context {W : Type}.
Variable H : stlink_h.
Variable D : stlink_driver W.

(** *** When [EnableTrace] fails *)

Lemma fails_as_logged_bind {A} settings (m : @P W A) (f : A -> P bool) :
  always_ret (fun _ => True) m ->
  emits (fun e => is_probe_failure e = false) m ->
  (forall a, fails_as_logged settings (f a)) ->
  fails_as_logged settings (m ≫= f).
Proof.
  intros Hret Hm Hf w.
  destruct (Hret w) as (a & w1 & e1 & Em & _).
  destruct (Hf a w1) as (b & w2 & e2 & Ef & Hb).
  exists b, w2, (e1 ++ e2). split.
  - unfold mbind, P_mbind, P_bind. rewrite Em, Ef. reflexivity.
  - rewrite existsb_app.
    assert (existsb is_probe_failure e1 = false) as ->; [|exact Hb].
    pose proof (Hm _ _ _ _ Em) as Hq. clear Em.
    induction Hq as [|e e1 He _ IH]; [reflexivity|]. simpl. rewrite He. exact IH.
Qed.

Lemma fails_as_logged_unless_forced failed msg settings (k : @P W bool) :
  is_probe_failure (ELOG msg) = true ->
  fails_as_logged settings k ->
  fails_as_logged settings (unless_forced failed msg settings false k).
Proof.
  intros Hmsg Hk w. unfold unless_forced. destruct failed; [|exact (Hk w)].
  unfold mbind, P_mbind, P_bind, say.
  destruct (force settings) eqn:Hforce; simpl.
  - destruct (Hk w) as (b & w2 & e2 & Ek & Hb). rewrite Ek.
    exists b, w2, (ELOG msg :: e2). split; [reflexivity|].
    split.
    + intros Hfalse. apply Hb in Hfalse as [Hf _]. congruence.
    + intros [Hf _]. congruence.
  - exists false, w, [ELOG msg]. split; [reflexivity|].
    split; [|reflexivity]. intros _. split; [reflexivity|].
    change (is_probe_failure (ELOG msg) || false = true). rewrite Hmsg. reflexivity.
Qed.

Lemma fails_as_logged_true settings :
  fails_as_logged settings (mret true : @P W bool).
Proof.
  intros w. exists true, w, []. split; [reflexivity|].
  split; [discriminate | intros [_ Hx]; discriminate].
Qed.

Ltac unlogged_steps :=
  repeat first
    [ apply emits_ret
    | progress unfold Write32, Read32
    | apply emits_call; reflexivity
    | apply emits_call_read; intros; reflexivity
    | apply emits_say; reflexivity
    | apply emits_bind; [|intros ?]
    | match goal with
      | |- emits _ (if ?b then _ else _) => destruct b
      end ].

Ltac returning_steps :=
  repeat first
    [ apply always_ret_ret; reflexivity
    | apply always_ret_Write32
    | apply always_ret_Read32
    | apply always_ret_call
    | apply always_ret_say
    | eapply (always_ret_bind (fun _ => True)); [|intros ? _]
    | match goal with
      | |- always_ret _ (if ?b then _ else _) => destruct b
      end ].

Ltac fails_step :=
  apply fails_as_logged_bind; [returning_steps | unlogged_steps | intros ?].

Lemma EnableTrace_fails_as_logged settings :
  fails_as_logged settings (EnableTrace H D settings).
Proof.
  unfold EnableTrace.
  fails_step. apply fails_as_logged_unless_forced; [reflexivity|].
  fails_step. apply fails_as_logged_unless_forced; [reflexivity|].
  do 9 fails_step.
  fails_step. apply fails_as_logged_unless_forced; [reflexivity|].
  do 13 fails_step.
  apply fails_as_logged_true.
Qed.

End Enable_facts.


Section Run_facts.

Context {W : Type}.
Variable H : stlink_h.
Variable D : stlink_driver W.

(** *** Events of a whole run *)

Lemma poll_loop_emits (Q : event -> Prop) fuel t :
  trace_ok t ->
  (forall e, (forall c, e <> Call c) -> Q e) -> Q (Call stlink_trace_read) ->
  emits Q (poll_loop D fuel t).
Proof.
  intros Hok Hother Hread w r w' e Hrun.
  destruct (poll_loop_session D fuel t w Hok)
    as (r0 & w0 & evs & ops & os & t' & Hloop & _ & _ & _ & _ & Hpoll).
  rewrite Hrun in Hloop. injection Hloop as <- <- <-.
  eapply Forall_impl; [exact Hpoll|].
  intros x Hx. destruct x; try (apply Hother; intros ?; discriminate).
  simpl in Hx. subst. exact Hread.
Qed.

Lemma main_emits (Q : event -> Prop) settings fuel :
  (forall e, (forall c, e <> Call c) -> Q e) ->
  Q (Call stlink_open_usb) -> Q (Call stlink_run) -> Q (Call stlink_trace_read) ->
  Q (Call stlink_trace_disable) -> Q (Call stlink_close) ->
  emits Q (EnableTrace H D settings) ->
  emits Q (main H D (Some settings) fuel).
Proof.
  intros Hother Hopen Hrun Hread Hdisable Hclose Henable.
  assert (forall ev, (forall c, ev <> Call c) -> emits Q (say ev : @P W unit)) as Hsay.
  { intros ev Hev. apply emits_say. apply Hother, Hev. }
  assert (forall m, Q (ELOG m)) as Hlog.
  { intros m. apply Hother. intros c. discriminate. }
  unfold main.
  apply emits_bind; [apply Hsay; intros ?; discriminate|]. intros _.
  destruct (show_help settings).
  { apply emits_bind; [apply Hsay; intros ?; discriminate|]. intros _. apply emits_ret. }
  destruct (show_version settings).
  { apply emits_bind; [apply Hsay; intros ?; discriminate|]. intros _. apply emits_ret. }
  apply emits_bind.
  { unfold StLinkConnect. destruct (serial_number settings) as [text|].
    - destruct (ConvertSerialNumberTextToBinary _ _ _) as [[b l]|].
      + apply emits_call. exact Hopen.
      + apply emits_undefined.
    - apply emits_call. exact Hopen. }
  intros [stlink|].
  - do 3 (apply emits_unless_forced; [apply Hlog|]).
    apply emits_bind; [exact Henable|]. intros enabled.
    apply emits_unless_forced; [apply Hlog|].
    apply emits_bind; [apply emits_call; exact Hrun|]. intros rc.
    apply emits_unless_forced; [apply Hlog|].
    apply emits_bind; [apply Hsay; intros ?; discriminate|]. intros _.
    apply emits_bind.
    { intros w r w' e [= <- <- <-]. constructor. }
    intros now.
    apply emits_bind; [apply poll_loop_emits; [apply trace_init_ok | exact Hother | exact Hread]|].
    intros _.
    apply emits_bind; [apply emits_call; exact Hdisable|]. intros _.
    apply emits_bind; [apply emits_call; exact Hclose|]. intros _.
    apply emits_ret.
  - apply emits_bind; [apply Hsay; intros ?; discriminate|]. intros _. apply emits_ret.
Qed.

Ltac no_reset_steps :=
  repeat first
    [ apply emits_ret
    | apply emits_Write32; [intros; exact I | exact I]
    | apply emits_Read32; [intros; exact I | intros; exact I]
    | apply emits_call; exact I
    | apply emits_say; exact I
    | apply emits_unless_forced; [exact I|]
    | apply emits_bind; [|intros ?]
    | match goal with
      | |- emits _ (if ?b then _ else _) => destruct b
      end ].

Lemma EnableTrace_no_reset settings :
  reset_board settings = false -> emits no_reset (EnableTrace H D settings).
Proof. intros Hreset. unfold EnableTrace. rewrite Hreset. no_reset_steps. Qed.

Lemma main_no_reset settings fuel :
  reset_board settings = false -> emits no_reset (main H D (Some settings) fuel).
Proof.
  intros Hreset. apply main_emits; try exact I.
  - intros e He. destruct e as [| | | | | |c]; try exact I. elim (He c). reflexivity.
  - apply EnableTrace_no_reset, Hreset.
Qed.

(** *** No undefined behaviour *)

Lemma safe_bind {A B} (m : @P W A) (f : A -> P B) :
  safe m -> (forall a, safe (f a)) -> safe (m ≫= f).
Proof.
  intros Hm Hf w r w' e. unfold mbind, P_mbind, P_bind.
  destruct (m w) as [[[a| |] w1] e1] eqn:Em.
  - destruct (f a w1) as [[r2 w2] e2] eqn:Ef. intros [= <- <- <-].
    exact (Hf _ _ _ _ _ Ef).
  - intros [= <- <- <-]. discriminate.
  - elim (Hm _ _ _ _ Em). reflexivity.
Qed.

Lemma always_ret_safe {A} (S : A -> Prop) (m : @P W A) : always_ret S m -> safe m.
Proof.
  intros Hm w r w' e Hrun. destruct (Hm w) as (a & w1 & e1 & Em & _).
  rewrite Em in Hrun. injection Hrun as <- _ _. discriminate.
Qed.

Lemma safe_ret {A} (a : A) : safe (mret a : @P W A).
Proof. intros w r w' e [= <- <- <-]. discriminate. Qed.

Lemma safe_say ev : safe (say ev : @P W unit).
Proof. intros w r w' e [= <- <- <-]. discriminate. Qed.

Lemma safe_call {R} c (f : W -> R * W) : safe (call c f).
Proof. apply (always_ret_safe (fun _ => True)), always_ret_call. Qed.

Lemma safe_unless_forced {A} failed msg settings (v : A) (k : @P W A) :
  safe k -> safe (unless_forced failed msg settings v k).
Proof.
  intros Hk. unfold unless_forced. destruct failed; [|exact Hk].
  apply safe_bind; [apply safe_say|]. intros _.
  destruct (negb (force settings)); [apply safe_ret | exact Hk].
Qed.

Lemma EnableTrace_safe settings : safe (EnableTrace H D settings).
Proof.
  intros w r w' e Hrun.
  destruct (EnableTrace_fails_as_logged H D settings w) as (b & w1 & e1 & Em & _).
  rewrite Em in Hrun. injection Hrun as <- _ _. discriminate.
Qed.

Lemma StLinkConnect_safe settings :
  0 <= STLINK_SERIAL_MAX_SIZE H -> safe (StLinkConnect H D settings).
Proof.
  intros Hmax. unfold StLinkConnect. destruct (serial_number settings) as [text|].
  - destruct (convert_loop_safe (STLINK_SERIAL_MAX_SIZE H) text 0 0
                (replicate (Z.to_nat (STLINK_SERIAL_MAX_SIZE H)) 0))
      as (out & len & Hconv & _); [lia | lia | rewrite length_replicate; lia |].
    unfold ConvertSerialNumberTextToBinary. rewrite Hconv. apply safe_call.
  - apply safe_call.
Qed.

Lemma poll_loop_safe fuel t : trace_ok t -> safe (poll_loop D fuel t).
Proof.
  intros Hok w r w' e Hrun.
  destruct (poll_loop_session D fuel t w Hok)
    as (r0 & w0 & evs & ops & os & t' & Hloop & Hr & _).
  rewrite Hrun in Hloop. injection Hloop as <- _ _.
  destruct Hr as [-> | ->]; discriminate.
Qed.

Lemma main_safe parsed fuel :
  0 <= STLINK_SERIAL_MAX_SIZE H -> safe (main H D parsed fuel).
Proof.
  intros Hmax. unfold main. destruct parsed as [settings|].
  - apply safe_bind; [apply safe_say|]. intros _.
    destruct (show_help settings).
    { apply safe_bind; [apply safe_say|]. intros _. apply safe_ret. }
    destruct (show_version settings).
    { apply safe_bind; [apply safe_say|]. intros _. apply safe_ret. }
    apply safe_bind; [apply StLinkConnect_safe, Hmax|].
    intros [stlink|].
    + do 3 apply safe_unless_forced.
      apply safe_bind; [apply EnableTrace_safe|]. intros enabled.
      apply safe_unless_forced.
      apply safe_bind; [apply safe_call|]. intros rc.
      apply safe_unless_forced.
      apply safe_bind; [apply safe_say|]. intros _.
      apply safe_bind.
      { intros w r w' e [= <- <- <-]. discriminate. }
      intros now.
      apply safe_bind; [apply poll_loop_safe, trace_init_ok|]. intros _.
      apply safe_bind; [apply safe_call|]. intros _.
      apply safe_bind; [apply safe_call|]. intros _.
      apply safe_ret.
    + apply safe_bind; [apply safe_say|]. intros _. apply safe_ret.
  - apply safe_bind; [apply safe_say|]. intros _. apply safe_ret.
Qed.

End Run_facts.

(** X15: with [reset_board] unset (option [-n]) no run of [main] calls
    [stlink_reset]. *)
Theorem no_reset_when_not_asked {W} (H : stlink_h) (D : stlink_driver W)
    settings fuel (w : W) :
  reset_board settings = false ->
  Forall no_reset (snd (main H D (Some settings) fuel w)) /\
  stlink_reset ∉ calls_of (snd (main H D (Some settings) fuel w)).
Proof.
  intros Hreset.
  destruct (main H D (Some settings) fuel w) as [[r w'] evs] eqn:Hrun.
  pose proof (main_no_reset H D settings fuel Hreset w r w' evs Hrun) as Hq.
  split; [exact Hq|]. simpl. clear Hrun.
  induction Hq as [|e evs He _ IH]; [apply not_elem_of_nil|].
  destruct e as [| | | | | |c]; simpl; try exact IH.
  apply not_elem_of_cons. split; [|exact IH].
  intros <-. exact He.
Qed.

Lemma no_reset_when_not_asked_witness :
  reset_board (without_reset default_settings) = false /\
  Forall no_reset
    (snd (main sample_stlink_h scripted (Some (without_reset default_settings)) 10
            sample_world)) /\
  stlink_reset ∉
    calls_of (snd (main sample_stlink_h scripted (Some (without_reset default_settings)) 10
                     sample_world)).
Proof.
  split; [reflexivity|].
  apply (no_reset_when_not_asked sample_stlink_h scripted (without_reset default_settings)
           10 sample_world). reflexivity.
Defined.

(** X16: no run of [main] meets undefined behaviour in what the model
    follows: the conversion of the serial number stays inside the text and
    inside the buffer of [STLINK_SERIAL_MAX_SIZE] bytes, and the decoder
    and the heuristic stay inside the array of unknown opcodes, whatever
    the command line, the probe and the trace data are. *)
Theorem main_never_undefined {W} (H : stlink_h) (D : stlink_driver W)
    parsed fuel (w : W) :
  0 <= STLINK_SERIAL_MAX_SIZE H ->
  fst (fst (main H D parsed fuel w)) <> Undefined_behaviour.
Proof.
  intros Hmax.
  destruct (main H D parsed fuel w) as [[r w'] evs] eqn:Hrun.
  exact (main_safe H D parsed fuel Hmax w r w' evs Hrun).
Qed.

Lemma main_never_undefined_witness :
  0 <= STLINK_SERIAL_MAX_SIZE sample_stlink_h /\
  fst (fst (main sample_stlink_h scripted (Some default_settings) 10 sample_world))
  <> Undefined_behaviour.
Proof.
  assert (0 <= STLINK_SERIAL_MAX_SIZE sample_stlink_h) as Hmax by (vm_compute; discriminate).
  split; [exact Hmax|].
  apply (main_never_undefined sample_stlink_h scripted (Some default_settings) 10
           sample_world Hmax).
Defined.
(** ** The command line *)

Section Options_facts.

Variable atoi : list Z -> Z.

Lemma last_option_cons c o opts :
  last_option c (o :: opts) =
    match last_option c opts with
    | Some o' => Some o'
    | None => if opt_c o =? c then Some o else None
    end.
Proof.
  unfold last_option. simpl. destruct (opt_c o =? c).
  - rewrite last_cons. reflexivity.
  - destruct (last _); reflexivity.
Qed.

(** What the loop makes of the settings it starts with. *)
Lemma options_loop_spec opts : forall settings error,
  Forall option_ok opts ->
  exists settings' error' evs,
    options_loop atoi opts settings error = Some (settings', error', evs) /\
    show_help settings' = show_help settings || has_option 104 opts /\
    show_version settings' = show_version settings || has_option 86 opts /\
    reset_board settings' = reset_board settings && negb (has_option 110 opts) /\
    force settings' = force settings || has_option 102 opts /\
    error' = error || existsb (fun o => negb (known_option (opt_c o))) opts /\
    logging_level settings' =
      match last_option 118 opts with
      | Some o => verbose_level atoi o
      | None => logging_level settings
      end /\
    core_frequency_mhz settings' =
      match last_option 99 opts with
      | Some o => match optarg o with Some text => atoi text | None => 0 end
      | None => core_frequency_mhz settings
      end /\
    serial_number settings' =
      match last_option 115 opts with
      | Some o => optarg o
      | None => serial_number settings
      end /\
    levels_of evs = map (verbose_level atoi) (List.filter (fun o => opt_c o =? 118) opts) /\
    (forall e, e ∈ evs -> forall arg, e <> Unknown_argument arg).
Proof.
  induction opts as [|o opts IH]; intros settings error Hok.
  - exists settings, error, []. simpl.
    rewrite !orb_false_r, andb_true_r. split_all; try reflexivity.
    intros e He. inversion He.
  - apply Forall_cons in Hok as [Ho Hok].
    assert (exists s1 e1 ev1,
      option_step atoi o settings error = Some (s1, e1, ev1) /\
      show_help s1 = show_help settings || (opt_c o =? 104) /\
      show_version s1 = show_version settings || (opt_c o =? 86) /\
      reset_board s1 = reset_board settings && negb (opt_c o =? 110) /\
      force s1 = force settings || (opt_c o =? 102) /\
      e1 = error || negb (known_option (opt_c o)) /\
      logging_level s1 = (if opt_c o =? 118 then verbose_level atoi o
                          else logging_level settings) /\
      core_frequency_mhz s1 =
        (if opt_c o =? 99
         then match optarg o with Some text => atoi text | None => 0 end
         else core_frequency_mhz settings) /\
      serial_number s1 = (if opt_c o =? 115 then optarg o else serial_number settings) /\
      levels_of ev1 = (if opt_c o =? 118 then [verbose_level atoi o] else []) /\
      (forall e, e ∈ ev1 -> forall arg, e <> Unknown_argument arg)) as Hstep.
    { unfold option_step, known_option, option_ok in *.
      destruct (opt_c o =? 104) eqn:E1;
        [apply Z.eqb_eq in E1; rewrite ?E1; eexists; eexists; eexists;
         split; [reflexivity|]; simpl;
         rewrite ?orb_true_r, ?orb_false_r, ?andb_true_r;
         split_all; try reflexivity; intros e He; inversion He|].
      destruct (opt_c o =? 86) eqn:E2;
        [apply Z.eqb_eq in E2; rewrite ?E2; eexists; eexists; eexists;
         split; [reflexivity|]; simpl;
         rewrite ?orb_true_r, ?orb_false_r, ?andb_true_r;
         split_all; try reflexivity; intros e He; inversion He|].
      destruct (opt_c o =? 118) eqn:E3;
        [apply Z.eqb_eq in E3; rewrite ?E3; eexists; eexists; eexists;
         split; [reflexivity|]; simpl;
         rewrite ?orb_true_r, ?orb_false_r, ?andb_true_r;
         split_all; try reflexivity; intros e He;
         apply elem_of_cons in He as [-> | He]; [discriminate | inversion He]|].
      destruct (opt_c o =? 99) eqn:E4.
      { apply Z.eqb_eq in E4. destruct (Ho E4) as [text Htext]. rewrite Htext, E4.
        eexists. eexists. eexists. split; [reflexivity|]. simpl.
        rewrite ?orb_true_r, ?orb_false_r, ?andb_true_r.
        split_all; try reflexivity. intros e He. inversion He. }
      destruct (opt_c o =? 110) eqn:E5;
        [apply Z.eqb_eq in E5; rewrite ?E5; eexists; eexists; eexists;
         split; [reflexivity|]; simpl;
         rewrite ?orb_true_r, ?orb_false_r, ?andb_true_r, ?andb_false_r;
         split_all; try reflexivity; intros e He; inversion He|].
      destruct (opt_c o =? 102) eqn:E6;
        [apply Z.eqb_eq in E6; rewrite ?E6; eexists; eexists; eexists;
         split; [reflexivity|]; simpl;
         rewrite ?orb_true_r, ?orb_false_r, ?andb_true_r;
         split_all; try reflexivity; intros e He; inversion He|].
      destruct (opt_c o =? 115) eqn:E7;
        [apply Z.eqb_eq in E7; rewrite ?E7; eexists; eexists; eexists;
         split; [reflexivity|]; simpl;
         rewrite ?orb_true_r, ?orb_false_r, ?andb_true_r;
         split_all; try reflexivity; intros e He; inversion He|].
      destruct (opt_c o =? 63) eqn:E8;
        eexists; eexists; eexists; (split; [reflexivity|]); simpl;
        rewrite ?orb_true_r, ?orb_false_r, ?andb_true_r;
        split_all; try reflexivity; intros e He; [inversion He|].
      apply elem_of_cons in He as [-> | He]; [discriminate | inversion He]. }
    destruct Hstep as (s1 & e1 & ev1 & Hstep & Hh & Hv & Hr & Hf & He & Hl & Hc & Hs & Hlev & Harg).
    destruct (IH s1 e1 Hok)
      as (s2 & e2 & ev2 & Hloop & Hh2 & Hv2 & Hr2 & Hf2 & He2 & Hl2 & Hc2 & Hs2 & Hlev2 & Harg2).
    exists s2, e2, (ev1 ++ ev2). split.
    { simpl. rewrite Hstep, Hloop. reflexivity. }
    rewrite Hh2, Hv2, Hr2, Hf2, He2, Hl2, Hc2, Hs2, Hh, Hv, Hr, Hf, He, Hl, Hc, Hs.
    rewrite !last_option_cons. unfold has_option. simpl.
    rewrite !orb_assoc, negb_orb, andb_assoc.
    split_all; try reflexivity.
    + destruct (last_option 118 opts); [reflexivity|]. destruct (opt_c o =? 118); reflexivity.
    + destruct (last_option 99 opts); [reflexivity|]. destruct (opt_c o =? 99); reflexivity.
    + destruct (last_option 115 opts); [reflexivity|]. destruct (opt_c o =? 115); reflexivity.
    + unfold levels_of in *. rewrite flat_map_app, Hlev, Hlev2.
      destruct (opt_c o =? 118); reflexivity.
    + intros e Hin. apply elem_of_app in Hin as [Hin | Hin]; auto.
Qed.

End Options_facts.

Lemma levels_of_arguments args : levels_of (map Unknown_argument args) = [].
Proof. induction args as [|a args IH]; [reflexivity | exact IH]. Qed.

Lemma last_map {A B} (f : A -> B) (l : list A) : last (map f l) = option_map f (last l).
Proof.
  induction l as [|x l IH]; [reflexivity|].
  simpl map. rewrite !last_cons, IH. destruct (last l); reflexivity.
Qed.

Lemma sample_options_ok : Forall option_ok sample_options.
Proof.
  repeat constructor; unfold option_ok; simpl; intros Hc;
    first [discriminate Hc | eexists; reflexivity].
Qed.

(** X17: [parse_options] returns [true] exactly when the command line
    has no error (no turn of the [getopt_long] loop other than the seven
    options, no argument left over) or [-f] is given, before or after the
    error; and [force] is set exactly when [-f] is given. *)
Theorem force_overrides_command_line_errors atoi opts args :
  Forall option_ok opts ->
  exists settings evs,
    parse_options atoi opts args
    = Some (has_option 102 opts || negb (command_line_error opts args), settings, evs) /\
    force settings = has_option 102 opts.
Proof.
  intros Hok.
  destruct (options_loop_spec atoi opts initial_settings false Hok)
    as (s & e & evs & Hloop & _ & _ & _ & Hf & He & _).
  unfold parse_options. rewrite Hloop. eexists. eexists. split; [|exact Hf].
  rewrite Hf, He. unfold command_line_error. simpl.
  destruct args; destruct (has_option 102 opts); destruct (existsb _ opts); reflexivity.
Qed.

Lemma force_overrides_command_line_errors_witness :
  Forall option_ok sample_options /\
  exists settings evs,
    parse_options sample_atoi sample_options [[101; 120]]
    = Some (has_option 102 sample_options
            || negb (command_line_error sample_options [[101; 120]]), settings, evs) /\
    force settings = has_option 102 sample_options.
Proof.
  split; [exact sample_options_ok|].
  apply (force_overrides_command_line_errors sample_atoi sample_options [[101; 120]]
           sample_options_ok).
Defined.

(** X18: the settings that [parse_options] leaves.  The four flags
    depend on the presence of their option alone ([-n] clears
    [reset_board], the others set their flag), wherever it stands and
    however often it is given; of the options with a value the last
    occurrence counts: [-v] gives the level of its argument or 100 without
    one, [-c] the clock, [-s] the serial number; without the option the
    values are 50, 0 and no serial number. *)
Theorem settings_follow_the_options atoi opts args :
  Forall option_ok opts ->
  exists ok settings evs,
    parse_options atoi opts args = Some (ok, settings, evs) /\
    show_help settings = has_option 104 opts /\
    show_version settings = has_option 86 opts /\
    reset_board settings = negb (has_option 110 opts) /\
    force settings = has_option 102 opts /\
    logging_level settings =
      match last_option 118 opts with
      | Some o => verbose_level atoi o
      | None => DEFAULT_LOGGING_LEVEL
      end /\
    core_frequency_mhz settings =
      match last_option 99 opts with
      | Some o => match optarg o with Some text => atoi text | None => 0 end
      | None => 0
      end /\
    serial_number settings =
      match last_option 115 opts with
      | Some o => optarg o
      | None => None
      end.
Proof.
  intros Hok.
  destruct (options_loop_spec atoi opts initial_settings false Hok)
    as (s & e & evs & Hloop & Hh & Hv & Hr & Hf & _ & Hl & Hc & Hs & _).
  unfold parse_options. rewrite Hloop. eexists. exists s. eexists.
  split; [reflexivity|]. split_all; assumption.
Qed.

Lemma settings_follow_the_options_witness :
  Forall option_ok sample_options /\
  exists ok settings evs,
    parse_options sample_atoi sample_options [] = Some (ok, settings, evs) /\
    show_help settings = has_option 104 sample_options /\
    show_version settings = has_option 86 sample_options /\
    reset_board settings = negb (has_option 110 sample_options) /\
    force settings = has_option 102 sample_options /\
    logging_level settings =
      match last_option 118 sample_options with
      | Some o => verbose_level sample_atoi o
      | None => DEFAULT_LOGGING_LEVEL
      end /\
    core_frequency_mhz settings =
      match last_option 99 sample_options with
      | Some o => match optarg o with Some text => sample_atoi text | None => 0 end
      | None => 0
      end /\
    serial_number settings =
      match last_option 115 sample_options with
      | Some o => optarg o
      | None => None
      end.
Proof.
  split; [exact sample_options_ok|].
  apply (settings_follow_the_options sample_atoi sample_options [] sample_options_ok).
Defined.

(** X19: the logger is set up once with the default level and once more
    for every [-v], with the level that [-v] stores; so when
    [parse_options] returns, the level the logger was last set up with is
    the level in the settings. *)
Theorem logger_follows_the_level atoi opts args :
  Forall option_ok opts ->
  exists ok settings evs,
    parse_options atoi opts args = Some (ok, settings, evs) /\
    levels_of evs
    = DEFAULT_LOGGING_LEVEL
      :: map (verbose_level atoi) (List.filter (fun o => opt_c o =? 118) opts) /\
    last (levels_of evs) = Some (logging_level settings).
Proof.
  intros Hok.
  destruct (options_loop_spec atoi opts initial_settings false Hok)
    as (s & e & evs & Hloop & _ & _ & _ & _ & _ & Hl & _ & _ & Hlev & _).
  unfold parse_options. rewrite Hloop. eexists. exists s. eexists.
  split; [reflexivity|].
  assert (levels_of (Ugly_init DEFAULT_LOGGING_LEVEL :: evs ++ map Unknown_argument args)
          = DEFAULT_LOGGING_LEVEL
            :: map (verbose_level atoi) (List.filter (fun o => opt_c o =? 118) opts))
    as Heq.
  { unfold levels_of in *. simpl. rewrite flat_map_app, Hlev.
    fold (levels_of (map Unknown_argument args)). rewrite levels_of_arguments, app_nil_r.
    reflexivity. }
  split; [exact Heq|]. rewrite Heq, last_cons, last_map, Hl.
  unfold last_option. destruct (last _); reflexivity.
Qed.

Lemma logger_follows_the_level_witness :
  Forall option_ok sample_options /\
  exists ok settings evs,
    parse_options sample_atoi sample_options [] = Some (ok, settings, evs) /\
    levels_of evs
    = DEFAULT_LOGGING_LEVEL
      :: map (verbose_level sample_atoi)
           (List.filter (fun o => opt_c o =? 118) sample_options) /\
    last (levels_of evs) = Some (logging_level settings).
Proof.
  split; [exact sample_options_ok|].
  apply (logger_follows_the_level sample_atoi sample_options [] sample_options_ok).
Defined.

Lemma option_step_events atoi o settings error settings1 error1 evs1 :
  option_step atoi o settings error = Some (settings1, error1, evs1) ->
  evs1 = option_events atoi o.
Proof.
  unfold option_step, option_events.
  destruct (opt_c o =? 104) eqn:E1;
    [apply Z.eqb_eq in E1; rewrite ?E1; intros [= _ _ <-]; reflexivity|].
  destruct (opt_c o =? 86) eqn:E2;
    [apply Z.eqb_eq in E2; rewrite ?E2; intros [= _ _ <-]; reflexivity|].
  destruct (opt_c o =? 118) eqn:E3; [intros [= _ _ <-]; reflexivity|].
  destruct (opt_c o =? 99) eqn:E4;
    [destruct (optarg o); [|discriminate]; intros [= _ _ <-]; reflexivity|].
  destruct (opt_c o =? 110) eqn:E5; [intros [= _ _ <-]; reflexivity|].
  destruct (opt_c o =? 102) eqn:E6; [intros [= _ _ <-]; reflexivity|].
  destruct (opt_c o =? 115) eqn:E7; [intros [= _ _ <-]; reflexivity|].
  destruct (opt_c o =? 63) eqn:E8; intros [= _ _ <-]; reflexivity.
Qed.

Lemma options_loop_events atoi opts : forall settings error settings' error' evs,
  options_loop atoi opts settings error = Some (settings', error', evs) ->
  evs = flat_map (option_events atoi) opts.
Proof.
  induction opts as [|o opts IH]; intros settings error settings' error' evs.
  - intros [= _ _ <-]. reflexivity.
  - simpl.
    destruct (option_step atoi o settings error) as [[[s1 e1] ev1]|] eqn:Hstep;
      [|discriminate].
    destruct (options_loop atoi opts s1 e1) as [[[s2 e2] ev2]|] eqn:Hloop;
      [|discriminate].
    intros [= _ _ <-].
    rewrite (option_step_events _ _ _ _ _ _ _ Hstep), (IH _ _ _ _ _ Hloop). reflexivity.
Qed.

(** X20: a command line with an error and without [-f] ends the program
    with the code for invalid parameters before anything is done with a
    probe.  What the program sends out is what [parse_options] sends out,
    then the usage text: the logger is set up, and again for every [-v];
    every value of [getopt_long] other than the seven options and '?' is
    logged as an unknown option; every argument left over is logged as an
    unknown argument, in order. *)
Theorem rejected_command_line_stops_early {W} (H : stlink_h) (D : stlink_driver W)
    atoi opts args fuel (w : W) :
  Forall option_ok opts ->
  command_line_error opts args = true -> has_option 102 opts = false ->
  st_trace H D atoi opts args fuel w
  = (Ret APP_RESULT_INVALID_PARAMS, w,
     map Parsing (command_line_events atoi opts args) ++ [Running Usage]).
Proof.
  intros Hok Herr Hforce.
  destruct (options_loop_spec atoi opts initial_settings false Hok)
    as (s & e & evs & Hloop & _ & _ & _ & Hf & He & _).
  assert (negb ((match args with [] => e | _ => true end) && negb (force s)) = false)
    as Hno.
  { rewrite Hf, Hforce, He. unfold command_line_error in Herr.
    destruct args; simpl in *; [rewrite orb_false_r in Herr; rewrite Herr|]; reflexivity. }
  unfold st_trace, parse_options. rewrite Hloop. cbv beta iota zeta. rewrite Hno.
  rewrite (options_loop_events _ _ _ _ _ _ _ Hloop). reflexivity.
Qed.

Lemma rejected_command_line_stops_early_witness :
  (Forall option_ok [mk_getopt 118 None; mk_getopt 120 None] /\
   command_line_error [mk_getopt 118 None; mk_getopt 120 None] [[101; 120]] = true /\
   has_option 102 [mk_getopt 118 None; mk_getopt 120 None] = false) /\
  st_trace sample_stlink_h scripted sample_atoi [mk_getopt 118 None; mk_getopt 120 None]
    [[101; 120]] 10 sample_world
  = (Ret APP_RESULT_INVALID_PARAMS, sample_world,
     map Parsing
       (command_line_events sample_atoi [mk_getopt 118 None; mk_getopt 120 None]
          [[101; 120]])
     ++ [Running Usage]).
Proof.
  assert (Forall option_ok [mk_getopt 118 None; mk_getopt 120 None]) as Hok
    by (repeat constructor; intros Hc; discriminate Hc).
  split; [split_all; [exact Hok | reflexivity | reflexivity]|].
  apply (rejected_command_line_stops_early sample_stlink_h scripted sample_atoi
           [mk_getopt 118 None; mk_getopt 120 None] [[101; 120]] 10 sample_world Hok);
    reflexivity.
Defined.

(** X21: with [-h] on a command line that [parse_options] accepts, the
    program sends out what [parse_options] sends out (with [-f], the lines
    for unknown options and arguments too), then it logs the settings at
    debug level, prints the usage text and returns success without a call
    to the probe, whatever else is given; [-V] does not count then. *)
Theorem help_needs_no_probe {W} (H : stlink_h) (D : stlink_driver W)
    atoi opts args fuel (w : W) :
  Forall option_ok opts ->
  has_option 102 opts || negb (command_line_error opts args) = true ->
  has_option 104 opts = true ->
  st_trace H D atoi opts args fuel w
  = (Ret APP_RESULT_SUCCESS, w,
     map Parsing (command_line_events atoi opts args)
     ++ [Running (DLOG Settings_dump); Running Usage]).
Proof.
  intros Hok Hacc Hhelp.
  destruct (options_loop_spec atoi opts initial_settings false Hok)
    as (s & e & evs & Hloop & Hh & _ & _ & Hf & He & _).
  assert (negb ((match args with [] => e | _ => true end) && negb (force s)) = true)
    as Hyes.
  { rewrite Hf, He. unfold command_line_error in Hacc.
    destruct args; destruct (has_option 102 opts); destruct (existsb _ opts);
      simpl in *; congruence. }
  unfold st_trace, parse_options. rewrite Hloop. cbv beta iota zeta. rewrite Hyes.
  rewrite (options_loop_events _ _ _ _ _ _ _ Hloop).
  unfold main. rewrite Hh, Hhelp. reflexivity.
Qed.

Lemma help_needs_no_probe_witness :
  (Forall option_ok [mk_getopt 102 None; mk_getopt 86 None; mk_getopt 104 None] /\
   has_option 102 [mk_getopt 102 None; mk_getopt 86 None; mk_getopt 104 None]
   || negb (command_line_error
              [mk_getopt 102 None; mk_getopt 86 None; mk_getopt 104 None] [[101; 120]])
   = true /\
   has_option 104 [mk_getopt 102 None; mk_getopt 86 None; mk_getopt 104 None] = true) /\
  st_trace sample_stlink_h scripted sample_atoi
    [mk_getopt 102 None; mk_getopt 86 None; mk_getopt 104 None] [[101; 120]] 10
    sample_world
  = (Ret APP_RESULT_SUCCESS, sample_world,
     map Parsing
       (command_line_events sample_atoi
          [mk_getopt 102 None; mk_getopt 86 None; mk_getopt 104 None] [[101; 120]])
     ++ [Running (DLOG Settings_dump); Running Usage]).
Proof.
  assert (Forall option_ok [mk_getopt 102 None; mk_getopt 86 None; mk_getopt 104 None])
    as Hok by (repeat constructor; intros Hc; discriminate Hc).
  split; [split_all; [exact Hok | reflexivity | reflexivity]|].
  apply (help_needs_no_probe sample_stlink_h scripted sample_atoi
           [mk_getopt 102 None; mk_getopt 86 None; mk_getopt 104 None] [[101; 120]] 10
           sample_world Hok);
    reflexivity.
Defined.

(** ** A serial number of hexadecimal digits *)

Lemma hex_digit_range c : is_hex_digit c -> is_uint8 c /\ c <> 0.
Proof.
  unfold is_hex_digit, hex_digit, is_uint8. intros [d Hd].
  destruct ((48 <=? c) && (c <=? 57)) eqn:E1; [lia|].
  destruct ((97 <=? c) && (c <=? 102)) eqn:E2; [lia|].
  destruct ((65 <=? c) && (c <=? 70)) eqn:E3; [lia | discriminate].
Qed.

Lemma strtol16_pair c0 c1 :
  is_hex_digit c0 -> is_hex_digit c1 ->
  wrap8 (strtol16 [c0; c1; 0]) = pair_value c0 c1.
Proof.
  intros H0 H1.
  pose proof (uint8_cases
    (fun a => forallb (fun b =>
       implb (bool_decide (is_hex_digit a) && bool_decide (is_hex_digit b))
             (wrap8 (strtol16 [a; b; 0]) =? pair_value a b)) (seqZ 0 256))
    eq_refl c0 (proj1 (hex_digit_range c0 H0))) as Hall.
  cbv beta in Hall.
  pose proof (uint8_cases _ Hall c1 (proj1 (hex_digit_range c1 H1))) as Hpair.
  cbv beta in Hpair.
  rewrite !bool_decide_eq_true_2 in Hpair by assumption.
  apply Z.eqb_eq, Hpair.
Qed.

Lemma strlen_hex text : Forall is_hex_digit text -> strlen text = Z.of_nat (length text).
Proof.
  induction 1 as [|c text Hc _ IH]; [reflexivity|].
  cbn [strlen length]. destruct (hex_digit_range c Hc) as [_ Hnz].
  rewrite (proj2 (Z.eqb_neq c 0) Hnz), IH. lia.
Qed.

Lemma convert_loop_step MAX text n len out :
  convert_loop MAX text n len out =
    if bool_decide (n < strlen text /\ len < MAX) then
      match text_at text n, text_at text (n + 1) with
      | Some c0, Some c1 =>
          match store_binary out len (wrap8 (strtol16 [c0; c1; 0])) with
          | Some out' => convert_loop MAX text (wrap32 (n + 2)) (len + 1) out'
          | None => None
          end
      | _, _ => None
      end
    else Some (out, len).
Proof.
  funelim (convert_loop MAX text n len out).
  - rewrite bool_decide_eq_true_2 by (split; assumption). reflexivity.
  - rewrite bool_decide_eq_false_2 by lia. reflexivity.
  - rewrite bool_decide_eq_false_2 by lia. reflexivity.
Qed.

Lemma convert_loop_pairs MAX text k : forall pre rest out len,
  text = pre ++ rest ->
  length pre = (2 * len)%nat -> length rest = (2 * k)%nat ->
  Forall is_hex_digit text ->
  Z.of_nat (len + k) <= MAX -> Z.of_nat (length out) = MAX ->
  Z.of_nat (length text) < 2 ^ 32 ->
  convert_loop MAX text (2 * Z.of_nat len) (Z.of_nat len) out
  = Some (take len out ++ digit_pairs rest ++ drop (len + k) out, Z.of_nat (len + k)).
Proof.
  induction k as [|k IH]; intros pre rest out len Htext Hpre Hrest Hhex Hmax Hout Hlt.
  - destruct rest; [|discriminate]. rewrite convert_loop_step.
    rewrite (strlen_hex text Hhex), Htext, app_nil_r, Hpre.
    rewrite bool_decide_eq_false_2 by lia.
    rewrite Nat.add_0_r. simpl. rewrite take_drop. reflexivity.
  - destruct rest as [|c0 [|c1 rest']]; [simpl in Hrest; lia | simpl in Hrest; lia |].
    assert (length rest' = (2 * k)%nat) as Hrest' by (simpl in Hrest; lia).
    assert (length text = (2 * len + 2 + 2 * k)%nat) as Hlen.
    { rewrite Htext, length_app, Hpre. simpl. lia. }
    assert (is_hex_digit c0 /\ is_hex_digit c1) as [H0 H1].
    { rewrite Htext in Hhex. apply Forall_app in Hhex as [_ Hhex].
      apply Forall_cons in Hhex as [H0 Hhex]. apply Forall_cons in Hhex as [H1 _].
      split; assumption. }
    rewrite convert_loop_step.
    rewrite (strlen_hex text Hhex), Hlen.
    rewrite bool_decide_eq_true_2 by lia.
    assert (text_at text (2 * Z.of_nat len) = Some c0) as ->.
    { unfold text_at. rewrite (proj2 (Z.leb_le _ _)) by lia.
      replace (Z.to_nat (2 * Z.of_nat len)) with (length pre + 0)%nat by lia.
      rewrite Htext, <- app_assoc, lookup_app_r by lia.
      replace (length pre + 0 - length pre)%nat with 0%nat by lia. reflexivity. }
    assert (text_at text (2 * Z.of_nat len + 1) = Some c1) as ->.
    { unfold text_at. rewrite (proj2 (Z.leb_le _ _)) by lia.
      replace (Z.to_nat (2 * Z.of_nat len + 1)) with (length pre + 1)%nat by lia.
      rewrite Htext, <- app_assoc, lookup_app_r by lia.
      replace (length pre + 1 - length pre)%nat with 1%nat by lia. reflexivity. }
    rewrite (strtol16_pair c0 c1 H0 H1).
    unfold store_binary.
    rewrite (proj2 (Z.leb_le _ _)), (proj2 (Z.ltb_lt _ _)) by lia. cbn [andb].
    rewrite Nat2Z.id.
    replace (wrap32 (2 * Z.of_nat len + 2)) with (2 * Z.of_nat (S len))
      by (unfold wrap32; rewrite Z.mod_small; lia).
    replace (Z.of_nat len + 1) with (Z.of_nat (S len)) by lia.
    rewrite (IH (pre ++ [c0; c1]) rest' (<[len := pair_value c0 c1]> out) (S len)).
    + f_equal. f_equal; [|lia].
      assert (len < length out)%nat as Hin by lia.
      rewrite (take_S_r _ _ (pair_value c0 c1)) by (apply list_lookup_insert_eq; exact Hin).
      rewrite take_insert_ge by lia. rewrite drop_insert_lt by lia.
      rewrite <- app_assoc. simpl.
      replace (S (len + k)) with (len + S k)%nat by lia. reflexivity.
    + rewrite Htext, <- app_assoc. reflexivity.
    + rewrite length_app, Hpre. simpl. lia.
    + exact Hrest'.
    + exact Hhex.
    + lia.
    + rewrite length_insert. exact Hout.
    + exact Hlt.
Qed.

(** X22: a text of an even number of hexadecimal digits, in either
    case, that fits the buffer is converted two digits to the byte, first
    digit high, and the bytes of the buffer after them are left as they
    were; [length] ends as half the length of the text. *)
Theorem serial_of_hex_digits MAX text buf k :
  Forall is_hex_digit text -> length text = (2 * k)%nat ->
  Z.of_nat k <= MAX -> Z.of_nat (length buf) = MAX ->
  Z.of_nat (length text) < 2 ^ 32 ->
  ConvertSerialNumberTextToBinary MAX text buf
  = Some (digit_pairs text ++ drop k buf, Z.of_nat k).
Proof.
  intros Hhex Hlen Hk Hbuf Hlt. unfold ConvertSerialNumberTextToBinary.
  exact (convert_loop_pairs MAX text k [] text buf 0%nat eq_refl eq_refl Hlen Hhex
           Hk Hbuf Hlt).
Qed.

Lemma serial_of_hex_digits_witness :
  (Forall is_hex_digit [49; 97; 50; 66] /\ length [49; 97; 50; 66] = (2 * 2)%nat /\
   Z.of_nat 2 <= 3 /\ Z.of_nat (length [7; 7; 7]) = 3 /\
   Z.of_nat (length [49; 97; 50; 66]) < 2 ^ 32) /\
  ConvertSerialNumberTextToBinary 3 [49; 97; 50; 66] [7; 7; 7]
  = Some (digit_pairs [49; 97; 50; 66] ++ drop 2 [7; 7; 7], Z.of_nat 2).
Proof.
  assert (Forall is_hex_digit [49; 97; 50; 66]) as Hhex
    by (repeat constructor; eexists; reflexivity).
  assert (Z.of_nat 2 <= 3) as Hk by lia.
  assert (Z.of_nat (length [49; 97; 50; 66]) < 2 ^ 32) as Hlt by (simpl; lia).
  split; [split_all; [exact Hhex | reflexivity | exact Hk | reflexivity | exact Hlt]|].
  exact (serial_of_hex_digits 3 [49; 97; 50; 66] [7; 7; 7] 2 Hhex eq_refl Hk eq_refl Hlt).
Defined.

(** X23: with a serial number of an even number of hexadecimal digits
    that fits, [StLinkConnect] makes one call, [stlink_open_usb], with the
    bytes the digits stand for followed by zeroes up to
    [STLINK_SERIAL_MAX_SIZE]. *)
Theorem StLinkConnect_opens_the_serial {W} (H : stlink_h) (D : stlink_driver W)
    settings text k (w : W) :
  serial_number settings = Some text ->
  Forall is_hex_digit text -> length text = (2 * k)%nat ->
  Z.of_nat k <= STLINK_SERIAL_MAX_SIZE H ->
  Z.of_nat (length text) < 2 ^ 32 ->
  StLinkConnect H D settings w
  = call stlink_open_usb
      (do_open_usb D
         (Some (digit_pairs text
                ++ replicate (Z.to_nat (STLINK_SERIAL_MAX_SIZE H) - k) 0))) w.
Proof.
  intros Hserial Hhex Hlen Hk Hlt. unfold StLinkConnect. rewrite Hserial.
  assert (Z.of_nat (length (replicate (Z.to_nat (STLINK_SERIAL_MAX_SIZE H)) 0))
          = STLINK_SERIAL_MAX_SIZE H) as Hbuf by (rewrite length_replicate; lia).
  pose proof (convert_loop_pairs (STLINK_SERIAL_MAX_SIZE H) text k [] text
                (replicate (Z.to_nat (STLINK_SERIAL_MAX_SIZE H)) 0) 0%nat
                eq_refl eq_refl Hlen Hhex Hk Hbuf Hlt) as Hconv.
  unfold ConvertSerialNumberTextToBinary.
  change (2 * Z.of_nat 0) with 0 in Hconv. change (Z.of_nat 0) with 0 in Hconv.
  rewrite Hconv. simpl. rewrite drop_replicate. reflexivity.
Qed.

Lemma StLinkConnect_opens_the_serial_witness :
  (serial_number (with_serial [49; 97; 50; 66] default_settings) = Some [49; 97; 50; 66] /\
   Forall is_hex_digit [49; 97; 50; 66] /\ length [49; 97; 50; 66] = (2 * 2)%nat /\
   Z.of_nat 2 <= STLINK_SERIAL_MAX_SIZE sample_stlink_h /\
   Z.of_nat (length [49; 97; 50; 66]) < 2 ^ 32) /\
  StLinkConnect sample_stlink_h scripted (with_serial [49; 97; 50; 66] default_settings)
    sample_world
  = call stlink_open_usb
      (do_open_usb scripted
         (Some (digit_pairs [49; 97; 50; 66]
                ++ replicate (Z.to_nat (STLINK_SERIAL_MAX_SIZE sample_stlink_h) - 2) 0)))
      sample_world.
Proof.
  assert (Forall is_hex_digit [49; 97; 50; 66]) as Hhex
    by (repeat constructor; eexists; reflexivity).
  assert (Z.of_nat 2 <= STLINK_SERIAL_MAX_SIZE sample_stlink_h) as Hk
    by (vm_compute; discriminate).
  assert (Z.of_nat (length [49; 97; 50; 66]) < 2 ^ 32) as Hlt by (simpl; lia).
  split; [split_all; [reflexivity | exact Hhex | reflexivity | exact Hk | exact Hlt]|].
  exact (StLinkConnect_opens_the_serial sample_stlink_h scripted
           (with_serial [49; 97; 50; 66] default_settings) [49; 97; 50; 66] 2 sample_world
           eq_refl Hhex eq_refl Hk Hlt).
Defined.
(** ** The clock given and the clock reported *)

(** X24: the prescaler of line 305 and the clock of lines 310-311 are
    inverse to each other for a core clock that is a multiple of the trace
    frequency, from the trace frequency up to 2^31 - 1 Hz: were the word
    read back the one written, the clock reported would be the clock
    given. *)
Theorem reported_clock_is_the_clock_given H core :
  0 < STLINK_TRACE_FREQUENCY H ->
  STLINK_TRACE_FREQUENCY H <= core * 1000000 <= 2 ^ 31 - 1 ->
  (core * 1000000) mod STLINK_TRACE_FREQUENCY H = 0 ->
  system_clock_speed_mhz H (prescaler_for H core) = core.
Proof.
  intros Hf Hrange Hmod.
  rewrite (prescaler_for_exact H core Hf Hrange).
  assert (core * 1000000
          = STLINK_TRACE_FREQUENCY H * (core * 1000000 / STLINK_TRACE_FREQUENCY H)) as Hdiv.
  { rewrite (Z.div_mod (core * 1000000) (STLINK_TRACE_FREQUENCY H)) at 1 by lia.
    rewrite Hmod. lia. }
  assert (1 <= core * 1000000 / STLINK_TRACE_FREQUENCY H) as Hq.
  { apply Z.div_le_lower_bound; lia. }
  rewrite system_clock_speed_mhz_exact; [| exact Hf | lia |].
  - replace ((core * 1000000 / STLINK_TRACE_FREQUENCY H - 1 + 1) * STLINK_TRACE_FREQUENCY H)
      with (core * 1000000) by lia.
    rewrite Z.add_comm, Z.div_add by lia. reflexivity.
  - replace ((core * 1000000 / STLINK_TRACE_FREQUENCY H - 1 + 1) * STLINK_TRACE_FREQUENCY H)
      with (core * 1000000) by lia.
    lia.
Qed.

Lemma reported_clock_is_the_clock_given_witness :
  (0 < STLINK_TRACE_FREQUENCY sample_stlink_h /\
   STLINK_TRACE_FREQUENCY sample_stlink_h <= 72 * 1000000 <= 2 ^ 31 - 1 /\
   (72 * 1000000) mod STLINK_TRACE_FREQUENCY sample_stlink_h = 0) /\
  system_clock_speed_mhz sample_stlink_h (prescaler_for sample_stlink_h 72) = 72.
Proof.
  assert (0 < STLINK_TRACE_FREQUENCY sample_stlink_h) as Hf by reflexivity.
  assert (STLINK_TRACE_FREQUENCY sample_stlink_h <= 72 * 1000000 <= 2 ^ 31 - 1) as Hrange
    by (split; vm_compute; discriminate).
  split; [split_all; [exact Hf | apply Hrange | apply Hrange | reflexivity]|].
  exact (reported_clock_is_the_clock_given sample_stlink_h 72 Hf Hrange eq_refl).
Defined.
